(** * holoviews.interface.pandas: DataFrameView and DFrame

    A shallow embedding of [holoviews/interface/pandas.py]: the wrapper
    that exposes a Pandas DataFrame as a dimensioned view
    ([DataFrameView]) and converts it to tables and heat maps
    ([DFrame]).  The Python methods become functions over an explicit
    table model; raised exceptions become values of [res]. *)

From Stdlib Require Import String Ascii List ZArith Bool Lia Permutation.
From Stdlib Require Import DecimalString.
Import ListNotations.
Open Scope string_scope.
Open Scope list_scope.
Open Scope Z_scope.

Set Implicit Arguments.

(** ** Python values *)

(** Cell values and row labels of a table: integers and strings. *)
Inductive scalar : Type :=
| SInt (z : Z)
| SStr (s : string).

(** Values used as dictionary keys and dictionary entries: a bare
    scalar, a tuple of scalars, a [Series] (what [.loc] returns when a
    label is not unique) and [None]. *)
Inductive pyval : Type :=
| PAtom (s : scalar)
| PTuple (l : list scalar)
| PSeries (l : list scalar)
| PNone.

Definition scalar_eqb (a b : scalar) : bool :=
  match a, b with
  | SInt x, SInt y => Z.eqb x y
  | SStr x, SStr y => String.eqb x y
  | _, _ => false
  end.

Fixpoint list_eqb {A : Type} (eqb : A -> A -> bool) (l1 l2 : list A) : bool :=
  match l1, l2 with
  | [], [] => true
  | x :: l1', y :: l2' => eqb x y && list_eqb eqb l1' l2'
  | _, _ => false
  end.

Definition pyval_eqb (a b : pyval) : bool :=
  match a, b with
  | PAtom x, PAtom y => scalar_eqb x y
  | PTuple x, PTuple y => list_eqb scalar_eqb x y
  | PSeries x, PSeries y => list_eqb scalar_eqb x y
  | PNone, PNone => true
  | _, _ => false
  end.

(** [a < b] on Python values: defined inside one type, a [TypeError]
    (here [None]) across types. *)
Definition py_lt (a b : scalar) : option bool :=
  match a, b with
  | SInt x, SInt y => Some (Z.ltb x y)
  | SStr x, SStr y => Some (String.ltb x y)
  | _, _ => None
  end.

(** The order in which a sort places group keys: integers before
    strings, each kind in its own order. *)
Definition scalar_compare (a b : scalar) : comparison :=
  match a, b with
  | SInt x, SInt y => Z.compare x y
  | SInt _, SStr _ => Lt
  | SStr _, SInt _ => Gt
  | SStr x, SStr y => String.compare x y
  end.

Fixpoint key_compare (k1 k2 : list scalar) : comparison :=
  match k1, k2 with
  | [], [] => Eq
  | [], _ :: _ => Lt
  | _ :: _, [] => Gt
  | x :: k1', y :: k2' =>
      match scalar_compare x y with
      | Eq => key_compare k1' k2'
      | c => c
      end
  end.

Definition key_leb (k1 k2 : list scalar) : bool :=
  match key_compare k1 k2 with Gt => false | _ => true end.

(** ** Exceptions *)

Inductive exn : Type :=
| Exception (msg : string)
| KeyError (key : pyval)
| TypeError
| IndexError
| ValueError (msg : string).

Inductive res (A : Type) : Type :=
| Ok (a : A)
| Err (e : exn).
Arguments Ok {A} a.
Arguments Err {A} e.

Definition bind {A B : Type} (m : res A) (f : A -> res B) : res B :=
  match m with
  | Ok a => f a
  | Err e => Err e
  end.

Notation "x <- m ;; k" := (bind m (fun x => k))
  (at level 61, m at next level, right associativity).
Notation "' p <- m ;; k" := (bind m (fun p => k))
  (at level 61, p pattern, m at next level, right associativity).

Fixpoint mapM {A B : Type} (f : A -> res B) (l : list A) : res (list B) :=
  match l with
  | [] => Ok []
  | x :: l' => y <- f x ;; ys <- mapM f l' ;; Ok (y :: ys)
  end.

(** ** Python lists and dictionaries *)

Definition mem_str (d : string) (l : list string) : bool :=
  existsb (String.eqb d) l.

(** [l.index(x)]: the first position of [x]. *)
Fixpoint index_of (d : string) (l : list string) : option nat :=
  match l with
  | [] => None
  | x :: l' =>
      if String.eqb d x then Some 0%nat
      else option_map S (index_of d l')
  end.

(** [not l]: the list is empty. *)
Definition is_empty {A : Type} (l : list A) : bool :=
  match l with [] => true | _ :: _ => false end.

(** [l[i] = x] inside the bounds of [l]. *)
Fixpoint list_set {A : Type} (i : nat) (x : A) (l : list A) : list A :=
  match l, i with
  | [], _ => []
  | _ :: l', O => x :: l'
  | y :: l', S i' => y :: list_set i' x l'
  end.

(** Dictionaries keep the order of first insertion. *)
Section Dict.
Variables K V : Type.
Variable eqb : K -> K -> bool.

Definition dict : Type := list (K * V).

Fixpoint dict_get (k : K) (d : dict) : option V :=
  match d with
  | [] => None
  | (k', v) :: d' => if eqb k k' then Some v else dict_get k d'
  end.

(** [d[k] = v] *)
Fixpoint dict_set (k : K) (v : V) (d : dict) : dict :=
  match d with
  | [] => [(k, v)]
  | (k', v') :: d' =>
      if eqb k k' then (k', v) :: d' else (k', v') :: dict_set k v d'
  end.

(** [dict(pairs)] *)
Definition dict_of (pairs : list (K * V)) : dict :=
  fold_left (fun d kv => dict_set (fst kv) (snd kv) d) pairs [].
End Dict.

(** [d[k].append(x)] on a [defaultdict(list)]. *)
Fixpoint dict_append {K A : Type} (eqb : K -> K -> bool)
    (k : K) (x : A) (d : dict K (list A)) : dict K (list A) :=
  match d with
  | [] => [(k, [x])]
  | (k', xs) :: d' =>
      if eqb k k' then (k', xs ++ [x]) :: d'
      else (k', xs) :: dict_append eqb k x d'
  end.

(** ** The Pandas table

    Pandas is an external library.  The definitions of this section
    render the DataFrame operations the module calls: a table has named
    columns and labelled rows; labels need not be unique. *)

Record row : Type := mkRow { row_label : scalar; row_cells : list scalar }.

Record DataFrame : Type := mkDF { columns : list string; rows : list row }.

(** [df.index] and [df.values] *)
Definition index (df : DataFrame) : list scalar := map row_label (rows df).
Definition values (df : DataFrame) : list (list scalar) := map row_cells (rows df).

(** The cell of a row under a column name. *)
Definition get_cell (cols : list string) (cells : list scalar) (d : string)
  : option scalar :=
  match index_of d cols with
  | Some i => nth_error cells i
  | None => None
  end.

Definition cell_or_raise (cols : list string) (d : string) (r : row) : res scalar :=
  match get_cell cols (row_cells r) d with
  | Some c => Ok c
  | None => Err (KeyError (PAtom (SStr d)))
  end.

(** [df[dim]]: a column, [KeyError] when there is none. *)
Definition df_column (df : DataFrame) (dim : string) : res (list scalar) :=
  if mem_str dim (columns df)
  then mapM (cell_or_raise (columns df) dim) (rows df)
  else Err (KeyError (PAtom (SStr dim))).

(** [df[mask]]: the rows at which a boolean series holds. *)
Definition df_mask (df : DataFrame) (mask : list bool) : DataFrame :=
  mkDF (columns df) (map fst (filter snd (combine (rows df) mask))).

(** [a < series] and [series < b], element by element. *)
Definition lt_or_raise (a b : scalar) : res bool :=
  match py_lt a b with
  | Some t => Ok t
  | None => Err TypeError
  end.

Definition series_gt (a : scalar) (col : list scalar) : res (list bool) :=
  mapM (fun x => lt_or_raise a x) col.

Definition series_lt (col : list scalar) (b : scalar) : res (list bool) :=
  mapM (fun x => lt_or_raise x b) col.

(** [series == k] *)
Definition series_eq (col : list scalar) (k : scalar) : list bool :=
  map (fun x => scalar_eqb x k) col.

(** [m1 & m2] *)
Definition series_and (m1 m2 : list bool) : list bool :=
  map (fun p => andb (fst p) (snd p)) (combine m1 m2).

(** [df.filter(items)]: the columns named in [items] that the table
    has, in the order of [items]. *)
Definition filter_cells (cols : list string) (names : list string)
    (cells : list scalar) : list scalar :=
  flat_map (fun n => match get_cell cols cells n with
                     | Some c => [c]
                     | None => []
                     end) names.

Definition filter_row (cols : list string) (names : list string) (r : row)
  : row :=
  mkRow (row_label r) (filter_cells cols names (row_cells r)).

Definition df_filter (items : list string) (df : DataFrame) : DataFrame :=
  let names := filter (fun n => mem_str n (columns df)) items in
  mkDF names (map (filter_row (columns df) names) (rows df)).

(** [df.drop(labels, axis=1)]: the table without the named columns,
    [KeyError] when one of them is not a column. *)
Fixpoint drop_cells (cols : list string) (labels : list string)
    (cells : list scalar) : list scalar :=
  match cols, cells with
  | c :: cols', x :: cells' =>
      if mem_str c labels then drop_cells cols' labels cells'
      else x :: drop_cells cols' labels cells'
  | _, _ => []
  end.

Definition drop_row (cols : list string) (labels : list string) (r : row)
  : row :=
  mkRow (row_label r) (drop_cells cols labels (row_cells r)).

Definition df_drop (labels : list string) (df : DataFrame) : res DataFrame :=
  match filter (fun d => negb (mem_str d (columns df))) labels with
  | d :: _ => Err (KeyError (PAtom (SStr d)))
  | [] =>
      Ok (mkDF (filter (fun c => negb (mem_str c labels)) (columns df))
               (map (drop_row (columns df) labels) (rows df)))
  end.

(** [df.groupby(dims)], iterated: one [(key, group)] pair per distinct
    combination of the values under [dims], keys sorted, each group
    keeping its rows in table order.  The key of a group is the tuple
    of its values, one per name in [dims].  An empty [dims] is refused
    with a [ValueError] when the table has rows; a table without rows
    has no groups. *)
Definition row_key (cols : list string) (dims : list string) (r : row)
  : res (list scalar) :=
  mapM (fun d => cell_or_raise cols d r) dims.

Definition key_eqb : list scalar -> list scalar -> bool := list_eqb scalar_eqb.

Fixpoint distinct_keys (keys : list (list scalar)) : list (list scalar) :=
  match keys with
  | [] => []
  | k :: keys' =>
      k :: filter (fun k' => negb (key_eqb k k')) (distinct_keys keys')
  end.

Fixpoint insert_key (k : list scalar) (l : list (list scalar))
  : list (list scalar) :=
  match l with
  | [] => [k]
  | h :: l' => if key_leb k h then k :: l else h :: insert_key k l'
  end.

Definition sort_keys (l : list (list scalar)) : list (list scalar) :=
  fold_right insert_key [] l.

Definition group_rows (k : list scalar) (tagged : list (list scalar * row))
  : list row :=
  map snd (filter (fun kr => key_eqb k (fst kr)) tagged).

Definition groupby (dims : list string) (df : DataFrame)
  : res (list (list scalar * DataFrame)) :=
  match dims with
  | [] =>
      if is_empty (rows df) then Ok []
      else Err (ValueError "No group keys passed!")
  | _ :: _ =>
      match filter (fun d => negb (mem_str d (columns df))) dims with
      | d :: _ => Err (KeyError (PAtom (SStr d)))
      | [] =>
          keys <- mapM (row_key (columns df) dims) (rows df) ;;
          let tagged := combine keys (rows df) in
          Ok (map (fun k => (k, mkDF (columns df) (group_rows k tagged)))
                  (sort_keys (distinct_keys keys)))
      end
  end.

(** [df.loc[ind, col]]: the cell of the row labelled [ind]; a [Series]
    of cells when several rows carry the label; [KeyError] when no row
    does. *)
Definition loc (df : DataFrame) (ind : scalar) (col : string) : res pyval :=
  if mem_str col (columns df) then
    cs <- mapM (cell_or_raise (columns df) col)
               (filter (fun r => scalar_eqb (row_label r) ind) (rows df)) ;;
    match cs with
    | [] => Err (KeyError (PAtom ind))
    | [c] => Ok (PAtom c)
    | _ => Ok (PSeries cs)
    end
  else Err (KeyError (PAtom (SStr col))).

(** ['_'.join([ind, name])]: a [TypeError] unless [ind] is a string. *)
Definition join_underscore (ind : scalar) (name : string) : res string :=
  match ind with
  | SStr s => Ok (s ++ "_" ++ name)%string
  | SInt _ => Err TypeError
  end.

(** ["%d" % n] *)
Definition str_nat (n : nat) : string :=
  NilEmpty.string_of_uint (Nat.to_uint n).

(** [repr] of a list of strings, as ["%s"] prints it. *)
Fixpoint repr_items (l : list string) : string :=
  match l with
  | [] => ""
  | [x] => ("'" ++ x ++ "'")%string
  | x :: l' => ("'" ++ x ++ "', " ++ repr_items l')%string
  end.

Definition repr_list (l : list string) : string :=
  ("[" ++ repr_items l ++ "]")%string.

(** [list(set(l))] in the order of first occurrence.  The order in
    which Python iterates a set is not fixed; the order chosen here
    only shows in the text of an error message. *)
Fixpoint set_of (l : list string) : list string :=
  match l with
  | [] => []
  | x :: l' => x :: filter (fun y => negb (String.eqb x y)) (set_of l')
  end.

(** [set(a) - set(b)] *)
Definition set_diff (a b : list string) : list string :=
  filter (fun x => negb (mem_str x b)) (set_of a).

(** ** DataFrameView *)

(** A view holds its table, its dimensions and a label.  A dimension
    is identified by its name, so [dim_dict[d]] and [dim_dict.get(d, d)]
    are rendered by the name [d] itself. *)
Record DataFrameView : Type :=
  mkView { data : DataFrame; dimensions : list string; label : string }.

Definition dimension_labels (v : DataFrameView) : list string := dimensions v.
Definition ndims (v : DataFrameView) : nat := length (dimensions v).

(** [dims[list(data.columns).index(dim_name)] = dim], guarded by
    [dim_name in data.columns]. *)
Definition place_dimension (cols : list string) (dims : list string)
    (dim : string) : list string :=
  match index_of dim cols with
  | Some i => list_set i dim dims
  | None => dims
  end.

(** [DataFrameView.__init__]: the dimensions are aligned with the
    columns by name, and the columns are renamed to the dimension
    labels. *)
Definition __init__ (df : DataFrame) (dims : option (list string))
    (lbl : string) : DataFrameView :=
  let dims' :=
    match dims with
    | None => columns df
    | Some ds =>
        fold_left (place_dimension (columns df)) ds
                  (repeat "" (length (columns df)))
    end in
  mkView (mkDF dims' (rows df)) dims' lbl.

(** Modelled from the spec: [View.clone], defined in the core package:
    a new view of the same class over the given table, with the given
    dimensions or else those of the original, and its other parameters
    kept. *)
Definition clone (v : DataFrameView) (df : DataFrame)
    (dims : option (list string)) : DataFrameView :=
  __init__ df
           (Some (match dims with Some ds => ds | None => dimensions v end))
           (label v).

(** A selection criterion: a value, or a slice with both bounds. *)
Inductive criterion : Type :=
| Equals (k : scalar)
| Slice (start stop : scalar).

(** One turn of the loop of [select]. *)
Definition select_step (df : DataFrame) (dim : string) (k : criterion)
  : res DataFrame :=
  match k with
  | Slice start stop =>
      c1 <- df_column df dim ;;
      m1 <- series_gt start c1 ;;
      c2 <- df_column df dim ;;
      m2 <- series_lt c2 stop ;;
      Ok (df_mask df (series_and m1 m2))
  | Equals k =>
      c <- df_column df dim ;;
      Ok (df_mask df (series_eq c k))
  end.

Fixpoint select_loop (df : DataFrame) (items : list (string * criterion))
  : res DataFrame :=
  match items with
  | [] => Ok df
  | (dim, k) :: items' =>
      df' <- select_step df dim k ;;
      select_loop df' items'
  end.

Definition select (v : DataFrameView) (criteria : dict string criterion)
  : res DataFrameView :=
  df <- select_loop (data v) criteria ;;
  Ok (clone v df None).

(** [__getitem__], for a tuple [key]. *)
Definition __getitem__ (v : DataFrameView) (key : list criterion)
  : res DataFrameView :=
  match key with
  | [] => Ok v
  | _ :: _ =>
      if (length key <=? ndims v)%nat
      then select v (dict_of String.eqb (combine (dimension_labels v) key))
      else Err (Exception
                  ("Selection contains " ++ str_nat (ndims v)
                   ++ " dimensions, DataFrameView only has "
                   ++ str_nat (length key) ++ " dimensions.")%string)
  end.

(** [dframe]: a copy of the table. *)
Definition dframe (v : DataFrameView) : DataFrame := data v.

(** Modelled from the spec: the containers [NdMapping], [Overlay],
    [Grid] and [ViewMap] of the core package, as far as this module
    relies on them: a keyed collection filled by item assignment. *)
Definition NdMapping (V : Type) : Type := dict (list scalar) V.

Definition ndmapping_set {V : Type} (k : list scalar) (x : V)
    (m : NdMapping V) : NdMapping V :=
  dict_set key_eqb k x m.

Fixpoint split_loop (v : DataFrameView) (dims view_dims : list string)
    (groups : list (list scalar * DataFrame))
    (ndmapping : NdMapping DataFrameView) : res (NdMapping DataFrameView) :=
  match groups with
  | [] => Ok ndmapping
  | (k, g) :: groups' =>
      g' <- df_drop dims g ;;
      split_loop v dims view_dims groups'
                 (ndmapping_set k (clone v g' (Some view_dims)) ndmapping)
  end.

Definition _split_dimensions (v : DataFrameView) (dims : list string)
  : res (NdMapping DataFrameView) :=
  let invalid_dims := set_diff dims (dimension_labels v) in
  match invalid_dims with
  | _ :: _ =>
      Err (Exception ("Following dimensions could not be found "
                        ++ repr_list invalid_dims ++ ".")%string)
  | [] =>
      let view_dims := set_diff (dimension_labels v) dims in
      groups <- groupby dims (data v) ;;
      split_loop v dims view_dims groups []
  end.

Definition overlay_dimensions (v : DataFrameView) (dims : list string)
  : res (NdMapping DataFrameView) :=
  _split_dimensions v dims.

(** [grid] without [layout]. *)
Definition grid (v : DataFrameView) (dims : list string)
  : res (NdMapping DataFrameView) :=
  if (2 <? length dims)%nat
  then Err (Exception "Grids hold a maximum of two dimensions.")
  else _split_dimensions v dims.

Definition viewmap (v : DataFrameView) (dims : list string)
  : res (NdMapping DataFrameView) :=
  _split_dimensions v dims.

(** [min] and [max] of a sequence: the first smallest and the first
    largest element, by [<] and [>]; a [ValueError] on an empty
    sequence, a [TypeError] when two elements do not compare. *)
Fixpoint min_loop (m : scalar) (l : list scalar) : res scalar :=
  match l with
  | [] => Ok m
  | x :: l' => b <- lt_or_raise x m ;; min_loop (if b then x else m) l'
  end.

Definition py_min (l : list scalar) : res scalar :=
  match l with
  | [] => Err (ValueError "min() arg is an empty sequence")
  | x :: l' => min_loop x l'
  end.

Fixpoint max_loop (m : scalar) (l : list scalar) : res scalar :=
  match l with
  | [] => Ok m
  | x :: l' => b <- lt_or_raise m x ;; max_loop (if b then x else m) l'
  end.

Definition py_max (l : list scalar) : res scalar :=
  match l with
  | [] => Err (ValueError "max() arg is an empty sequence")
  | x :: l' => max_loop x l'
  end.

(** The properties [xlim] and [ylim].  The attributes they read beside
    the table, the cached limits [_xlim] and the dimension [x] on the
    axis (the empty string when none is set), are arguments here. *)
Definition xlim (v : DataFrameView) (_xlim : option (scalar * scalar))
    (x : string) : res (option (scalar * scalar)) :=
  match _xlim with
  | Some lim => Ok (Some lim)
  | None =>
      if String.eqb x "" then Ok None
      else
        xdata <- df_column (data v) x ;;
        lo <- py_min xdata ;;
        hi <- py_max xdata ;;
        Ok (Some (lo, hi))
  end.

Definition ylim (v : DataFrameView) (_ylim : option (scalar * scalar))
    (y : string) : res (option (scalar * scalar)) :=
  match _ylim with
  | Some lim => Ok (Some lim)
  | None =>
      if String.eqb y "" then Ok None
      else
        ydata <- df_column (data v) y ;;
        lo <- py_min ydata ;;
        hi <- py_max ydata ;;
        Ok (Some (lo, hi))
  end.

(** ** DFrame *)

(** Modelled from the spec: the views [ItemTable] and [HeatMap] of the
    view package, represented by the arguments they are built from: the
    key-to-value mapping, the value dimension, the dimensions and the
    label. *)
Record ItemTable : Type :=
  mkItemTable { it_data : dict pyval pyval;
                it_value : string;
                it_dimensions : list string;
                it_label : string }.

Record HeatMap : Type :=
  mkHeatMap { hm_data : dict pyval pyval;
              hm_label : string;
              hm_dimensions : list string;
              hm_value : string }.

(** [self.label + (' - ' if self.label else '') + value_dim] *)
Definition view_label (v : DataFrameView) (value_dim : string) : string :=
  (label v ++ (if String.eqb (label v) "" then "" else " - ") ++ value_dim)%string.

Definition _create_table (v : DataFrameView) (temp_dict : dict pyval pyval)
    (value_dim : string) (dims : list string) : res ItemTable :=
  let dimensions := if is_empty dims then [] else dims in
  Ok (mkItemTable temp_dict value_dim dimensions (view_label v value_dim)).

Definition _create_heatmap (v : DataFrameView) (temp_dict : dict pyval pyval)
    (value_dim : string) (dims : list string) : res HeatMap :=
  let lbl := view_label v value_dim in
  let dimensions := dims in
  if mem_str value_dim (dimension_labels v)
  then Ok (mkHeatMap temp_dict lbl dimensions value_dim)
  else Err (KeyError (PAtom (SStr value_dim))).

(** What [_export_dataview] returns: one view, or a [ViewMap] of views
    keyed by the values of the map dimensions. *)
Inductive export (V : Type) : Type :=
| Single (view : V)
| Mapped (vmap : dict pyval V).
Arguments Single {V} view.
Arguments Mapped {V} vmap.

(** [cols.index(d)] and [row[i]], raising as Python does. *)
Definition list_index (d : string) (cols : list string) : res nat :=
  match index_of d cols with
  | Some i => Ok i
  | None => Err (ValueError "is not in list")
  end.

Definition item (cells : list scalar) (i : nat) : res scalar :=
  match nth_error cells i with
  | Some c => Ok c
  | None => Err IndexError
  end.

Section ExportDataview.
Variable V : Type.
Variable v : DataFrameView.
Variable value_dim : string.
Variable reduce_fn : option (list scalar -> res pyval).
Variable view_dims : list string.
Variable map_dims : list string.
Variable view_method : dict pyval pyval -> string -> list string -> res V.

(** The loop of the user error checking. *)
Fixpoint check_dimensions (selected_dims : list string) : res unit :=
  match selected_dims with
  | [] => Ok tt
  | dim :: rest =>
      if mem_str dim (dimension_labels v) then check_dimensions rest
      else Err (Exception ("DataFrameView has no Dimension " ++ dim ++ ".")%string)
  end.

(** Reduction: the loop over the rows of a map group. *)
Definition reduce_key (vdim_inds : list nat) (cells : list scalar)
  : res pyval :=
  if is_empty view_dims then Ok (PAtom (SStr value_dim))
  else ks <- mapM (item cells) vdim_inds ;; Ok (PTuple ks).

Fixpoint collate (val_idx : nat) (vdim_inds : list nat)
    (rws : list (list scalar)) (temp_dict : dict pyval (list scalar))
  : res (dict pyval (list scalar)) :=
  match rws with
  | [] => Ok temp_dict
  | cells :: rws' =>
      key <- reduce_key vdim_inds cells ;;
      x <- item cells val_idx ;;
      collate val_idx vdim_inds rws' (dict_append pyval_eqb key x temp_dict)
  end.

Definition reduce_group (f : list scalar -> res pyval)
    (map_group : DataFrame) : res (dict pyval pyval) :=
  let cols := columns map_group in
  val_idx <- list_index value_dim cols ;;
  vdim_inds <- mapM (fun d => list_index d cols) view_dims ;;
  temp_dict <- collate val_idx vdim_inds (values map_group) [] ;;
  mapM (fun kv => y <- f (snd kv) ;; Ok (fst kv, y)) temp_dict.

(** Selection: the key of an entry. *)
Definition select_key (indices : list scalar) (k : list scalar)
    (ind : scalar) : res pyval :=
  if is_empty view_dims then
    s <- join_underscore ind value_dim ;; Ok (PAtom (SStr s))
  else
    let key := k in
    let key := if (length indices =? 1)%nat then key else ind :: key in
    if (1 <? length key)%nat then Ok (PTuple key)
    else match key with
         | x :: _ => Ok (PAtom x)
         | [] => Err IndexError
         end.

Fixpoint select_indices (indices : list scalar) (k : list scalar)
    (view_group : DataFrame) (inds : list scalar)
    (temp_dict : dict pyval pyval) : res (dict pyval pyval) :=
  match inds with
  | [] => Ok temp_dict
  | ind :: inds' =>
      key <- select_key indices k ind ;;
      x <- loc view_group ind value_dim ;;
      select_indices indices k view_group inds'
                     (dict_set pyval_eqb key x temp_dict)
  end.

Fixpoint select_groups (indices : list scalar)
    (view_groups : list (list scalar * DataFrame))
    (temp_dict : dict pyval pyval) : res (dict pyval pyval) :=
  match view_groups with
  | [] => Ok temp_dict
  | (k, view_group) :: rest =>
      temp_dict' <- select_indices indices k view_group indices temp_dict ;;
      select_groups indices rest temp_dict'
  end.

(** The view groups of a map group: those of [groupby], or the whole
    group under the empty key. *)
Definition view_groups_of (map_group : DataFrame)
  : res (list (list scalar * DataFrame)) :=
  if is_empty view_dims then Ok [([], map_group)]
  else groupby view_dims map_group.

(** The body of the loop over the map groups.  The variables
    [indices] and [view_dimensions] are assigned inside the loop and
    keep their values from one map group to the next. *)
Definition group_body (indices : list scalar) (view_dimensions : list string)
    (map_group : DataFrame)
  : res (dict pyval pyval * list scalar * list string) :=
  match reduce_fn with
  | Some f =>
      temp_dict <- reduce_group f map_group ;;
      Ok (temp_dict, indices, view_dimensions)
  | None =>
      let '(indices, view_dimensions) :=
        if negb (length indices =? 1)%nat
        then (if is_empty indices then index map_group else indices,
              "Index" :: view_dims)
        else (indices, view_dimensions) in
      view_groups <- view_groups_of map_group ;;
      temp_dict <- select_groups indices view_groups [] ;;
      Ok (temp_dict, indices, view_dimensions)
  end.

Fixpoint export_loop (map_dfs : list (pyval * DataFrame))
    (indices : list scalar) (view_dimensions : list string)
    (vmap : dict pyval V) : res (dict pyval V) :=
  match map_dfs with
  | [] => Ok vmap
  | (map_key, map_group) :: rest =>
      '(temp_dict, indices', view_dimensions') <-
        group_body indices view_dimensions map_group ;;
      view <- view_method temp_dict value_dim view_dimensions' ;;
      export_loop rest indices' view_dimensions'
                  (dict_set pyval_eqb map_key view vmap)
  end.

(** Filtering out the unselected dimensions. *)
Definition filter_unselected (selected_dims : list string) : DataFrame :=
  let filter_dims := set_diff (dimension_labels v) selected_dims in
  if is_empty filter_dims then dframe v
  else df_filter selected_dims (data v).

(** The map groups: those of [groupby], or the whole table under the
    key [None]. *)
Definition map_groups (df : DataFrame) : res (list (pyval * DataFrame)) :=
  if is_empty map_dims then Ok [(PNone, df)]
  else gs <- groupby map_dims df ;;
       Ok (map (fun g => (PTuple (fst g), snd g)) gs).

Definition _export_dataview (indices : list scalar) : res (export V) :=
  let selected_dims := value_dim :: view_dims ++ map_dims in
  _ <- check_dimensions selected_dims ;;
  let df := filter_unselected selected_dims in
  let view_dimensions := view_dims in
  map_dfs <- map_groups df ;;
  vmap <- export_loop map_dfs indices view_dimensions [] ;;
  if is_empty map_dims then
    match dict_get pyval_eqb PNone vmap with
    | Some view => Ok (Single view)
    | None => Err (KeyError PNone)
    end
  else Ok (Mapped vmap).
End ExportDataview.

Definition table (v : DataFrameView) (value_dim : string)
    (indices : list scalar) (reduce_fn : option (list scalar -> res pyval))
    (dims map_dims : list string) : res (export ItemTable) :=
  _export_dataview v value_dim reduce_fn dims map_dims (_create_table v) indices.

(** Truth value of an optional [index] argument. *)
Definition truthy (index : option scalar) : bool :=
  match index with
  | None => false
  | Some (SInt z) => negb (Z.eqb z 0)
  | Some (SStr s) => negb (String.eqb s "")
  end.

(** The test [1 > len(dims) > 2], a chained comparison. *)
Definition heatmap_arity_test (dims : list string) : bool :=
  ((length dims <? 1) && (2 <? length dims))%nat.

Definition heatmap (v : DataFrameView) (value_dim : string)
    (dims : list string) (index : option scalar)
    (reduce_fn : option (list scalar -> res pyval))
    (map_dims : list string) : res (export HeatMap) :=
  let indices := match index with
                 | Some i => if truthy index then [i] else []
                 | None => []
                 end in
  if heatmap_arity_test dims
  then Err (Exception "HeatMap supports either one or two dimensions")
  else _export_dataview v value_dim reduce_fn dims map_dims
                        (_create_heatmap v) indices.

(** [sum] and [len], two reduction functions. *)
Fixpoint sum_ints (l : list scalar) (acc : Z) : res Z :=
  match l with
  | [] => Ok acc
  | SInt z :: l' => sum_ints l' (acc + z)
  | SStr _ :: _ => Err TypeError
  end.

Definition py_sum (l : list scalar) : res pyval :=
  z <- sum_ints l 0 ;; Ok (PAtom (SInt z)).

Definition py_len (l : list scalar) : res pyval :=
  Ok (PAtom (SInt (Z.of_nat (length l)))).

(** ** Tables with missing values

    A Pandas table may hold missing values ([NaN], [None]), and
    [groupby], with its default [dropna], leaves out the rows whose key
    holds one.  This module embeds the splitting methods a second time,
    over tables whose cells may be missing; on tables without missing
    cells it is the embedding above. *)

Module WithMissing.

Record row : Type :=
  mkRow { row_label : scalar; row_cells : list (option scalar) }.

Record DataFrame : Type := mkDF { columns : list string; rows : list row }.

Record DataFrameView : Type :=
  mkView { data : DataFrame; dimensions : list string; label : string }.

Definition dimension_labels (v : DataFrameView) : list string := dimensions v.

(** The cell of a row under a column name: [Some None] is a missing
    value, [None] is no cell at all. *)
Definition get_cell (cols : list string) (cells : list (option scalar))
    (d : string) : option (option scalar) :=
  match index_of d cols with
  | Some i => nth_error cells i
  | None => None
  end.

Definition cell_or_raise (cols : list string) (d : string) (r : row)
  : res (option scalar) :=
  match get_cell cols (row_cells r) d with
  | Some c => Ok c
  | None => Err (KeyError (PAtom (SStr d)))
  end.

Definition row_key (cols : list string) (dims : list string) (r : row)
  : res (list (option scalar)) :=
  mapM (fun d => cell_or_raise cols d r) dims.

(** The key of a row as a tuple of values, when none is missing. *)
Fixpoint complete (k : list (option scalar)) : option (list scalar) :=
  match k with
  | [] => Some []
  | Some x :: k' => option_map (cons x) (complete k')
  | None :: _ => None
  end.

(** The keys that are there. *)
Fixpoint present (ks : list (option (list scalar))) : list (list scalar) :=
  match ks with
  | [] => []
  | Some k :: ks' => k :: present ks'
  | None :: ks' => present ks'
  end.

Definition has_key (k : list scalar) (k' : option (list scalar)) : bool :=
  match k' with
  | Some k'' => key_eqb k k''
  | None => false
  end.

Definition group_rows (k : list scalar)
    (tagged : list (option (list scalar) * row)) : list row :=
  map snd (filter (fun kr => has_key k (fst kr)) tagged).

(** [df.groupby(dims)], iterated: as above, and the rows whose key
    holds a missing value are in no group. *)
Definition groupby (dims : list string) (df : DataFrame)
  : res (list (list scalar * DataFrame)) :=
  match dims with
  | [] =>
      if is_empty (rows df) then Ok []
      else Err (ValueError "No group keys passed!")
  | _ :: _ =>
      match filter (fun d => negb (mem_str d (columns df))) dims with
      | d :: _ => Err (KeyError (PAtom (SStr d)))
      | [] =>
          keys <- mapM (row_key (columns df) dims) (rows df) ;;
          let keys := map complete keys in
          let tagged := combine keys (rows df) in
          Ok (map (fun k => (k, mkDF (columns df) (group_rows k tagged)))
                  (sort_keys (distinct_keys (present keys))))
      end
  end.

(** [df.drop(labels, axis=1)] *)
Fixpoint drop_cells (cols : list string) (labels : list string)
    (cells : list (option scalar)) : list (option scalar) :=
  match cols, cells with
  | c :: cols', x :: cells' =>
      if mem_str c labels then drop_cells cols' labels cells'
      else x :: drop_cells cols' labels cells'
  | _, _ => []
  end.

Definition drop_row (cols : list string) (labels : list string) (r : row)
  : row :=
  mkRow (row_label r) (drop_cells cols labels (row_cells r)).

Definition df_drop (labels : list string) (df : DataFrame) : res DataFrame :=
  match filter (fun d => negb (mem_str d (columns df))) labels with
  | d :: _ => Err (KeyError (PAtom (SStr d)))
  | [] =>
      Ok (mkDF (filter (fun c => negb (mem_str c labels)) (columns df))
               (map (drop_row (columns df) labels) (rows df)))
  end.

(** [DataFrameView.__init__] and [clone], as above. *)
Definition __init__ (df : DataFrame) (dims : option (list string))
    (lbl : string) : DataFrameView :=
  let dims' :=
    match dims with
    | None => columns df
    | Some ds =>
        fold_left (place_dimension (columns df)) ds
                  (repeat "" (length (columns df)))
    end in
  mkView (mkDF dims' (rows df)) dims' lbl.

Definition clone (v : DataFrameView) (df : DataFrame)
    (dims : option (list string)) : DataFrameView :=
  __init__ df
           (Some (match dims with Some ds => ds | None => dimensions v end))
           (label v).

Fixpoint split_loop (v : DataFrameView) (dims view_dims : list string)
    (groups : list (list scalar * DataFrame))
    (ndmapping : NdMapping DataFrameView) : res (NdMapping DataFrameView) :=
  match groups with
  | [] => Ok ndmapping
  | (k, g) :: groups' =>
      g' <- df_drop dims g ;;
      split_loop v dims view_dims groups'
                 (ndmapping_set k (clone v g' (Some view_dims)) ndmapping)
  end.

Definition _split_dimensions (v : DataFrameView) (dims : list string)
  : res (NdMapping DataFrameView) :=
  let invalid_dims := set_diff dims (dimension_labels v) in
  match invalid_dims with
  | _ :: _ =>
      Err (Exception ("Following dimensions could not be found "
                        ++ repr_list invalid_dims ++ ".")%string)
  | [] =>
      let view_dims := set_diff (dimension_labels v) dims in
      groups <- groupby dims (data v) ;;
      split_loop v dims view_dims groups []
  end.

Definition overlay_dimensions (v : DataFrameView) (dims : list string)
  : res (NdMapping DataFrameView) :=
  _split_dimensions v dims.

Definition grid (v : DataFrameView) (dims : list string)
  : res (NdMapping DataFrameView) :=
  if (2 <? length dims)%nat
  then Err (Exception "Grids hold a maximum of two dimensions.")
  else _split_dimensions v dims.

Definition viewmap (v : DataFrameView) (dims : list string)
  : res (NdMapping DataFrameView) :=
  _split_dimensions v dims.

(** Well-formed tables and views, as above. *)
Definition wf_frame (df : DataFrame) : Prop :=
  NoDup (columns df) /\
  Forall (fun r => length (row_cells r) = length (columns df)) (rows df).

Definition wf_view (v : DataFrameView) : Prop :=
  wf_frame (data v) /\ dimensions v = columns (data v).

(** The values of a row under a list of dimensions: a key when none
    of them is missing. *)
Definition cell_value (cols : list string) (d : string) (r : row)
  : option scalar :=
  match get_cell cols (row_cells r) d with
  | Some c => c
  | None => None
  end.

Definition key_of (cols : list string) (dims : list string) (r : row)
  : option (list scalar) :=
  complete (map (fun d => cell_value cols d r) dims).

Definition keyed (cols : list string) (dims : list string) (r : row) : bool :=
  match key_of cols dims r with
  | Some _ => true
  | None => false
  end.

(** Completeness as the specification words it: the call returns
    groups, and the rows of the groups together are the rows of the
    view, each exactly once. *)
Definition partitions_all_rows
    (split : DataFrameView -> list string -> res (NdMapping DataFrameView))
    (v : DataFrameView) (dims : list string) : Prop :=
  exists m,
    split v dims = Ok m /\
    Permutation (concat (map (fun kg => rows (data (snd kg))) m))
                (map (drop_row (columns (data v)) dims) (rows (data v))).

(** What holds instead: the call returns groups under distinct keys;
    the group of a key holds, in table order and without the columns
    [dims], the rows whose values under [dims] are the key, and has the
    dimensions of the view other than [dims]; the rows of the groups
    together are the rows of the view that have a value under every
    name of [dims], each exactly once; a row with a missing value under
    [dims] is in no group. *)
Definition partitions_keyed_rows
    (split : DataFrameView -> list string -> res (NdMapping DataFrameView))
    (v : DataFrameView) (dims : list string) : Prop :=
  exists m,
    split v dims = Ok m /\
    NoDup (map fst m) /\
    (forall k g, In (k, g) m ->
       dimensions g = filter (fun d => negb (mem_str d dims)) (dimensions v) /\
       rows (data g)
       = map (drop_row (columns (data v)) dims)
             (filter (fun r => has_key k (key_of (columns (data v)) dims r))
                     (rows (data v)))) /\
    Permutation (concat (map (fun kg => rows (data (snd kg))) m))
                (map (drop_row (columns (data v)) dims)
                     (filter (keyed (columns (data v)) dims) (rows (data v)))).

(** Two rows, the second without a season. *)
Definition seasons : DataFrameView :=
  __init__ (mkDF ["season"; "a"; "value"]
                 [mkRow (SInt 0) [Some (SStr "s1"); Some (SInt 1); Some (SInt 10)];
                  mkRow (SInt 1) [None; Some (SInt 2); Some (SInt 20)]])
           None "".

End WithMissing.

(** A table without missing values, as a table that may hold some. *)
Definition with_missing_row (r : row) : WithMissing.row :=
  WithMissing.mkRow (row_label r) (map Some (row_cells r)).

Definition with_missing_frame (df : DataFrame) : WithMissing.DataFrame :=
  WithMissing.mkDF (columns df) (map with_missing_row (rows df)).

Definition with_missing (v : DataFrameView) : WithMissing.DataFrameView :=
  WithMissing.mkView (with_missing_frame (data v)) (dimensions v) (label v).

Definition with_missing_groups (gs : list (list scalar * DataFrame))
  : list (list scalar * WithMissing.DataFrame) :=
  map (fun kg => (fst kg, with_missing_frame (snd kg))) gs.

Definition with_missing_mapping (m : NdMapping DataFrameView)
  : NdMapping WithMissing.DataFrameView :=
  map (fun kg => (fst kg, with_missing (snd kg))) m.

(** [fmap] on results. *)
Definition res_map {A B : Type} (f : A -> B) (m : res A) : res B :=
  x <- m ;; Ok (f x).

(** ** Well-formed tables and views *)

(** A table is rectangular and its column names are distinct; a view
    keeps its dimension labels equal to the column names, which is what
    [__init__] establishes. *)
Definition wf_frame (df : DataFrame) : Prop :=
  NoDup (columns df) /\
  Forall (fun r => length (row_cells r) = length (columns df)) (rows df).

Definition wf_view (v : DataFrameView) : Prop :=
  wf_frame (data v) /\ dimensions v = columns (data v).

(** The views of a result, without their keys. *)
Definition views_of {V : Type} (e : export V) : list V :=
  match e with
  | Single view => [view]
  | Mapped vmap => map snd vmap
  end.

(** ** Example tables *)

Module Examples.

(** Rows [(cat='x', value=1)], [(cat='x', value=3)], [(cat='y', value=10)]. *)
Definition cats : DataFrameView :=
  __init__ (mkDF ["cat"; "value"]
                 [mkRow (SInt 0) [SStr "x"; SInt 1];
                  mkRow (SInt 1) [SStr "x"; SInt 3];
                  mkRow (SInt 2) [SStr "y"; SInt 10]])
           None "".

(** Rows labelled 5 and 6, both with [a=7]. *)
Definition sevens : DataFrameView :=
  __init__ (mkDF ["a"; "value"]
                 [mkRow (SInt 5) [SInt 7; SInt 42];
                  mkRow (SInt 6) [SInt 7; SInt 43]])
           None "".

(** The same rows under string labels. *)
Definition named : DataFrameView :=
  __init__ (mkDF ["a"; "value"]
                 [mkRow (SStr "r5") [SInt 7; SInt 42];
                  mkRow (SStr "r6") [SInt 7; SInt 43]])
           None "".

(** One row per season, labelled 0 and 1. *)
Definition seasons : DataFrameView :=
  __init__ (mkDF ["season"; "a"; "value"]
                 [mkRow (SInt 0) [SStr "s1"; SInt 1; SInt 10];
                  mkRow (SInt 1) [SStr "s2"; SInt 2; SInt 20]])
           None "".

(** Two seasons whose rows are labelled per season: 0 in the first,
    0 and 1 in the second. *)
Definition trials : DataFrameView :=
  __init__ (mkDF ["season"; "a"; "value"]
                 [mkRow (SInt 0) [SStr "s1"; SInt 1; SInt 10];
                  mkRow (SInt 0) [SStr "s2"; SInt 1; SInt 20];
                  mkRow (SInt 1) [SStr "s2"; SInt 1; SInt 30]])
           None "".

(** The second season of [trials] on its own. *)
Definition trials_s2 : DataFrameView :=
  __init__ (mkDF ["season"; "a"; "value"]
                 [mkRow (SInt 0) [SStr "s2"; SInt 1; SInt 20];
                  mkRow (SInt 1) [SStr "s2"; SInt 1; SInt 30]])
           None "".

(** A table of one row. *)
Definition single : DataFrameView :=
  __init__ (mkDF ["a"; "value"] [mkRow (SInt 5) [SInt 7; SInt 42]]) None "".

(** Three key columns and a value column. *)
Definition cube : DataFrameView :=
  __init__ (mkDF ["a"; "b"; "c"; "value"]
                 [mkRow (SInt 0) [SInt 1; SInt 2; SInt 3; SInt 10];
                  mkRow (SInt 1) [SInt 1; SInt 2; SInt 4; SInt 20]])
           None "".

End Examples.

(** ** Vocabulary of the statements *)

(** [name in msg], on strings. *)
Fixpoint mentions (name msg : string) : bool :=
  String.prefix name msg ||
  match msg with
  | EmptyString => false
  | String _ msg' => mentions name msg'
  end.

(** A result that is an exception whose message names every selected
    dimension the view does not have. *)
Definition reports_all_invalid {A : Type} (v : DataFrameView)
    (selected_dims : list string) (r : res A) : Prop :=
  exists msg,
    r = Err (Exception msg) /\
    forall d, In d selected_dims -> ~ In d (dimension_labels v) ->
              mentions d msg = true.

(** The first selected dimension the view does not have. *)
Definition first_invalid (v : DataFrameView) (selected_dims : list string)
  : option string :=
  find (fun d => negb (mem_str d (dimension_labels v))) selected_dims.

(** [a < b] holds: both of one type, and strictly below. *)
Definition scalar_lt (a b : scalar) : Prop :=
  match a, b with
  | SInt x, SInt y => x < y
  | SStr x, SStr y => String.ltb x y = true
  | _, _ => False
  end.

(** A row satisfies a criterion on a dimension: its cell equals the
    value, or lies strictly between the bounds of the slice. *)
Definition satisfies (cols : list string) (r : row) (dim : string)
    (k : criterion) : Prop :=
  match k with
  | Equals x => get_cell cols (row_cells r) dim = Some x
  | Slice start stop =>
      exists x, get_cell cols (row_cells r) dim = Some x /\
                scalar_lt start x /\ scalar_lt x stop
  end.

(** The same, as a test. *)
Definition meets (cols : list string) (dim : string) (k : criterion)
    (r : row) : bool :=
  match get_cell cols (row_cells r) dim with
  | None => false
  | Some x =>
      match k with
      | Equals y => scalar_eqb x y
      | Slice start stop =>
          match py_lt start x, py_lt x stop with
          | Some a, Some b => a && b
          | _, _ => false
          end
      end
  end.

(** A criterion can be evaluated on a table: its dimension is a column
    and, for a slice, the cells of the column compare with the bounds. *)
Definition criterion_applies (df : DataFrame) (dim : string)
    (k : criterion) : Prop :=
  In dim (columns df) /\
  forall r, In r (rows df) ->
    exists x, get_cell (columns df) (row_cells r) dim = Some x /\
              match k with
              | Equals _ => True
              | Slice start stop => py_lt start x <> None /\ py_lt x stop <> None
              end.

(** The values of a row under a list of dimensions, as [groupby]
    keys it. *)
Definition key_of (cols : list string) (dims : list string) (r : row)
  : list scalar :=
  flat_map (fun d => match get_cell cols (row_cells r) d with
                     | Some x => [x]
                     | None => []
                     end) dims.

(** The cell of a row under a column it has. *)
Definition cell_of (cols : list string) (dim : string) (r : row) : scalar :=
  match get_cell cols (row_cells r) dim with
  | Some x => x
  | None => SInt 0
  end.

(** Splitting a view on [dims], by one of the splitting methods,
    partitions its rows: the call returns groups under distinct keys;
    the group of a key holds, in table order and without the columns
    [dims], the rows whose values under [dims] are the key, and has the
    dimensions of the view other than [dims]; the rows of all groups
    together are the rows of the view, each exactly once. *)
Definition partitions_rows
    (split : DataFrameView -> list string -> res (NdMapping DataFrameView))
    (v : DataFrameView) (dims : list string) : Prop :=
  exists m,
    split v dims = Ok m /\
    NoDup (map fst m) /\
    (forall k g, In (k, g) m ->
       dimensions g = filter (fun d => negb (mem_str d dims)) (dimensions v) /\
       rows (data g)
       = map (drop_row (columns (data v)) dims)
             (filter (fun r => key_eqb k (key_of (columns (data v)) dims r))
                     (rows (data v)))) /\
    Permutation (concat (map (fun kg => rows (data (snd kg))) m))
                (map (drop_row (columns (data v)) dims) (rows (data v))).

(** A key that carries a row index: the index followed by one value
    per view dimension, or, without view dimensions, the index joined
    to the name of the value dimension. *)
Definition indexed_key (value_dim : string) (view_dims : list string)
    (inds : list scalar) (key : pyval) : Prop :=
  exists ind,
    In ind inds /\
    if is_empty view_dims
    then exists s, ind = SStr s /\ key = PAtom (SStr (s ++ "_" ++ value_dim)%string)
    else exists k, length k = length view_dims /\ key = PTuple (ind :: k).

(** The indices in effect when the supplied ones are not exactly one. *)
Definition effective_indices (indices : list scalar) (df : DataFrame)
  : list scalar :=
  if is_empty indices then index df else indices.

(** Reduce mode, as the specification words it: the rows are grouped
    by their values under the view dimensions, the groups are taken in
    the order in which their keys first occur, and the key of a group
    is mapped to the reduction of the entries of the group in the value
    column. *)
Definition group_values (v : DataFrameView) (value_dim : string)
    (view_dims : list string) (k : list scalar) : list scalar :=
  map (cell_of (columns (data v)) value_dim)
      (filter (fun r => key_eqb k (key_of (columns (data v)) view_dims r))
              (rows (data v))).

Definition reduce_spec (v : DataFrameView) (value_dim : string)
    (f : list scalar -> res pyval) (view_dims : list string)
  : res (dict pyval pyval) :=
  mapM (fun k => y <- f (group_values v value_dim view_dims k) ;;
                 Ok (PTuple k, y))
       (distinct_keys (map (key_of (columns (data v)) view_dims)
                           (rows (data v)))).

(** Collating rows under a key function [kf] and a value function
    [xf]: one turn of the loop, the entries gathered under a key, and
    the dictionary the loop ends with. *)
Definition collate_step (kf : row -> list scalar) (xf : row -> scalar)
    (d : dict pyval (list scalar)) (r : row) : dict pyval (list scalar) :=
  dict_append pyval_eqb (PTuple (kf r)) (xf r) d.

Definition values_at (kf : row -> list scalar) (xf : row -> scalar)
    (k : list scalar) (l : list row) : list scalar :=
  map xf (filter (fun r => key_eqb k (kf r)) l).

Definition collated (kf : row -> list scalar) (xf : row -> scalar)
    (l : list row) : dict pyval (list scalar) :=
  map (fun k => (PTuple k, values_at kf xf k l)) (distinct_keys (map kf l)).

(** ** Basic facts *)

Lemma scalar_eqb_eq (a b : scalar) : scalar_eqb a b = true <-> a = b.
Proof.
  destruct a as [x|x], b as [y|y]; simpl; split; intro H;
    try discriminate; try congruence.
  - apply Z.eqb_eq in H. now subst.
  - injection H as ->. apply Z.eqb_refl.
  - apply String.eqb_eq in H. now subst.
  - injection H as ->. apply String.eqb_refl.
Qed.

Lemma key_eqb_eq (k1 k2 : list scalar) : key_eqb k1 k2 = true <-> k1 = k2.
Proof.
  unfold key_eqb. revert k2.
  induction k1 as [|x k1 IH]; intros [|y k2]; simpl; split; intro H;
    try discriminate; try reflexivity.
  - apply andb_true_iff in H as [Hx Hk].
    apply scalar_eqb_eq in Hx. apply IH in Hk. now subst.
  - injection H as -> ->. apply andb_true_iff. split.
    + now apply scalar_eqb_eq.
    + now apply IH.
Qed.

Lemma key_eqb_refl (k : list scalar) : key_eqb k k = true.
Proof. now apply key_eqb_eq. Qed.

Lemma key_eqb_neq (k1 k2 : list scalar) : key_eqb k1 k2 = false <-> k1 <> k2.
Proof.
  split.
  - intros H ->. rewrite key_eqb_refl in H. discriminate.
  - intro H. destruct (key_eqb k1 k2) eqn:E; [|reflexivity].
    apply key_eqb_eq in E. contradiction.
Qed.

Lemma pyval_eqb_eq (a b : pyval) : pyval_eqb a b = true <-> a = b.
Proof.
  destruct a, b; simpl; split; intro H; try discriminate; try reflexivity.
  - apply scalar_eqb_eq in H. now subst.
  - injection H as ->. now apply scalar_eqb_eq.
  - apply key_eqb_eq in H. now subst.
  - injection H as ->. apply key_eqb_refl.
  - apply key_eqb_eq in H. now subst.
  - injection H as ->. apply key_eqb_refl.
Qed.

Lemma pyval_eqb_refl (a : pyval) : pyval_eqb a a = true.
Proof. now apply pyval_eqb_eq. Qed.

Lemma pyval_eqb_neq (a b : pyval) : pyval_eqb a b = false <-> a <> b.
Proof.
  split.
  - intros H ->. rewrite pyval_eqb_refl in H. discriminate.
  - intro H. destruct (pyval_eqb a b) eqn:E; [|reflexivity].
    apply pyval_eqb_eq in E. contradiction.
Qed.

Lemma mem_str_In (d : string) (l : list string) : mem_str d l = true <-> In d l.
Proof.
  unfold mem_str. rewrite existsb_exists. split.
  - intros [x [Hin Heq]]. apply String.eqb_eq in Heq. now subst.
  - intro Hin. exists d. split; [assumption | apply String.eqb_refl].
Qed.

Lemma mem_str_not_In (d : string) (l : list string) :
  mem_str d l = false <-> ~ In d l.
Proof.
  rewrite <- mem_str_In. destruct (mem_str d l); split; intro H;
    try discriminate; try reflexivity; try congruence.
Qed.

Lemma bind_Ok {A B : Type} (m : res A) (f : A -> res B) (b : B) :
  bind m f = Ok b -> exists a, m = Ok a /\ f a = Ok b.
Proof. destruct m as [a|e]; simpl; intro H; [eauto | discriminate]. Qed.

Lemma mapM_Ok_length {A B : Type} (f : A -> res B) (l : list A) (l' : list B) :
  mapM f l = Ok l' -> length l' = length l.
Proof.
  revert l'. induction l as [|x l IH]; simpl; intros l' H.
  - injection H as <-. reflexivity.
  - apply bind_Ok in H as [y [_ H]]. apply bind_Ok in H as [ys [Hys H]].
    injection H as <-. simpl. f_equal. now apply IH.
Qed.

Lemma mapM_Ok_map {A B : Type} (f : A -> res B) (g : A -> B) (l : list A) :
  (forall x, In x l -> f x = Ok (g x)) -> mapM f l = Ok (map g l).
Proof.
  induction l as [|x l IH]; simpl; intro H; [reflexivity|].
  rewrite (H x (or_introl eq_refl)). simpl.
  rewrite IH by (intros; apply H; now right). reflexivity.
Qed.

Lemma mapM_Ok_Forall2 {A B : Type} (f : A -> res B) (l : list A) (l' : list B) :
  mapM f l = Ok l' -> Forall2 (fun x y => f x = Ok y) l l'.
Proof.
  revert l'. induction l as [|x l IH]; simpl; intros l' H.
  - injection H as <-. constructor.
  - apply bind_Ok in H as [y [Hy H]]. apply bind_Ok in H as [ys [Hys H]].
    injection H as <-. constructor; [assumption | now apply IH].
Qed.

(** ** Checking the dimensions of a projection *)

Lemma check_dimensions_first_invalid (v : DataFrameView) (sel : list string)
    (d : string) :
  first_invalid v sel = Some d ->
  check_dimensions v sel
  = Err (Exception ("DataFrameView has no Dimension " ++ d ++ ".")%string).
Proof.
  unfold first_invalid.
  induction sel as [|x sel IH]; simpl; [discriminate|].
  destruct (mem_str x (dimension_labels v)); simpl.
  - exact IH.
  - intro H. injection H as ->. reflexivity.
Qed.

Lemma check_dimensions_valid (v : DataFrameView) (sel : list string) :
  (forall d, In d sel -> In d (dimension_labels v)) ->
  check_dimensions v sel = Ok tt.
Proof.
  induction sel as [|x sel IH]; simpl; intro H; [reflexivity|].
  assert (Hx : mem_str x (dimension_labels v) = true)
    by (apply mem_str_In, H; now left).
  rewrite Hx. apply IH. intros d Hd. apply H. now right.
Qed.

Lemma check_dimensions_Ok (v : DataFrameView) (sel : list string) (u : unit) :
  check_dimensions v sel = Ok u ->
  forall d, In d sel -> In d (dimension_labels v).
Proof.
  induction sel as [|x sel IH]; simpl; intros H d Hd; [contradiction|].
  destruct (mem_str x (dimension_labels v)) eqn:Hx; [|discriminate].
  destruct Hd as [<-|Hd]; [now apply mem_str_In | now apply IH].
Qed.

(** C5, as stated, fails: with the two unknown dimensions [height] and
    [weight] the exception of the projection names [height] only. *)
Lemma C5_projection_error_names_one_dimension :
  ~ reports_all_invalid Examples.seasons
      ["value"; "height"; "weight"; "season"]
      (table Examples.seasons "value" [] (Some py_sum)
             ["height"; "weight"] ["season"]).
Proof.
  intros [msg [Hres Hall]].
  vm_compute in Hres. injection Hres as <-.
  assert (Hw : mentions "weight" "DataFrameView has no Dimension height." = true).
  { apply Hall.
    - simpl. tauto.
    - vm_compute. intros [H|[H|[H|[]]]]; discriminate. }
  vm_compute in Hw. discriminate.
Qed.

(** C5, amended: when a name among [value_dim], [view_dims] and
    [map_dims] is not a dimension of the view, the projection raises
    the invalid-dimension exception for the first such name, in the
    order value dimension, view dimensions, map dimensions; the
    exception is the same whatever the rows, the indices, the reduction
    function and the view method are, so it is raised before any row is
    looked at. *)
Theorem C5_projection_reports_first_invalid_dimension
    (V : Type) (v : DataFrameView) (value_dim : string)
    (indices : list scalar) (reduce_fn : option (list scalar -> res pyval))
    (view_dims map_dims : list string)
    (view_method : dict pyval pyval -> string -> list string -> res V)
    (d : string) :
  first_invalid v (value_dim :: view_dims ++ map_dims) = Some d ->
  _export_dataview v value_dim reduce_fn view_dims map_dims view_method indices
  = Err (Exception ("DataFrameView has no Dimension " ++ d ++ ".")%string).
Proof.
  intro H. unfold _export_dataview.
  rewrite (check_dimensions_first_invalid _ _ H). reflexivity.
Qed.

Lemma C5_projection_reports_first_invalid_dimension_witness :
  _export_dataview Examples.seasons "value" (Some py_sum)
                   ["height"; "weight"] ["season"]
                   (_create_table Examples.seasons) []
  = Err (Exception "DataFrameView has no Dimension height.").
Proof.
  apply (@C5_projection_reports_first_invalid_dimension
           ItemTable Examples.seasons "value" [] (Some py_sum)
           ["height"; "weight"] ["season"]
           (_create_table Examples.seasons) "height").
  reflexivity.
Defined.

(** ** The arity test of [heatmap] *)

Lemma heatmap_arity_test_false (dims : list string) :
  heatmap_arity_test dims = false.
Proof.
  unfold heatmap_arity_test.
  destruct (length dims <? 1)%nat eqn:H1; [|reflexivity].
  apply Nat.ltb_lt in H1. simpl.
  apply Nat.ltb_ge. lia.
Qed.

(** C6: the code does not do what the claim says.  The test
    [1 > len(dims) > 2] holds for no list, so [heatmap] never raises
    its arity exception: called with three dimensions, or with none, it
    goes on and builds a view. *)
Theorem C6_heatmap_arity_not_enforced :
  (forall dims, heatmap_arity_test dims = false) /\
  heatmap Examples.cube "value" ["a"; "b"; "c"] None (Some py_sum) []
  = Ok (Single (mkHeatMap
                  [(PTuple [SInt 1; SInt 2; SInt 3], PAtom (SInt 10));
                   (PTuple [SInt 1; SInt 2; SInt 4], PAtom (SInt 20))]
                  "value" ["a"; "b"; "c"] "value")) /\
  heatmap Examples.cube "value" [] None (Some py_sum) []
  = Ok (Single (mkHeatMap [(PAtom (SStr "value"), PAtom (SInt 30))]
                          "value" [] "value")).
Proof.
  split; [exact heatmap_arity_test_false|].
  split; vm_compute; reflexivity.
Qed.

(** ** Reduction and indices *)

Lemma group_body_reduce (value_dim : string) (f : list scalar -> res pyval)
    (view_dims : list string) (indices : list scalar)
    (view_dimensions : list string) (g : DataFrame) :
  group_body value_dim (Some f) view_dims indices view_dimensions g
  = temp_dict <- reduce_group value_dim view_dims f g ;;
    Ok (temp_dict, indices, view_dimensions).
Proof. reflexivity. Qed.

Lemma export_loop_reduce_indices (V : Type) (value_dim : string)
    (f : list scalar -> res pyval) (view_dims : list string)
    (view_method : dict pyval pyval -> string -> list string -> res V)
    (map_dfs : list (pyval * DataFrame)) :
  forall (i1 i2 : list scalar) (vds : list string) (vmap : dict pyval V),
    export_loop value_dim (Some f) view_dims view_method map_dfs i1 vds vmap
    = export_loop value_dim (Some f) view_dims view_method map_dfs i2 vds vmap.
Proof.
  induction map_dfs as [|[map_key g] rest IH]; intros i1 i2 vds vmap;
    [reflexivity|].
  cbn [export_loop]. rewrite !group_body_reduce.
  destruct (reduce_group value_dim view_dims f g) as [temp|e];
    cbn [bind]; [|reflexivity].
  destruct (view_method temp value_dim vds) as [view|e];
    cbn [bind]; [|reflexivity].
  apply IH.
Qed.

(** C10: when a reduction function is supplied, the indices supplied
    with it are not consulted: the projection returns what it returns
    without indices. *)
Theorem C10_reduce_takes_precedence_over_indices
    (V : Type) (v : DataFrameView) (value_dim : string)
    (f : list scalar -> res pyval) (view_dims map_dims : list string)
    (view_method : dict pyval pyval -> string -> list string -> res V)
    (indices : list scalar) :
  _export_dataview v value_dim (Some f) view_dims map_dims view_method indices
  = _export_dataview v value_dim (Some f) view_dims map_dims view_method [].
Proof.
  unfold _export_dataview.
  destruct (check_dimensions v (value_dim :: view_dims ++ map_dims));
    cbn [bind]; [|reflexivity].
  destruct (map_groups map_dims _) as [map_dfs|e]; cbn [bind]; [|reflexivity].
  rewrite (export_loop_reduce_indices value_dim f view_dims view_method
             map_dfs indices [] view_dims []).
  reflexivity.
Qed.

(** ** Lists, positions and dictionaries *)

Lemma index_of_nth_error (d : string) (l : list string) (i : nat) :
  index_of d l = Some i -> nth_error l i = Some d.
Proof.
  revert i. induction l as [|x l IH]; simpl; intros i H; [discriminate|].
  destruct (String.eqb d x) eqn:E.
  - injection H as <-. apply String.eqb_eq in E. now subst.
  - destruct (index_of d l) as [j|]; simpl in H; [|discriminate].
    injection H as <-. simpl. now apply IH.
Qed.

Lemma index_of_lt (d : string) (l : list string) (i : nat) :
  index_of d l = Some i -> (i < length l)%nat.
Proof.
  intro H. apply index_of_nth_error in H.
  apply nth_error_Some. congruence.
Qed.

Lemma index_of_In (d : string) (l : list string) :
  In d l -> exists i, index_of d l = Some i.
Proof.
  induction l as [|x l IH]; simpl; [contradiction|].
  intros H. destruct (String.eqb d x) eqn:E; [eauto|].
  destruct H as [->|H]; [rewrite String.eqb_refl in E; discriminate|].
  destruct (IH H) as [i ->]. simpl. eauto.
Qed.

Lemma index_of_Some_In (d : string) (l : list string) (i : nat) :
  index_of d l = Some i -> In d l.
Proof. intro H. eapply nth_error_In, index_of_nth_error, H. Qed.

Lemma index_of_NoDup (l : list string) (i : nat) (d : string) :
  NoDup l -> nth_error l i = Some d -> index_of d l = Some i.
Proof.
  revert i. induction l as [|x l IH]; intros [|i] Hnd H; simpl in *;
    try discriminate.
  - injection H as ->. now rewrite String.eqb_refl.
  - inversion Hnd as [|? ? Hx Hl]; subst.
    destruct (String.eqb d x) eqn:E.
    + apply String.eqb_eq in E. subst. exfalso. apply Hx.
      eapply nth_error_In, H.
    + now rewrite (IH i Hl H).
Qed.

Lemma list_set_length {A : Type} (i : nat) (x : A) (l : list A) :
  length (list_set i x l) = length l.
Proof.
  revert i. induction l as [|y l IH]; intros [|i]; simpl; auto.
Qed.

Lemma list_set_same {A : Type} (i : nat) (x : A) (l : list A) :
  (i < length l)%nat -> nth_error (list_set i x l) i = Some x.
Proof.
  revert i. induction l as [|y l IH]; intros [|i]; simpl; intro H;
    try lia; [reflexivity|]. apply IH. lia.
Qed.

Lemma list_set_other {A : Type} (i j : nat) (x : A) (l : list A) :
  i <> j -> nth_error (list_set i x l) j = nth_error l j.
Proof.
  revert i j. induction l as [|y l IH]; intros [|i] [|j]; simpl; intro H;
    try reflexivity; try congruence.
  apply IH. congruence.
Qed.

Section DictFacts.
Variables K V : Type.
Variable eqb : K -> K -> bool.
Hypothesis eqb_eq : forall a b, eqb a b = true <-> a = b.

Lemma dict_set_fresh (k : K) (x : V) (d : dict K V) :
  ~ In k (map fst d) -> dict_set eqb k x d = d ++ [(k, x)].
Proof.
  induction d as [|[k' x'] d IH]; simpl; intro H; [reflexivity|].
  destruct (eqb k k') eqn:E.
  - apply eqb_eq in E. subst. exfalso. apply H. now left.
  - f_equal. apply IH. intro Hin. apply H. now right.
Qed.

Lemma fold_dict_set_fresh (l : list (K * V)) :
  forall d, NoDup (map fst (d ++ l)) ->
    fold_left (fun d kv => dict_set eqb (fst kv) (snd kv) d) l d = d ++ l.
Proof.
  induction l as [|[k x] l IH]; intros d H; simpl.
  - now rewrite app_nil_r.
  - rewrite dict_set_fresh.
    + rewrite IH; rewrite <- app_assoc; [reflexivity | exact H].
    + rewrite map_app in H. apply NoDup_remove_2 in H.
      intro Hin. apply H. apply in_or_app. now left.
Qed.

Lemma dict_of_NoDup (l : list (K * V)) :
  NoDup (map fst l) -> dict_of eqb l = l.
Proof. intro H. unfold dict_of. now rewrite fold_dict_set_fresh. Qed.

Lemma dict_set_keys (k : K) (x : V) (d : dict K V) (k' : K) :
  In k' (map fst (dict_set eqb k x d)) <-> k' = k \/ In k' (map fst d).
Proof.
  induction d as [|[k0 x0] d IH]; simpl.
  - intuition.
  - destruct (eqb k k0) eqn:E; simpl.
    + apply eqb_eq in E. subst. intuition.
    + rewrite IH. intuition.
Qed.

Lemma dict_set_In (k : K) (x : V) (d : dict K V) (k' : K) (x' : V) :
  In (k', x') (dict_set eqb k x d) ->
  (k' = k /\ x' = x) \/ In (k', x') d.
Proof.
  induction d as [|[k0 x0] d IH]; simpl.
  - intros [H|[]]. injection H as <- <-. now left.
  - destruct (eqb k k0) eqn:E; simpl.
    + apply eqb_eq in E. subst.
      intros [H|H]; [injection H as <- <-; now left | right; now right].
    + intros [H|H]; [right; now left|].
      destruct (IH H) as [?|?]; [now left | right; now right].
Qed.
End DictFacts.

Lemma NoDup_combine_fst {A B : Type} (l1 : list A) (l2 : list B) :
  NoDup l1 -> NoDup (map fst (combine l1 l2)).
Proof.
  revert l2. induction l1 as [|a l1 IH]; intros [|b l2] H; simpl;
    try constructor.
  - inversion H as [|? ? Ha Hl]; subst. intro Hin. apply Ha.
    apply in_map_iff in Hin as [[a' b'] [Heq Hin]]. simpl in Heq. subst.
    eapply in_combine_l, Hin.
  - inversion H; subst. now apply IH.
Qed.

(** ** The constructor keeps a well-formed view *)

Lemma place_dimension_length (cols dims : list string) (d : string) :
  length (place_dimension cols dims d) = length dims.
Proof.
  unfold place_dimension. destruct (index_of d cols); [|reflexivity].
  apply list_set_length.
Qed.

Lemma fold_place_length (cols ds : list string) :
  forall acc, length (fold_left (place_dimension cols) ds acc) = length acc.
Proof.
  induction ds as [|d ds IH]; intro acc; simpl; [reflexivity|].
  rewrite IH. apply place_dimension_length.
Qed.

Lemma fold_place_placed (cols ds : list string) (d : string) (i : nat) :
  index_of d cols = Some i ->
  forall acc, length acc = length cols ->
    In d ds \/ nth_error acc i = Some d ->
    nth_error (fold_left (place_dimension cols) ds acc) i = Some d.
Proof.
  intro Hi. induction ds as [|d' ds IH]; intros acc Hlen H; simpl.
  - destruct H as [[]|H]. exact H.
  - apply IH; [now rewrite place_dimension_length|].
    destruct H as [[->|H]|H].
    + right. unfold place_dimension. rewrite Hi.
      apply list_set_same. rewrite Hlen. eapply index_of_lt, Hi.
    + now left.
    + right. unfold place_dimension.
      destruct (index_of d' cols) as [j|] eqn:Hj; [|exact H].
      destruct (Nat.eq_dec j i) as [->|Hne].
      * apply index_of_nth_error in Hi, Hj.
        assert (d' = d) by congruence. subst.
        apply list_set_same. rewrite Hlen. apply nth_error_Some. congruence.
      * now rewrite list_set_other.
Qed.

Lemma fold_place_all (cols : list string) :
  NoDup cols ->
  fold_left (place_dimension cols) cols (repeat "" (length cols)) = cols.
Proof.
  intro Hnd. apply nth_error_ext. intro i.
  destruct (nth_error cols i) as [d|] eqn:Hd.
  - apply fold_place_placed.
    + now apply index_of_NoDup.
    + apply repeat_length.
    + left. eapply nth_error_In, Hd.
  - apply nth_error_None. rewrite fold_place_length, repeat_length.
    now apply nth_error_None.
Qed.

Lemma init_wf (df : DataFrame) (lbl : string) :
  wf_frame df -> wf_view (__init__ df None lbl).
Proof.
  intros [Hnd Hrect]. unfold wf_view, wf_frame, __init__. simpl. auto.
Qed.

Lemma clone_same_table (v : DataFrameView) :
  wf_view v -> clone v (data v) None = v.
Proof.
  intros [[Hnd _] Hdims]. unfold clone, __init__.
  rewrite Hdims, fold_place_all by assumption.
  destruct v as [[cols rws] dims lbl]. simpl in *. now subst.
Qed.

(** The rows of a clone are the rows of the table it is given. *)
Lemma clone_rows (v : DataFrameView) (df : DataFrame)
    (dims : option (list string)) :
  rows (data (clone v df dims)) = rows df.
Proof. reflexivity. Qed.

(** ** Index access *)

(** C9: on a view with [n] dimensions, index access with a tuple of at
    most [n] values pairs the values with the first dimensions in
    declared order and is the selection by these pairs; with more than
    [n] values it raises an exception. *)
Theorem C9_getitem_arity (v : DataFrameView) (key : list criterion) :
  wf_view v ->
  ((length key <= ndims v)%nat ->
     __getitem__ v key = select v (combine (dimension_labels v) key)) /\
  ((ndims v < length key)%nat ->
     exists msg, __getitem__ v key = Err (Exception msg)).
Proof.
  intro Hwf. destruct key as [|k key].
  - split.
    + intros _. rewrite combine_nil. unfold select. simpl.
      now rewrite clone_same_table.
    + simpl. lia.
  - unfold __getitem__. split; intro H.
    + apply Nat.leb_le in H. rewrite H.
      rewrite (dict_of_NoDup String.eqb String.eqb_eq); [reflexivity|].
      apply NoDup_combine_fst. destruct Hwf as [[Hnd _] Hdims].
      unfold dimension_labels. now rewrite Hdims.
    + apply Nat.leb_gt in H. rewrite H. eauto.
Qed.

(** ** Selection *)

Lemma scalar_lt_py_lt (a b : scalar) : scalar_lt a b <-> py_lt a b = Some true.
Proof.
  destruct a as [x|x], b as [y|y]; simpl; split; intro H;
    try contradiction; try discriminate.
  - f_equal. now apply Z.ltb_lt.
  - injection H as H. now apply Z.ltb_lt.
  - now f_equal.
  - now injection H.
Qed.

Lemma meets_satisfies (cols : list string) (dim : string) (k : criterion)
    (r : row) :
  meets cols dim k r = true <-> satisfies cols r dim k.
Proof.
  unfold meets, satisfies.
  destruct (get_cell cols (row_cells r) dim) as [x|]; destruct k as [y|lo hi].
  - rewrite scalar_eqb_eq. split; congruence.
  - split.
    + intro H. exists x. split; [reflexivity|].
      rewrite !scalar_lt_py_lt.
      destruct (py_lt lo x) as [[|]|], (py_lt x hi) as [[|]|];
        simpl in H; try discriminate. auto.
    + intros [x' [Hx [Hlo Hhi]]]. injection Hx as <-.
      apply scalar_lt_py_lt in Hlo, Hhi. now rewrite Hlo, Hhi.
  - split; discriminate.
  - split; [discriminate | intros [x [Hx _]]; discriminate].
Qed.

Lemma mask_filter {A : Type} (f : A -> bool) (l : list A) :
  map fst (filter snd (combine l (map f l))) = filter f l.
Proof.
  induction l as [|x l IH]; simpl; [reflexivity|].
  destruct (f x); simpl; now rewrite IH.
Qed.

Lemma series_and_map {A : Type} (f g : A -> bool) (l : list A) :
  series_and (map f l) (map g l) = map (fun x => f x && g x) l.
Proof.
  unfold series_and. induction l as [|x l IH]; simpl; [reflexivity|].
  now rewrite IH.
Qed.

Lemma df_column_applies (df : DataFrame) (dim : string) (k : criterion) :
  criterion_applies df dim k ->
  df_column df dim = Ok (map (cell_of (columns df) dim) (rows df)).
Proof.
  intros [Hin Hrows]. unfold df_column.
  apply mem_str_In in Hin. rewrite Hin.
  apply mapM_Ok_map. intros r Hr.
  destruct (Hrows r Hr) as [x [Hx _]].
  unfold cell_or_raise, cell_of. now rewrite Hx.
Qed.

Lemma select_step_filter (df : DataFrame) (dim : string) (k : criterion) :
  criterion_applies df dim k ->
  select_step df dim k
  = Ok (mkDF (columns df) (filter (meets (columns df) dim k) (rows df))).
Proof.
  intro H. pose proof (df_column_applies H) as Hcol.
  destruct H as [Hin Hrows]. unfold select_step.
  destruct k as [y|lo hi]; rewrite Hcol; cbn [bind].
  - unfold series_eq, df_mask. rewrite map_map, mask_filter.
    do 2 f_equal. apply filter_ext_in. intros r Hr.
    destruct (Hrows r Hr) as [x [Hx _]].
    unfold meets, cell_of. now rewrite Hx.
  - unfold series_gt, series_lt.
    rewrite (mapM_Ok_map _
               (fun x => match py_lt lo x with Some b => b | None => false end)).
    2:{ intros x Hx. apply in_map_iff in Hx as [r [<- Hr]].
        destruct (Hrows r Hr) as [x [Hx [Hlo _]]].
        unfold cell_of, lt_or_raise. rewrite Hx.
        now destruct (py_lt lo x). }
    cbn [bind].
    rewrite (mapM_Ok_map _
               (fun x => match py_lt x hi with Some b => b | None => false end)).
    2:{ intros x Hx. apply in_map_iff in Hx as [r [<- Hr]].
        destruct (Hrows r Hr) as [x [Hx [_ Hhi]]].
        unfold cell_of, lt_or_raise. rewrite Hx.
        now destruct (py_lt x hi). }
    cbn [bind]. unfold df_mask.
    rewrite series_and_map, map_map, mask_filter.
    do 2 f_equal. apply filter_ext_in. intros r Hr.
    destruct (Hrows r Hr) as [x [Hx [Hlo Hhi]]].
    unfold meets, cell_of. rewrite Hx.
    destruct (py_lt lo x), (py_lt x hi); try reflexivity; congruence.
Qed.

Lemma criterion_applies_filter (cols : list string) (rws : list row)
    (f : row -> bool) (dim : string) (k : criterion) :
  criterion_applies (mkDF cols rws) dim k ->
  criterion_applies (mkDF cols (filter f rws)) dim k.
Proof.
  intros [Hin Hrows]. split; [exact Hin|].
  simpl in *. intros r Hr. apply filter_In in Hr as [Hr _]. now apply Hrows.
Qed.

Lemma filter_filter {A : Type} (f g : A -> bool) (l : list A) :
  filter g (filter f l) = filter (fun x => f x && g x) l.
Proof.
  induction l as [|x l IH]; simpl; [reflexivity|].
  destruct (f x); simpl; [destruct (g x)|]; now rewrite IH.
Qed.

Lemma filter_true {A : Type} (l : list A) : filter (fun _ => true) l = l.
Proof. induction l as [|x l IH]; simpl; congruence. Qed.

Lemma select_loop_filter (cols : list string)
    (criteria : list (string * criterion)) :
  forall rws,
    Forall (fun dk => criterion_applies (mkDF cols rws) (fst dk) (snd dk))
           criteria ->
    select_loop (mkDF cols rws) criteria
    = Ok (mkDF cols
               (filter (fun r => forallb (fun dk => meets cols (fst dk) (snd dk) r)
                                         criteria)
                       rws)).
Proof.
  induction criteria as [|[dim k] criteria IH]; intros rws H; simpl.
  - now rewrite filter_true.
  - inversion H as [|? ? Hk Hrest]; subst. simpl in Hk.
    rewrite (select_step_filter Hk). cbn [bind columns rows].
    rewrite IH.
    + now rewrite filter_filter.
    + eapply Forall_impl; [|exact Hrest].
      intros [d c] Hdc. now apply criterion_applies_filter.
Qed.

(** C7: [select] keeps exactly the rows that satisfy every criterion:
    a row is kept by an equality criterion exactly when its cell equals
    the value, by a slice exactly when its cell lies strictly between
    the two bounds, and several criteria are applied conjunctively.  The
    rows kept stay in table order, each as often as it occurs. *)
Theorem C7_select_filters_rows (v : DataFrameView)
    (criteria : dict string criterion) :
  Forall (fun dk => criterion_applies (data v) (fst dk) (snd dk)) criteria ->
  exists v',
    select v criteria = Ok v' /\
    rows (data v')
    = filter (fun r => forallb (fun dk => meets (columns (data v)) (fst dk) (snd dk) r)
                               criteria)
             (rows (data v)) /\
    forall r, In r (rows (data v')) <->
              In r (rows (data v)) /\
              Forall (fun dk => satisfies (columns (data v)) r (fst dk) (snd dk))
                     criteria.
Proof.
  intro H. destruct v as [[cols rws] dims lbl]. simpl in *.
  eexists. unfold select. cbn [data].
  rewrite (select_loop_filter H). cbn [bind].
  split; [reflexivity|]. rewrite clone_rows. cbn [rows].
  split; [reflexivity|].
  intro r. rewrite filter_In, forallb_forall, Forall_forall.
  split; intros [Hr Hall]; (split; [exact Hr|]); intros dk Hdk.
  - apply meets_satisfies. now apply Hall.
  - apply meets_satisfies. now apply Hall.
Qed.

(** ** The example tables are well formed *)

Ltac solve_NoDup :=
  repeat (constructor; [simpl; intuition discriminate|]); constructor.

Ltac solve_wf_view :=
  apply init_wf; split;
  [ solve_NoDup | repeat (constructor; [reflexivity|]); constructor ].

Ltac solve_applies :=
  split;
  [ simpl; tauto
  | simpl; intros r Hr;
    repeat (destruct Hr as [<-|Hr];
            [ eexists; split;
              [ reflexivity | first [exact I | split; discriminate] ] | ]);
    destruct Hr ].

Lemma cats_wf : wf_view Examples.cats.
Proof. solve_wf_view. Qed.

Lemma sevens_wf : wf_view Examples.sevens.
Proof. solve_wf_view. Qed.

Lemma named_wf : wf_view Examples.named.
Proof. solve_wf_view. Qed.

Lemma seasons_wf : wf_view Examples.seasons.
Proof. solve_wf_view. Qed.

Lemma trials_wf : wf_view Examples.trials.
Proof. solve_wf_view. Qed.

Lemma C9_getitem_arity_witness :
  __getitem__ Examples.seasons [Equals (SStr "s1"); Slice (SInt 0) (SInt 5)]
  = select Examples.seasons
           [("season", Equals (SStr "s1")); ("a", Slice (SInt 0) (SInt 5))] /\
  exists msg,
    __getitem__ Examples.seasons
                [Equals (SStr "s1"); Equals (SInt 1); Equals (SInt 10);
                 Equals (SInt 0)]
    = Err (Exception msg).
Proof.
  split.
  - apply (proj1 (C9_getitem_arity
                    [Equals (SStr "s1"); Slice (SInt 0) (SInt 5)] seasons_wf)).
    vm_compute. lia.
  - apply (proj2 (C9_getitem_arity
                    [Equals (SStr "s1"); Equals (SInt 1); Equals (SInt 10);
                     Equals (SInt 0)] seasons_wf)).
    vm_compute. lia.
Defined.

Lemma C7_select_filters_rows_witness :
  exists v',
    select Examples.cats
           [("cat", Equals (SStr "x")); ("value", Slice (SInt 1) (SInt 10))]
    = Ok v' /\
    rows (data v') = [mkRow (SInt 1) [SStr "x"; SInt 3]].
Proof.
  destruct (@C7_select_filters_rows Examples.cats
              [("cat", Equals (SStr "x")); ("value", Slice (SInt 1) (SInt 10))])
    as [v' [Hsel [Hrows _]]].
  - repeat (apply Forall_cons; [solve_applies|]). apply Forall_nil.
  - exists v'. split; [exact Hsel|]. rewrite Hrows. reflexivity.
Defined.

(** ** Grouping *)

Lemma insert_key_perm (k : list scalar) (l : list (list scalar)) :
  Permutation (insert_key k l) (k :: l).
Proof.
  induction l as [|h l IH]; simpl; [reflexivity|].
  destruct (key_leb k h); [reflexivity|].
  rewrite IH. apply perm_swap.
Qed.

Lemma sort_keys_perm (l : list (list scalar)) : Permutation (sort_keys l) l.
Proof.
  induction l as [|k l IH]; simpl; [reflexivity|].
  rewrite insert_key_perm. now constructor.
Qed.

Lemma distinct_keys_In (l : list (list scalar)) (k : list scalar) :
  In k (distinct_keys l) <-> In k l.
Proof.
  induction l as [|h l IH]; simpl; [reflexivity|].
  rewrite filter_In, IH. split.
  - intros [H|[H _]]; auto.
  - intros [H|H]; [now left|].
    destruct (key_eqb h k) eqn:E.
    + left. now apply key_eqb_eq.
    + right. now split.
Qed.

Lemma distinct_keys_NoDup (l : list (list scalar)) : NoDup (distinct_keys l).
Proof.
  induction l as [|h l IH]; simpl; constructor.
  - rewrite filter_In. intros [_ H]. now rewrite key_eqb_refl in H.
  - now apply NoDup_filter.
Qed.

Lemma sorted_distinct_In (l : list (list scalar)) (k : list scalar) :
  In k (sort_keys (distinct_keys l)) <-> In k l.
Proof.
  split; intro H.
  - apply distinct_keys_In.
    eapply Permutation_in; [apply sort_keys_perm | exact H].
  - eapply Permutation_in; [symmetry; apply sort_keys_perm|].
    now apply distinct_keys_In.
Qed.

Lemma sorted_distinct_NoDup (l : list (list scalar)) :
  NoDup (sort_keys (distinct_keys l)).
Proof.
  eapply Permutation_NoDup; [symmetry; apply sort_keys_perm|].
  apply distinct_keys_NoDup.
Qed.

Lemma group_rows_map (kf : row -> list scalar) (rws : list row)
    (k : list scalar) :
  group_rows k (combine (map kf rws) rws)
  = filter (fun r => key_eqb k (kf r)) rws.
Proof.
  unfold group_rows. induction rws as [|r rws IH]; simpl; [reflexivity|].
  destruct (key_eqb k (kf r)); simpl; now rewrite IH.
Qed.

Lemma concat_map_nil {A B : Type} (l : list A) :
  concat (map (fun _ => @nil B) l) = [].
Proof. induction l; simpl; auto. Qed.

(** Grouping by a key splits a list: the groups of the distinct keys,
    put together, are the list up to order. *)
Lemma groups_partition {A : Type} (kf : A -> list scalar)
    (ks : list (list scalar)) (l : list A) :
  NoDup ks -> (forall x, In x l -> In (kf x) ks) ->
  Permutation (concat (map (fun k => filter (fun x => key_eqb k (kf x)) l) ks)) l.
Proof.
  intros Hnd. induction l as [|x l IH]; intro Hin.
  - simpl. now rewrite concat_map_nil.
  - assert (Hx : In (kf x) ks) by (apply Hin; now left).
    apply in_split in Hx as [ks1 [ks2 ->]].
    pose proof (NoDup_remove_2 _ _ _ Hnd) as Hfresh.
    assert (Hskip : forall ks',
               (forall k, In k ks' -> In k (ks1 ++ ks2)) ->
               map (fun k => filter (fun y => key_eqb k (kf y)) (x :: l)) ks'
               = map (fun k => filter (fun y => key_eqb k (kf y)) l) ks').
    { intros ks' Hsub. apply map_ext_in. intros k Hk. simpl.
      destruct (key_eqb k (kf x)) eqn:E; [|reflexivity].
      apply key_eqb_eq in E. subst. exfalso. apply Hfresh. now apply Hsub. }
    rewrite map_app, concat_app. cbn [map concat].
    rewrite !Hskip
      by (intros k Hk; apply in_or_app; auto).
    cbn [filter]. rewrite key_eqb_refl.
    rewrite <- app_comm_cons. rewrite <- Permutation_middle.
    constructor.
    specialize (IH (fun y Hy => Hin y (or_intror Hy))).
    rewrite map_app, concat_app in IH. exact IH.
Qed.

Lemma get_cell_wf (df : DataFrame) (d : string) (r : row) :
  wf_frame df -> In d (columns df) -> In r (rows df) ->
  exists x, get_cell (columns df) (row_cells r) d = Some x.
Proof.
  intros [_ Hrect] Hd Hr. unfold get_cell.
  destruct (index_of_In _ _ Hd) as [i Hi]. rewrite Hi.
  rewrite Forall_forall in Hrect. specialize (Hrect r Hr).
  destruct (nth_error (row_cells r) i) as [x|] eqn:E; [eauto|].
  apply nth_error_None in E. apply index_of_lt in Hi. lia.
Qed.

Lemma row_key_defined (cols dims : list string) (r : row) :
  (forall d, In d dims -> get_cell cols (row_cells r) d <> None) ->
  row_key cols dims r = Ok (key_of cols dims r).
Proof.
  unfold row_key, key_of.
  induction dims as [|d dims IH]; simpl; intro H; [reflexivity|].
  unfold cell_or_raise at 1.
  destruct (get_cell cols (row_cells r) d) as [x|] eqn:E.
  - cbn [bind]. rewrite IH by (intros; apply H; now right). reflexivity.
  - exfalso. now apply (H d (or_introl eq_refl)).
Qed.

Lemma row_key_Ok (cols dims : list string) (r : row) (k : list scalar) :
  row_key cols dims r = Ok k ->
  k = key_of cols dims r /\ length k = length dims /\
  Forall2 (fun d x => get_cell cols (row_cells r) d = Some x) dims k.
Proof.
  unfold row_key, key_of. revert k.
  induction dims as [|d dims IH]; simpl; intros k H.
  - injection H as <-. repeat split. constructor.
  - apply bind_Ok in H as [x [Hx H]]. apply bind_Ok in H as [ks [Hks H]].
    injection H as <-. unfold cell_or_raise in Hx.
    destruct (get_cell cols (row_cells r) d) as [y|] eqn:E; [|discriminate].
    injection Hx as ->. destruct (IH ks Hks) as [-> [Hlen Hall]].
    repeat split; simpl; [now f_equal | now constructor].
Qed.

Lemma filter_invalid_nil (cols dims : list string) :
  (forall d, In d dims -> In d cols) ->
  filter (fun d => negb (mem_str d cols)) dims = [].
Proof.
  induction dims as [|d dims IH]; simpl; intro H; [reflexivity|].
  assert (Hd : mem_str d cols = true) by (apply mem_str_In, H; now left).
  rewrite Hd. simpl. apply IH. intros; apply H; now right.
Qed.

Lemma filter_invalid_nil_inv (cols dims : list string) :
  filter (fun d => negb (mem_str d cols)) dims = [] ->
  forall d, In d dims -> In d cols.
Proof.
  induction dims as [|x dims IH]; simpl; intros H d Hd; [contradiction|].
  destruct (mem_str x cols) eqn:E; simpl in H; [|discriminate].
  destruct Hd as [<-|Hd]; [now apply mem_str_In | now apply IH].
Qed.

(** What [groupby] returns on a table that has the cells it groups by. *)
Lemma groupby_defined (dims : list string) (df : DataFrame) :
  dims <> [] ->
  (forall d, In d dims -> In d (columns df)) ->
  (forall r d, In r (rows df) -> In d dims ->
               get_cell (columns df) (row_cells r) d <> None) ->
  groupby dims df
  = Ok (map (fun k => (k, mkDF (columns df)
                               (filter (fun r => key_eqb k (key_of (columns df) dims r))
                                       (rows df))))
            (sort_keys (distinct_keys (map (key_of (columns df) dims) (rows df))))).
Proof.
  intros Hne Hcols Hcells. unfold groupby.
  destruct dims as [|d0 dims0] eqn:Hd; [contradiction|]. rewrite <- Hd in *.
  rewrite (filter_invalid_nil _ _ Hcols).
  rewrite (mapM_Ok_map _ (key_of (columns df) dims)).
  - cbn [bind]. f_equal. apply map_ext. intro k.
    now rewrite group_rows_map.
  - intros r Hr. apply row_key_defined. intros d Hdin. now apply Hcells.
Qed.

Lemma Forall2_combine_In {A B : Type} (P : A -> B -> Prop)
    (l1 : list A) (l2 : list B) (a : A) (b : B) :
  Forall2 P l1 l2 -> In (b, a) (combine l2 l1) -> P a b.
Proof.
  induction 1 as [|x y l1 l2 Hxy _ IH]; simpl; [contradiction|].
  intros [H|H]; [injection H as <- <-; exact Hxy | now apply IH].
Qed.

(** What a successful [groupby] returned. *)
Lemma groupby_Ok (dims : list string) (df : DataFrame)
    (gs : list (list scalar * DataFrame)) :
  groupby dims df = Ok gs ->
  NoDup (map fst gs) /\
  forall k g, In (k, g) gs ->
    length k = length dims /\
    columns g = columns df /\
    (exists r, In r (rows g)) /\
    forall r, In r (rows g) ->
      In r (rows df) /\ row_key (columns df) dims r = Ok k.
Proof.
  unfold groupby. destruct dims as [|d0 dims0] eqn:Hd.
  { destruct (is_empty (rows df)); [|discriminate].
    intro H. injection H as <-. split; [constructor | contradiction]. }
  rewrite <- Hd.
  destruct (filter _ dims) eqn:Hf; [|discriminate].
  intro H. apply bind_Ok in H as [keys [Hkeys H]]. injection H as <-.
  pose proof (mapM_Ok_Forall2 _ _ Hkeys) as HF.
  split.
  - rewrite map_map. cbn [fst]. rewrite map_id. apply sorted_distinct_NoDup.
  - intros k g Hin. apply in_map_iff in Hin as [k' [Heq Hk]].
    injection Heq as -> <-. apply (proj1 (sorted_distinct_In _ _)) in Hk.
    assert (Hrows : forall r, In r (group_rows k (combine keys (rows df))) ->
                              In r (rows df) /\ row_key (columns df) dims r = Ok k).
    { intros r Hr. unfold group_rows in Hr.
      apply in_map_iff in Hr as [[k' r'] [Heq Hr]]. simpl in Heq. subst r'.
      apply filter_In in Hr as [Hr Hk']. simpl in Hk'.
      apply key_eqb_eq in Hk'. subst k'.
      split; [eapply in_combine_r, Hr|].
      exact (@Forall2_combine_In _ _
               (fun x y => row_key (columns df) dims x = Ok y) _ _ r k HF Hr). }
    assert (Hex : exists r, In (k, r) (combine keys (rows df))).
    { clear -HF Hk. induction HF as [|r k0 rws ks _ _ IH]; simpl in *;
        [contradiction|].
      destruct Hk as [->|Hk]; [eauto|]. destruct (IH Hk) as [r' Hr']. eauto. }
    destruct Hex as [r Hr].
    assert (Hrin : In r (group_rows k (combine keys (rows df)))).
    { unfold group_rows. apply in_map_iff. exists (k, r). split; [reflexivity|].
      apply filter_In. split; [exact Hr | apply key_eqb_refl]. }
    cbn [columns rows]. split; [|split; [reflexivity|split; [eauto|exact Hrows]]].
    destruct (Hrows r Hrin) as [_ Hkey]. apply row_key_Ok in Hkey. tauto.
Qed.

(** ** Splitting a view on dimensions *)

Lemma filter_all {A : Type} (f : A -> bool) (l : list A) :
  (forall x, In x l -> f x = true) -> filter f l = l.
Proof.
  induction l as [|x l IH]; simpl; intro H; [reflexivity|].
  rewrite (H x (or_introl eq_refl)). f_equal. apply IH.
  intros; apply H; now right.
Qed.

Lemma set_of_In (l : list string) (x : string) : In x (set_of l) <-> In x l.
Proof.
  induction l as [|y l IH]; simpl; [reflexivity|].
  rewrite filter_In, IH. split.
  - intros [H|[H _]]; auto.
  - intros [H|H]; [now left|].
    destruct (String.eqb y x) eqn:E.
    + left. now apply String.eqb_eq.
    + right. now split.
Qed.

Lemma set_of_NoDup (l : list string) : NoDup l -> set_of l = l.
Proof.
  induction 1 as [|x l Hx Hl IH]; simpl; [reflexivity|].
  rewrite IH. f_equal. apply filter_all. intros y Hy.
  destruct (String.eqb x y) eqn:E; [|reflexivity].
  apply String.eqb_eq in E. now subst.
Qed.

Lemma set_diff_nil (a b : list string) :
  (forall d, In d a -> In d b) -> set_diff a b = [].
Proof.
  intro H. unfold set_diff. apply filter_invalid_nil.
  intros d Hd. apply H. now apply set_of_In.
Qed.

Lemma df_drop_defined (labels : list string) (df : DataFrame) :
  (forall d, In d labels -> In d (columns df)) ->
  df_drop labels df
  = Ok (mkDF (filter (fun c => negb (mem_str c labels)) (columns df))
             (map (drop_row (columns df) labels) (rows df))).
Proof.
  intro H. unfold df_drop. now rewrite (filter_invalid_nil _ _ H).
Qed.

(** The loop of [_split_dimensions] over groups under distinct keys. *)
Lemma split_loop_defined (v : DataFrameView) (dims view_dims : list string)
    (cols : list string) (gs : list (list scalar * list row)) :
  (forall d, In d dims -> In d cols) ->
  forall acc,
    NoDup (map fst acc ++ map fst gs) ->
    split_loop v dims view_dims
               (map (fun kg => (fst kg, mkDF cols (snd kg))) gs) acc
    = Ok (acc ++
          map (fun kg =>
                 (fst kg,
                  clone v (mkDF (filter (fun c => negb (mem_str c dims)) cols)
                                (map (drop_row cols dims) (snd kg)))
                        (Some view_dims)))
              gs).
Proof.
  intro Hcols. induction gs as [|[k rws] gs IH]; intros acc Hnd; simpl.
  - now rewrite app_nil_r.
  - rewrite df_drop_defined by exact Hcols. cbn [bind columns rows].
    unfold ndmapping_set. rewrite (dict_set_fresh key_eqb key_eqb_eq).
    + rewrite IH.
      * now rewrite <- app_assoc.
      * rewrite map_app. simpl. rewrite <- app_assoc. exact Hnd.
    + simpl in Hnd. apply NoDup_remove_2 in Hnd.
      intro Hin. apply Hnd. apply in_or_app. now left.
Qed.

Lemma clone_dimensions_dropped (v : DataFrameView) (dims : list string)
    (rws : list row) :
  wf_view v ->
  dimensions
    (clone v (mkDF (filter (fun c => negb (mem_str c dims)) (columns (data v))) rws)
           (Some (set_diff (dimension_labels v) dims)))
  = filter (fun d => negb (mem_str d dims)) (dimensions v).
Proof.
  intros [[Hnd _] Hdims]. unfold clone, __init__, dimension_labels, set_diff.
  cbn [dimensions columns]. rewrite Hdims, set_of_NoDup by exact Hnd.
  apply fold_place_all. now apply NoDup_filter.
Qed.

(** Splitting a view with rows on no dimension, which is what
    [viewmap()] does by default, raises (from [groupby]) and produces
    no groups. *)
Lemma split_on_no_dimension_raises_example :
  viewmap Examples.seasons [] = Err (ValueError "No group keys passed!") /\
  ~ partitions_rows viewmap Examples.seasons [].
Proof.
  split; [reflexivity|].
  intros [m [H _]]. vm_compute in H. discriminate.
Qed.

Lemma split_dimensions_partitions (v : DataFrameView) (dims : list string) :
  wf_view v ->
  dims <> [] ->
  (forall d, In d dims -> In d (dimension_labels v)) ->
  partitions_rows _split_dimensions v dims.
Proof.
  intros Hwf Hne Hdims.
  pose proof Hwf as [Hframe Hlabels]. unfold dimension_labels in Hdims.
  rewrite Hlabels in Hdims.
  set (cols := columns (data v)) in *.
  set (kf := key_of cols dims).
  set (ks := sort_keys (distinct_keys (map kf (rows (data v))))).
  set (grp := fun k => filter (fun r => key_eqb k (kf r)) (rows (data v))).
  assert (Hgroup : groupby dims (data v)
                   = Ok (map (fun kg => (fst kg, mkDF cols (snd kg)))
                             (map (fun k => (k, grp k)) ks))).
  { rewrite map_map. cbn [fst snd]. apply groupby_defined; try assumption.
    intros r d Hr Hd. destruct (@get_cell_wf (data v) d r) as [x Hx]; auto.
    unfold cols. rewrite Hx. discriminate. }
  assert (Hks : NoDup ks) by apply sorted_distinct_NoDup.
  unfold partitions_rows, _split_dimensions.
  rewrite set_diff_nil
    by (unfold dimension_labels; rewrite Hlabels; exact Hdims).
  rewrite Hgroup. cbn [bind].
  rewrite (@split_loop_defined v dims _ cols _ Hdims []).
  2:{ simpl. rewrite !map_map. cbn [fst]. now rewrite map_id. }
  eexists. split; [reflexivity|]. cbn [app].
  rewrite !map_map. cbn [fst snd]. split; [|split].
  - now rewrite map_id.
  - intros k g Hin. apply in_map_iff in Hin as [k' [Heq _]].
    injection Heq as -> <-. split.
    + now apply clone_dimensions_dropped.
    + reflexivity.
  - erewrite map_ext by (intro k; rewrite clone_rows; reflexivity).
    cbn [rows]. rewrite <- map_map with (g := map (drop_row cols dims)).
    rewrite <- concat_map. apply Permutation_map.
    apply groups_partition; [exact Hks|].
    intros r Hr. apply sorted_distinct_In. now apply in_map.
Qed.

(** On a table without missing values: for every well-formed view
    and every non-empty list [dims] of its dimensions, splitting on
    [dims] with [viewmap] or [overlay_dimensions], or with [grid] when
    [dims] has at most two names, partitions the rows: every row, with
    the columns [dims] removed, is in exactly one group, the rows of a
    group are those whose values under [dims] are the key of the group,
    and the group has the dimensions of the view other than [dims]. *)
Theorem split_partitions_rows (v : DataFrameView) (dims : list string) :
  wf_view v ->
  dims <> [] ->
  (forall d, In d dims -> In d (dimension_labels v)) ->
  partitions_rows viewmap v dims /\
  partitions_rows overlay_dimensions v dims /\
  ((length dims <= 2)%nat -> partitions_rows grid v dims).
Proof.
  intros Hwf Hne Hdims.
  pose proof (split_dimensions_partitions Hwf Hne Hdims) as H.
  split; [exact H|]. split; [exact H|].
  intro Hlen. unfold partitions_rows, grid.
  apply Nat.ltb_ge in Hlen. rewrite Hlen. exact H.
Qed.

Lemma split_partitions_rows_witness :
  partitions_rows viewmap Examples.seasons ["season"] /\
  partitions_rows overlay_dimensions Examples.seasons ["season"] /\
  ((length ["season"] <= 2)%nat ->
   partitions_rows grid Examples.seasons ["season"]).
Proof.
  apply (@split_partitions_rows Examples.seasons ["season"] seasons_wf).
  - discriminate.
  - simpl. intros d [<-|[]]. tauto.
Defined.

(** ** Selection by indices *)

Lemma select_indices_In (value_dim : string) (view_dims : list string)
    (indices k : list scalar) (g : DataFrame) (inds : list scalar) :
  forall temp temp',
    select_indices value_dim view_dims indices k g inds temp = Ok temp' ->
    forall key x, In (key, x) temp' ->
      In (key, x) temp \/
      exists ind, In ind inds /\
                  select_key value_dim view_dims indices k ind = Ok key /\
                  loc g ind value_dim = Ok x.
Proof.
  induction inds as [|ind inds IH]; intros temp temp' H key x Hin; simpl in H.
  - injection H as <-. now left.
  - apply bind_Ok in H as [key0 [Hkey H]]. apply bind_Ok in H as [x0 [Hloc H]].
    destruct (IH _ _ H key x Hin) as [Hold|[ind' [Hi [Hk Hl]]]].
    + apply (dict_set_In pyval_eqb pyval_eqb_eq) in Hold
        as [[-> ->]|Hold]; [|now left].
      right. exists ind. repeat split; auto. now left.
    + right. exists ind'. repeat split; auto. now right.
Qed.

Lemma select_groups_In (value_dim : string) (view_dims : list string)
    (indices : list scalar) (view_groups : list (list scalar * DataFrame)) :
  forall temp temp',
    select_groups value_dim view_dims indices view_groups temp = Ok temp' ->
    forall key x, In (key, x) temp' ->
      In (key, x) temp \/
      exists k g ind, In (k, g) view_groups /\ In ind indices /\
                      select_key value_dim view_dims indices k ind = Ok key /\
                      loc g ind value_dim = Ok x.
Proof.
  induction view_groups as [|[k g] rest IH]; intros temp temp' H key x Hin;
    simpl in H.
  - injection H as <-. now left.
  - apply bind_Ok in H as [temp1 [H1 H]].
    destruct (IH _ _ H key x Hin) as [Hold|[k' [g' [ind [Hg Hrest]]]]].
    + destruct (select_indices_In _ _ _ _ _ _ _ H1 _ _ Hold)
        as [Hold'|[ind Hind]]; [now left|].
      right. exists k, g, ind. split; [now left | exact Hind].
    + right. exists k', g', ind. split; [now right | exact Hrest].
Qed.

Lemma group_body_select_one (value_dim : string) (view_dims : list string)
    (i : scalar) (view_dimensions : list string) (g : DataFrame) :
  group_body value_dim None view_dims [i] view_dimensions g
  = view_groups <- view_groups_of view_dims g ;;
    temp_dict <- select_groups value_dim view_dims [i] view_groups [] ;;
    Ok (temp_dict, [i], view_dimensions).
Proof. reflexivity. Qed.

Lemma group_body_select_many (value_dim : string) (view_dims : list string)
    (indices : list scalar) (view_dimensions : list string) (g : DataFrame) :
  length indices <> 1%nat ->
  group_body value_dim None view_dims indices view_dimensions g
  = view_groups <- view_groups_of view_dims g ;;
    temp_dict <- select_groups value_dim view_dims (effective_indices indices g)
                               view_groups [] ;;
    Ok (temp_dict, effective_indices indices g, "Index" :: view_dims).
Proof.
  intro H. unfold group_body.
  apply Nat.eqb_neq in H. rewrite H. reflexivity.
Qed.

Lemma view_groups_of_length (view_dims : list string) (g : DataFrame)
    (gs : list (list scalar * DataFrame)) (k : list scalar) (vg : DataFrame) :
  view_groups_of view_dims g = Ok gs -> In (k, vg) gs ->
  length k = length view_dims.
Proof.
  unfold view_groups_of. destruct view_dims as [|d ds]; cbn [is_empty];
    intros H Hin.
  - injection H as <-. destruct Hin as [Heq|[]]. now injection Heq as <- _.
  - apply groupby_Ok in H as [_ H]. now destruct (H k vg Hin).
Qed.

Lemma select_key_indexed (value_dim : string) (view_dims : list string)
    (indices k : list scalar) (ind : scalar) (key : pyval) :
  length indices <> 1%nat ->
  length k = length view_dims ->
  In ind indices ->
  select_key value_dim view_dims indices k ind = Ok key ->
  indexed_key value_dim view_dims indices key.
Proof.
  intros Hn Hk Hin H. exists ind. split; [exact Hin|].
  unfold select_key in H. destruct view_dims as [|d ds]; cbn [is_empty] in *.
  - destruct ind as [z|s]; simpl in H; [discriminate|].
    injection H as <-. eauto.
  - apply Nat.eqb_neq in Hn. rewrite Hn in H.
    destruct k as [|c k]; [discriminate|]. simpl in H.
    injection H as <-. eauto.
Qed.

(** With indices that are not exactly one, every key of a map group
    carries one of the indices in effect. *)
Lemma group_body_indexed (value_dim : string) (view_dims : list string)
    (indices : list scalar) (view_dimensions : list string) (g : DataFrame)
    (temp : dict pyval pyval) (indices' : list scalar)
    (view_dimensions' : list string) :
  length indices <> 1%nat ->
  length (effective_indices indices g) <> 1%nat ->
  group_body value_dim None view_dims indices view_dimensions g
  = Ok (temp, indices', view_dimensions') ->
  indices' = effective_indices indices g /\
  view_dimensions' = "Index" :: view_dims /\
  forall key x, In (key, x) temp ->
    indexed_key value_dim view_dims (effective_indices indices g) key.
Proof.
  intros Hn Heff H. rewrite group_body_select_many in H by exact Hn.
  apply bind_Ok in H as [gs [Hgs H]]. apply bind_Ok in H as [temp0 [Htemp H]].
  injection H as <- <- <-. repeat split.
  intros key x Hin.
  destruct (select_groups_In _ _ _ _ _ Htemp _ _ Hin)
    as [[]|[k [vg [ind [Hg [Hind [Hkey _]]]]]]].
  eapply select_key_indexed; eauto.
  eapply view_groups_of_length; eauto.
Qed.

(** ** The result of a projection *)

Lemma create_table_Ok (v : DataFrameView) (temp : dict pyval pyval)
    (value_dim : string) (dims : list string) :
  _create_table v temp value_dim dims
  = Ok (mkItemTable temp value_dim dims (view_label v value_dim)).
Proof. unfold _create_table. now destruct dims. Qed.

Lemma dict_get_In {K V : Type} (eqb : K -> K -> bool)
    (eqb_eq : forall a b, eqb a b = true <-> a = b)
    (k : K) (d : dict K V) (x : V) :
  dict_get eqb k d = Some x -> In (k, x) d.
Proof.
  induction d as [|[k' x'] d IH]; simpl; [discriminate|].
  destruct (eqb k k') eqn:E.
  - intro H. injection H as ->. apply eqb_eq in E. subst. now left.
  - intro H. right. now apply IH.
Qed.

(** A projection without map dimensions runs the loop body once, on
    the filtered table, and returns the view built from it. *)
Lemma export_dataview_single (V : Type) (v : DataFrameView)
    (value_dim : string) (reduce_fn : option (list scalar -> res pyval))
    (view_dims : list string)
    (view_method : dict pyval pyval -> string -> list string -> res V)
    (indices : list scalar) (e : export V) :
  _export_dataview v value_dim reduce_fn view_dims [] view_method indices = Ok e ->
  exists temp indices' view_dimensions' view,
    (forall d, In d (value_dim :: view_dims) -> In d (dimension_labels v)) /\
    group_body value_dim reduce_fn view_dims indices view_dims
               (filter_unselected v (value_dim :: view_dims))
    = Ok (temp, indices', view_dimensions') /\
    view_method temp value_dim view_dimensions' = Ok view /\
    e = Single view.
Proof.
  unfold _export_dataview. rewrite app_nil_r. intro H.
  apply bind_Ok in H as [[] [Hcheck H]].
  unfold map_groups in H. cbn [is_empty bind export_loop] in H.
  apply bind_Ok in H as [vmap [H He]].
  apply bind_Ok in H as [[[temp indices'] vds'] [Hbody H]].
  apply bind_Ok in H as [view [Hview H]].
  injection H as <-. simpl in He. injection He as <-.
  exists temp, indices', vds', view. repeat split; auto.
  eapply check_dimensions_Ok, Hcheck.
Qed.

(** With two or more indices, every view the loop adds is built from
    keys that carry one of the indices, under the dimensions
    ['Index'] + view_dims. *)
Lemma export_loop_indexed (V : Type) (value_dim : string)
    (view_dims : list string)
    (view_method : dict pyval pyval -> string -> list string -> res V)
    (indices : list scalar) :
  (2 <= length indices)%nat ->
  forall map_dfs view_dimensions vmap vmap',
    export_loop value_dim None view_dims view_method map_dfs indices
                view_dimensions vmap = Ok vmap' ->
    forall k view, In (k, view) vmap' ->
      In (k, view) vmap \/
      exists temp,
        view_method temp value_dim ("Index" :: view_dims) = Ok view /\
        forall key x, In (key, x) temp ->
          indexed_key value_dim view_dims indices key.
Proof.
  intro Hlen.
  assert (Heff : forall g, effective_indices indices g = indices).
  { intro g. unfold effective_indices. destruct indices; [simpl in Hlen; lia|].
    reflexivity. }
  induction map_dfs as [|[map_key g] rest IH];
    intros vds vmap vmap' H k view Hin; cbn [export_loop] in H.
  - injection H as <-. now left.
  - apply bind_Ok in H as [[[temp indices'] vds'] [Hbody H]].
    apply bind_Ok in H as [view0 [Hview H]].
    apply group_body_indexed in Hbody as [-> [-> Hkeys]];
      try (rewrite ?Heff; lia).
    rewrite Heff in *.
    destruct (IH _ _ _ H k view Hin) as [Hold|Hnew]; [|now right].
    apply (dict_set_In pyval_eqb pyval_eqb_eq) in Hold as [[-> ->]|Hold];
      [|now left].
    right. exists temp. split; assumption.
Qed.

Lemma filter_unselected_length (v : DataFrameView) (sel : list string) :
  length (rows (filter_unselected v sel)) = length (rows (data v)).
Proof.
  unfold filter_unselected, dframe, df_filter.
  destruct (is_empty _); cbn [rows]; [reflexivity | apply length_map].
Qed.

Lemma filter_unselected_index (v : DataFrameView) (sel : list string) :
  index (filter_unselected v sel) = index (data v).
Proof.
  unfold filter_unselected, dframe, df_filter, index.
  destruct (is_empty _); cbn [rows]; [reflexivity|].
  rewrite map_map. reflexivity.
Qed.

(** Without view dimensions the index is joined to the name of the
    value dimension: with the two indices ['r5', 'r6'] and
    [view_dims=[]] the keys are the strings ['r5_value'] and
    ['r6_value'], not tuples. *)
Lemma no_view_dimensions_joined_keys :
  table Examples.named "value" [SStr "r5"; SStr "r6"] None [] []
  = Ok (Single (mkItemTable
                  [(PAtom (SStr "r5_value"), PAtom (SInt 42));
                   (PAtom (SStr "r6_value"), PAtom (SInt 43))]
                  "value" ["Index"] "value")) /\
  ~ (forall t key x,
       table Examples.named "value" [SStr "r5"; SStr "r6"] None [] []
       = Ok (Single t) ->
       In (key, x) (it_data t) ->
       exists ind k, key = PTuple (ind :: k)).
Proof.
  split; [reflexivity|].
  intro H.
  destruct (H _ (PAtom (SStr "r5_value")) (PAtom (SInt 42)) eq_refl)
    as [ind [k Hk]]; [now left | discriminate].
Qed.

(** Where the rule of the index holds: in select mode, when two or
    more indices are supplied, or none is supplied, there are no map
    dimensions and the table does not have exactly one row, every view
    of the result has
    the dimension ['Index'] prepended to the view dimensions, and every
    key of its mapping carries one of the indices in effect (the
    supplied ones, or every row label when none is supplied): with view
    dimensions the key is the tuple of the index followed by one value
    per view dimension; without view dimensions it is the string
    [index_valuedim]. *)
Theorem index_prepended_to_keys (v : DataFrameView) (value_dim : string)
    (indices : list scalar) (view_dims map_dims : list string)
    (e : export ItemTable) :
  table v value_dim indices None view_dims map_dims = Ok e ->
  ((2 <= length indices)%nat \/
   (indices = [] /\ map_dims = [] /\ length (rows (data v)) <> 1%nat)) ->
  Forall (fun t =>
            it_dimensions t = "Index" :: view_dims /\
            forall key x, In (key, x) (it_data t) ->
              indexed_key value_dim view_dims
                          (effective_indices indices (data v)) key)
         (views_of e).
Proof.
  unfold table. intros H [Hlen|[-> [-> Hrows]]].
  - assert (Heff : effective_indices indices (data v) = indices).
    { unfold effective_indices. destruct indices; [simpl in Hlen; lia|].
      reflexivity. }
    rewrite Heff. unfold _export_dataview in H.
    apply bind_Ok in H as [[] [_ H]]. apply bind_Ok in H as [map_dfs [_ H]].
    apply bind_Ok in H as [vmap [Hloop H]].
    assert (Hall : forall k t, In (k, t) vmap ->
              it_dimensions t = "Index" :: view_dims /\
              forall key x, In (key, x) (it_data t) ->
                indexed_key value_dim view_dims indices key).
    { intros k t Hin.
      destruct (@export_loop_indexed _ value_dim view_dims (_create_table v)
                  indices Hlen _ _ _ _ Hloop _ _ Hin)
        as [[]|[temp [Hview Hkeys]]].
      rewrite create_table_Ok in Hview. injection Hview as <-.
      split; [reflexivity | exact Hkeys]. }
    destruct (is_empty map_dims).
    + destruct (dict_get pyval_eqb PNone vmap) as [t|] eqn:Hget;
        [|discriminate].
      injection H as <-. constructor; [|constructor].
      eapply Hall, (dict_get_In pyval_eqb pyval_eqb_eq), Hget.
    + injection H as <-. simpl. apply Forall_forall. intros t Ht.
      apply in_map_iff in Ht as [[k t'] [<- Hin]]. eapply Hall, Hin.
  - apply export_dataview_single in H
      as [temp [indices' [vds' [t [_ [Hbody [Hview ->]]]]]]].
    assert (Heff : effective_indices []
                     (filter_unselected v (value_dim :: view_dims))
                   = effective_indices [] (data v)).
    { unfold effective_indices. cbn [is_empty].
      apply filter_unselected_index. }
    apply group_body_indexed in Hbody as [-> [-> Hkeys]].
    + rewrite create_table_Ok in Hview. injection Hview as <-.
      constructor; [|constructor]. split; [reflexivity|].
      rewrite <- Heff. exact Hkeys.
    + simpl. lia.
    + unfold effective_indices, index. cbn [is_empty].
      now rewrite length_map, filter_unselected_length.
Qed.

Lemma index_prepended_to_keys_witness :
  table Examples.sevens "value" [SInt 5; SInt 6] None ["a"] []
  = Ok (Single (mkItemTable
                  [(PTuple [SInt 5; SInt 7], PAtom (SInt 42));
                   (PTuple [SInt 6; SInt 7], PAtom (SInt 43))]
                  "value" ["Index"; "a"] "value")) /\
  Forall (fun t =>
            it_dimensions t = ["Index"; "a"] /\
            forall key x, In (key, x) (it_data t) ->
              indexed_key "value" ["a"]
                          (effective_indices [SInt 5; SInt 6]
                                             (data Examples.sevens)) key)
         [mkItemTable
            [(PTuple [SInt 5; SInt 7], PAtom (SInt 42));
             (PTuple [SInt 6; SInt 7], PAtom (SInt 43))]
            "value" ["Index"; "a"] "value"].
Proof.
  split; [reflexivity|].
  apply (@index_prepended_to_keys Examples.sevens "value" [SInt 5; SInt 6]
           ["a"] [] _ eq_refl).
  left. simpl. lia.
Defined.

(** ** The filtered table *)

Lemma filter_cells_get_cell (cols names : list string) (cells : list scalar)
    (d : string) :
  (forall n, In n names -> get_cell cols cells n <> None) ->
  In d names ->
  get_cell names (filter_cells cols names cells) d = get_cell cols cells d.
Proof.
  unfold filter_cells.
  induction names as [|n names IH]; intros Hdef Hd; [contradiction|].
  cbn [flat_map]. unfold get_cell at 1. cbn [index_of].
  destruct (get_cell cols cells n) as [c|] eqn:Hn;
    [|exfalso; now apply (Hdef n (or_introl eq_refl))].
  destruct (String.eqb d n) eqn:E.
  - apply String.eqb_eq in E. subst. now rewrite Hn.
  - destruct Hd as [->|Hd]; [rewrite String.eqb_refl in E; discriminate|].
    specialize (IH (fun m Hm => Hdef m (or_intror Hm)) Hd).
    unfold get_cell at 1 in IH.
    destruct (index_of d names) as [i|]; simpl; exact IH.
Qed.

(** The filtered table has the rows of the table of the view, in
    order, with their labels and with their cells under the selected
    dimensions. *)
Lemma filter_unselected_spec (v : DataFrameView) (sel : list string) :
  wf_view v ->
  (forall d, In d sel -> In d (dimension_labels v)) ->
  exists f,
    rows (filter_unselected v sel) = map f (rows (data v)) /\
    forall r, In r (rows (data v)) ->
      row_label (f r) = row_label r /\
      forall d, In d sel ->
        get_cell (columns (filter_unselected v sel)) (row_cells (f r)) d
        = get_cell (columns (data v)) (row_cells r) d.
Proof.
  intros [Hframe Hlabels] Hsel. unfold dimension_labels in Hsel.
  rewrite Hlabels in Hsel. unfold filter_unselected.
  destruct (is_empty _).
  - exists (fun r => r). unfold dframe. rewrite map_id. auto.
  - exists (filter_row (columns (data v))
                       (filter (fun n => mem_str n (columns (data v))) sel)).
    unfold df_filter. cbn [rows columns]. split; [reflexivity|].
    intros r Hr. split; [reflexivity|]. intros d Hd.
    rewrite (filter_all _ sel)
      by (intros n Hn; now apply mem_str_In, Hsel).
    cbn [filter_row row_cells].
    apply filter_cells_get_cell; [|exact Hd].
    intros n Hn. destruct (@get_cell_wf (data v) n r) as [x Hx]; auto.
    congruence.
Qed.

Lemma filter_unselected_columns (v : DataFrameView) (sel : list string)
    (d : string) :
  wf_view v ->
  (forall d, In d sel -> In d (dimension_labels v)) ->
  In d sel -> In d (columns (filter_unselected v sel)).
Proof.
  intros [_ Hlabels] Hsel Hd. unfold dimension_labels in Hsel.
  rewrite Hlabels in Hsel. unfold filter_unselected.
  destruct (is_empty _); [now apply Hsel|].
  unfold df_filter. cbn [columns]. apply filter_In. split; [exact Hd|].
  now apply mem_str_In, Hsel.
Qed.

Lemma loc_Ok (g : DataFrame) (ind : scalar) (col : string) (x : pyval) :
  loc g ind col = Ok x ->
  exists r, In r (rows g) /\ row_label r = ind.
Proof.
  unfold loc. destruct (mem_str col (columns g)); [|discriminate].
  intro H. apply bind_Ok in H as [cs [Hcs H]].
  destruct (filter (fun r => scalar_eqb (row_label r) ind) (rows g))
    as [|r rs] eqn:Hf.
  - simpl in Hcs. injection Hcs as <-. discriminate.
  - assert (Hr : In r (filter (fun r => scalar_eqb (row_label r) ind) (rows g)))
      by (rewrite Hf; now left).
    apply filter_In in Hr as [Hr Hl]. apply scalar_eqb_eq in Hl. eauto.
Qed.

(** ** One view dimension and one index *)

(** C3: in select mode with exactly one view dimension, exactly one
    supplied index and no map dimensions, the result is a single view
    over that view dimension alone, and every key of its mapping is the
    bare value the view dimension takes in a row labelled by the index,
    not a 1-tuple. *)
Theorem C3_single_view_dimension_bare_key (v : DataFrameView)
    (value_dim a : string) (i : scalar) (e : export ItemTable) :
  wf_view v ->
  table v value_dim [i] None [a] [] = Ok e ->
  exists t,
    e = Single t /\
    it_dimensions t = [a] /\
    forall key x, In (key, x) (it_data t) ->
      exists c r,
        key = PAtom c /\
        In r (rows (data v)) /\ row_label r = i /\
        get_cell (columns (data v)) (row_cells r) a = Some c.
Proof.
  intros Hwf H. unfold table in H.
  apply export_dataview_single in H
    as [temp [indices' [vds' [t [Hsel [Hbody [Hview ->]]]]]]].
  rewrite group_body_select_one in Hbody.
  apply bind_Ok in Hbody as [gs [Hgs Hbody]].
  apply bind_Ok in Hbody as [temp0 [Htemp Hbody]].
  injection Hbody as <- <- <-.
  rewrite create_table_Ok in Hview. injection Hview as <-.
  exists (mkItemTable temp0 value_dim [a] (view_label v value_dim)).
  repeat split. cbn [it_data]. intros key x Hin.
  destruct (select_groups_In _ _ _ _ _ Htemp _ _ Hin)
    as [[]|[k [g [ind [Hg [Hind [Hkey Hloc]]]]]]].
  destruct Hind as [<-|[]].
  unfold view_groups_of in Hgs. cbn [is_empty] in Hgs.
  apply groupby_Ok in Hgs as [_ Hgs].
  destruct (Hgs k g Hg) as [Hlen [_ [_ Hrows]]].
  destruct k as [|c [|c' k]]; try discriminate.
  unfold select_key in Hkey. simpl in Hkey. injection Hkey as <-.
  apply loc_Ok in Hloc as [r [Hr Hlabel]].
  destruct (Hrows r Hr) as [Hrdf Hrkey].
  apply row_key_Ok in Hrkey as [_ [_ Hcells]].
  apply Forall2_cons_iff in Hcells as [Hcell _].
  destruct (@filter_unselected_spec v _ Hwf Hsel) as [f [Hmap Hf]].
  rewrite Hmap in Hrdf. apply in_map_iff in Hrdf as [r0 [<- Hr0]].
  destruct (Hf r0 Hr0) as [Hl Hc].
  exists c, r0. split; [reflexivity|]. split; [exact Hr0|]. split.
  - now rewrite <- Hl.
  - rewrite <- Hc; [exact Hcell | right; now left].
Qed.

Lemma C3_single_view_dimension_bare_key_witness :
  table Examples.sevens "value" [SInt 5] None ["a"] []
  = Ok (Single (mkItemTable [(PAtom (SInt 7), PAtom (SInt 42))]
                            "value" ["a"] "value")) /\
  exists t,
    Single (mkItemTable [(PAtom (SInt 7), PAtom (SInt 42))]
                        "value" ["a"] "value") = Single t /\
    it_dimensions t = ["a"] /\
    forall key x, In (key, x) (it_data t) ->
      exists c r,
        key = PAtom c /\
        In r (rows (data Examples.sevens)) /\ row_label r = SInt 5 /\
        get_cell (columns (data Examples.sevens)) (row_cells r) "a" = Some c.
Proof.
  split; [reflexivity|].
  apply (@C3_single_view_dimension_bare_key Examples.sevens "value" "a"
           (SInt 5) _ sevens_wf eq_refl).
Defined.

(** ** Collating rows by key *)

Lemma mapM_map {A B C : Type} (f : B -> res C) (g : A -> B) (l : list A) :
  mapM f (map g l) = mapM (fun x => f (g x)) l.
Proof.
  induction l as [|x l IH]; simpl; [reflexivity|]. now rewrite IH.
Qed.

Lemma mapM_ext_in {A B : Type} (f g : A -> res B) (l : list A) :
  (forall x, In x l -> f x = g x) -> mapM f l = mapM g l.
Proof.
  induction l as [|x l IH]; simpl; intro H; [reflexivity|].
  rewrite (H x (or_introl eq_refl)), IH; [reflexivity|].
  intros; apply H; now right.
Qed.

Lemma existsb_key_In (k : list scalar) (l : list (list scalar)) :
  existsb (key_eqb k) l = true <-> In k l.
Proof.
  rewrite existsb_exists. split.
  - intros [k' [Hin Heq]]. apply key_eqb_eq in Heq. now subst.
  - intro Hin. exists k. split; [exact Hin | apply key_eqb_refl].
Qed.

Lemma distinct_keys_snoc (l : list (list scalar)) (k : list scalar) :
  distinct_keys (l ++ [k])
  = distinct_keys l ++ (if existsb (key_eqb k) l then [] else [k]).
Proof.
  induction l as [|h l IH]; simpl; [reflexivity|].
  rewrite IH, filter_app. f_equal. f_equal.
  destruct (key_eqb k h) eqn:E; simpl.
  - apply key_eqb_eq in E. subst.
    destruct (existsb (key_eqb h) l); simpl; [reflexivity|].
    now rewrite key_eqb_refl.
  - destruct (existsb (key_eqb k) l); simpl; [reflexivity|].
    destruct (key_eqb h k) eqn:E'; [|reflexivity].
    apply key_eqb_eq in E'. subst. rewrite key_eqb_refl in E. discriminate.
Qed.

Section Collate.
Variable kf : row -> list scalar.
Variable xf : row -> scalar.

Lemma values_at_snoc (k : list scalar) (l : list row) (r : row) :
  values_at kf xf k (l ++ [r])
  = values_at kf xf k l ++ (if key_eqb k (kf r) then [xf r] else []).
Proof.
  unfold values_at. rewrite filter_app, map_app. simpl.
  now destruct (key_eqb k (kf r)).
Qed.

Lemma values_at_absent (k : list scalar) (l : list row) :
  ~ In k (map kf l) -> values_at kf xf k l = [].
Proof.
  intro H. unfold values_at.
  induction l as [|r l IH]; simpl; [reflexivity|].
  destruct (key_eqb k (kf r)) eqn:E.
  - apply key_eqb_eq in E. exfalso. apply H. left. now symmetry.
  - apply IH. intro Hin. apply H. now right.
Qed.

Lemma dict_append_collated (k0 : list scalar) (x : scalar)
    (vals : list scalar -> list scalar) (ks : list (list scalar)) :
  NoDup ks ->
  dict_append pyval_eqb (PTuple k0) x (map (fun k => (PTuple k, vals k)) ks)
  = map (fun k => (PTuple k, vals k ++ (if key_eqb k k0 then [x] else []))) ks
    ++ (if existsb (key_eqb k0) ks then [] else [(PTuple k0, [x])]).
Proof.
  induction 1 as [|k ks Hk Hks IH]; simpl; [reflexivity|].
  fold key_eqb. destruct (key_eqb k0 k) eqn:E; simpl.
  - apply key_eqb_eq in E. subst. rewrite key_eqb_refl.
    assert (Hno : existsb (key_eqb k) ks = false).
    { destruct (existsb (key_eqb k) ks) eqn:Ex; [|reflexivity].
      apply existsb_key_In in Ex. contradiction. }
    rewrite app_nil_r. f_equal.
    apply map_ext_in. intros k' Hk'.
    destruct (key_eqb k' k) eqn:E'.
    + apply key_eqb_eq in E'. subst. contradiction.
    + now rewrite app_nil_r.
  - rewrite IH. destruct (key_eqb k k0) eqn:E'.
    + apply key_eqb_eq in E'. subst. rewrite key_eqb_refl in E. discriminate.
    + now rewrite app_nil_r.
Qed.

Lemma fold_collate_step (l : list row) :
  fold_left (collate_step kf xf) l [] = collated kf xf l.
Proof.
  induction l as [|r l IH] using rev_ind; [reflexivity|].
  rewrite fold_left_app. cbn [fold_left]. rewrite IH.
  unfold collate_step, collated.
  rewrite dict_append_collated by apply distinct_keys_NoDup.
  rewrite map_app. cbn [map]. rewrite distinct_keys_snoc, map_app.
  assert (Hex : existsb (key_eqb (kf r)) (distinct_keys (map kf l))
                = existsb (key_eqb (kf r)) (map kf l)).
  { destruct (existsb (key_eqb (kf r)) (map kf l)) eqn:E.
    - apply (proj2 (existsb_key_In _ _)), (proj2 (distinct_keys_In _ _)),
        (proj1 (existsb_key_In _ _)), E.
    - destruct (existsb _ (distinct_keys _)) eqn:E'; [|reflexivity].
      apply (proj1 (existsb_key_In _ _)) in E'.
      apply (proj1 (distinct_keys_In _ _)) in E'.
      apply (proj2 (existsb_key_In _ _)) in E'.
      congruence. }
  rewrite Hex. f_equal.
  - apply map_ext. intro k. now rewrite values_at_snoc.
  - destruct (existsb (key_eqb (kf r)) (map kf l)) eqn:E; [reflexivity|].
    cbn [map]. rewrite values_at_snoc, key_eqb_refl.
    rewrite values_at_absent; [reflexivity|].
    intro Hin. apply existsb_key_In in Hin. congruence.
Qed.
End Collate.

(** ** Reduce mode *)

Lemma item_get_cell (cols : list string) (cells : list scalar) (d : string)
    (i : nat) (c : scalar) :
  index_of d cols = Some i -> get_cell cols cells d = Some c ->
  item cells i = Ok c.
Proof.
  unfold get_cell, item. intros -> H. now rewrite H.
Qed.

Lemma list_index_defined (cols : list string) (d : string) :
  In d cols -> exists i, index_of d cols = Some i /\ list_index d cols = Ok i.
Proof.
  intro H. destruct (index_of_In _ _ H) as [i Hi].
  exists i. unfold list_index. now rewrite Hi.
Qed.

Lemma mapM_list_index (cols dims : list string) :
  (forall d, In d dims -> In d cols) ->
  exists inds,
    mapM (fun d => list_index d cols) dims = Ok inds /\
    Forall2 (fun d i => index_of d cols = Some i) dims inds.
Proof.
  induction dims as [|d dims IH]; intro H; simpl.
  - exists []. split; [reflexivity | constructor].
  - destruct (@list_index_defined cols d) as [i [Hi Hl]];
      [apply H; now left|].
    destruct IH as [inds [Hinds HF]]; [intros; apply H; now right|].
    exists (i :: inds). rewrite Hl, Hinds. split; [reflexivity|].
    now constructor.
Qed.

Lemma mapM_item_key (cols : list string) (r : row) (dims : list string)
    (inds : list nat) :
  Forall2 (fun d i => index_of d cols = Some i) dims inds ->
  (forall d, In d dims -> get_cell cols (row_cells r) d <> None) ->
  mapM (item (row_cells r)) inds = Ok (key_of cols dims r).
Proof.
  unfold key_of. induction 1 as [|d i dims inds Hi _ IH]; intro Hdef; simpl;
    [reflexivity|].
  destruct (get_cell cols (row_cells r) d) as [c|] eqn:Hc;
    [|exfalso; now apply (Hdef d (or_introl eq_refl))].
  rewrite (@item_get_cell _ _ _ _ _ Hi Hc). cbn [bind].
  rewrite IH by (intros; apply Hdef; now right). reflexivity.
Qed.

Lemma collate_defined (value_dim : string) (view_dims : list string)
    (val_idx : nat) (vdim_inds : list nat)
    (kf : row -> list scalar) (xf : row -> scalar)
    (cf : row -> list scalar) (rws : list row) :
  (forall r, In r rws ->
     reduce_key value_dim view_dims vdim_inds (cf r) = Ok (PTuple (kf r)) /\
     item (cf r) val_idx = Ok (xf r)) ->
  forall d,
    collate value_dim view_dims val_idx vdim_inds (map cf rws) d
    = Ok (fold_left (collate_step kf xf) rws d).
Proof.
  induction rws as [|r rws IH]; intros H d; simpl; [reflexivity|].
  destruct (H r (or_introl eq_refl)) as [Hk Hx]. rewrite Hk, Hx. cbn [bind].
  apply IH. intros; apply H; now right.
Qed.

Lemma key_of_ext (cols cols' dims : list string) (r r' : row) :
  (forall d, In d dims ->
     get_cell cols' (row_cells r') d = get_cell cols (row_cells r) d) ->
  key_of cols' dims r' = key_of cols dims r.
Proof.
  intro H. unfold key_of.
  induction dims as [|d dims IH]; simpl; [reflexivity|].
  rewrite (H d (or_introl eq_refl)). f_equal.
  apply IH. intros; apply H; now right.
Qed.

(** The reduction of a map group that is the filtered table. *)
Lemma reduce_group_filtered (v : DataFrameView) (value_dim : string)
    (f : list scalar -> res pyval) (view_dims : list string)
    (sel : list string) :
  wf_view v ->
  view_dims <> [] ->
  (forall d, In d sel -> In d (dimension_labels v)) ->
  In value_dim sel ->
  (forall d, In d view_dims -> In d sel) ->
  reduce_group value_dim view_dims f (filter_unselected v sel)
  = reduce_spec v value_dim f view_dims.
Proof.
  intros Hwf Hne Hsel Hvd Hvds.
  destruct (@filter_unselected_spec v sel Hwf Hsel) as [cf [Hrows Hcf]].
  set (df := filter_unselected v sel) in *.
  set (cols := columns (data v)).
  assert (Hcols : forall d, In d sel -> In d (columns df))
    by (intros d Hd; now apply filter_unselected_columns).
  assert (Hcell : forall r d, In r (rows (data v)) -> In d sel ->
            exists c, get_cell (columns df) (row_cells (cf r)) d = Some c /\
                      get_cell cols (row_cells r) d = Some c).
  { intros r d Hr Hd. destruct (Hcf r Hr) as [_ Hc].
    destruct Hwf as [Hframe Hlabels].
    destruct (@get_cell_wf (data v) d r Hframe) as [c Hx]; auto.
    - rewrite <- Hlabels. now apply Hsel.
    - exists c. split; [|exact Hx]. rewrite Hc by exact Hd. exact Hx. }
  unfold reduce_group.
  destruct (@list_index_defined (columns df) value_dim) as [vi [Hvi ->]];
    [now apply Hcols|].
  destruct (@mapM_list_index (columns df) view_dims) as [inds [-> Hinds]];
    [intros d Hd; now apply Hcols, Hvds|].
  cbn [bind]. unfold values. rewrite Hrows, map_map.
  rewrite (@collate_defined value_dim view_dims vi inds
             (key_of cols view_dims) (cell_of cols value_dim)).
  - cbn [bind]. rewrite fold_collate_step. unfold collated.
    rewrite mapM_map. reflexivity.
  - intros r Hr. split.
    + unfold reduce_key. destruct view_dims as [|d0 ds] eqn:Hd;
        [contradiction|]. rewrite <- Hd in *. cbn [is_empty].
      assert (His : is_empty view_dims = false) by (rewrite Hd; reflexivity).
      rewrite His. rewrite (@mapM_item_key (columns df) (cf r) view_dims inds).
      * cbn [bind]. do 2 f_equal. apply key_of_ext.
        intros d Hdin. destruct (Hcf r Hr) as [_ Hc]. apply Hc. now apply Hvds.
      * exact Hinds.
      * intros d Hdin. destruct (Hcell r d Hr (Hvds d Hdin)) as [c [Hc _]].
        congruence.
    + destruct (Hcell r value_dim Hr Hvd) as [c [Hc Hc0]].
      rewrite (@item_get_cell _ _ _ _ _ Hvi Hc). unfold cell_of.
      now rewrite Hc0.
Qed.

(** C1, as stated, fails on its own example: the keys of the mapping
    are the 1-tuples [('x',)] and [('y',)], not the bare values ['x']
    and ['y']. *)
Lemma C1_reduce_example_keys_are_tuples :
  table Examples.cats "value" [] (Some py_sum) ["cat"] []
  = Ok (Single (mkItemTable
                  [(PTuple [SStr "x"], PAtom (SInt 4));
                   (PTuple [SStr "y"], PAtom (SInt 10))]
                  "value" ["cat"] "value")) /\
  ~ (exists t,
       table Examples.cats "value" [] (Some py_sum) ["cat"] [] = Ok (Single t) /\
       it_data t = [(PAtom (SStr "x"), PAtom (SInt 4));
                    (PAtom (SStr "y"), PAtom (SInt 10))]).
Proof.
  split; [reflexivity|].
  intros [t [H Hdata]]. vm_compute in H. injection H as <-.
  discriminate.
Qed.

(** C1, amended: in reduce mode with view dimensions and without map
    dimensions, the projection groups the rows by their values under
    the view dimensions and maps the key of every group, the tuple of
    these values (a 1-tuple for one view dimension), to the reduction
    function applied to the list of the entries of the group in the
    value column; the groups come in the order in which their keys
    first occur, and an exception of the reduction function is the
    exception of the call. *)
Theorem C1_reduce_mode_aggregates (v : DataFrameView) (value_dim : string)
    (f : list scalar -> res pyval) (view_dims : list string)
    (indices : list scalar) :
  wf_view v ->
  view_dims <> [] ->
  In value_dim (dimension_labels v) ->
  (forall d, In d view_dims -> In d (dimension_labels v)) ->
  table v value_dim indices (Some f) view_dims []
  = temp <- reduce_spec v value_dim f view_dims ;;
    Ok (Single (mkItemTable temp value_dim view_dims (view_label v value_dim))).
Proof.
  intros Hwf Hne Hvd Hvds. unfold table, _export_dataview.
  rewrite app_nil_r.
  assert (Hsel : forall d, In d (value_dim :: view_dims) ->
                           In d (dimension_labels v)).
  { intros d [<-|Hd]; auto. }
  rewrite (check_dimensions_valid _ _ Hsel). cbn [bind].
  unfold map_groups. cbn [is_empty bind export_loop].
  rewrite group_body_reduce.
  rewrite (@reduce_group_filtered v value_dim f view_dims _ Hwf Hne Hsel);
    [|now left | intros; now right].
  destruct (reduce_spec v value_dim f view_dims) as [temp|e]; cbn [bind];
    [|reflexivity].
  rewrite create_table_Ok. reflexivity.
Qed.

Lemma C1_reduce_mode_aggregates_witness :
  table Examples.cats "value" [] (Some py_sum) ["cat"] []
  = temp <- reduce_spec Examples.cats "value" py_sum ["cat"] ;;
    Ok (Single (mkItemTable temp "value" ["cat"]
                            (view_label Examples.cats "value"))) /\
  reduce_spec Examples.cats "value" py_sum ["cat"]
  = Ok [(PTuple [SStr "x"], PAtom (SInt 4));
        (PTuple [SStr "y"], PAtom (SInt 10))].
Proof.
  split; [|reflexivity].
  apply (@C1_reduce_mode_aggregates Examples.cats "value" py_sum ["cat"] []
           cats_wf).
  - discriminate.
  - simpl. tauto.
  - simpl. intros d [<-|[]]. tauto.
Defined.

(** ** Map groups in select mode *)

(** C2: the code does not do what the claim says.  The select branch
    tests [len(indices) == 1] twice, and assigns [indices] in between:
    on a table of one row and without supplied indices (an index set
    of size 0), ['Index'] is prepended to the dimensions, but the key
    is built after [indices] has become the one row label and carries
    no index: the bare key [7] under the dimensions ['Index', 'a'].  On
    the table [sevens] of two rows the same call does what the claim
    says, with the keys [(5, 7)] and [(6, 7)]. *)
Theorem C2_index_dimension_without_index_in_key :
  table Examples.single "value" [] None ["a"] []
  = Ok (Single (mkItemTable [(PAtom (SInt 7), PAtom (SInt 42))]
                            "value" ["Index"; "a"] "value")) /\
  table Examples.sevens "value" [] None ["a"] []
  = Ok (Single (mkItemTable
                  [(PTuple [SInt 5; SInt 7], PAtom (SInt 42));
                   (PTuple [SInt 6; SInt 7], PAtom (SInt 43))]
                  "value" ["Index"; "a"] "value")).
Proof. split; vm_compute; reflexivity. Qed.

(** C4: the code does not do what the claim says.  In select mode
    without supplied indices the row labels of the first map group
    stay in [indices] for the groups that follow.  On the table
    [trials] the view of season [s2] is built from the one label of
    season [s1]: it has the single bare key [1], where the rows of [s2]
    alone give the two keys [(0, 1)] and [(1, 1)]; on the table
    [seasons], whose rows are labelled 0 and 1, the second group is
    looked up under label 0 and the call raises [KeyError]. *)
Theorem C4_map_groups_share_indices :
  table Examples.trials "value" [] None ["a"] ["season"]
  = Ok (Mapped
          [(PTuple [SStr "s1"],
            mkItemTable [(PAtom (SInt 1), PAtom (SInt 10))]
                        "value" ["Index"; "a"] "value");
           (PTuple [SStr "s2"],
            mkItemTable [(PAtom (SInt 1), PAtom (SInt 20))]
                        "value" ["Index"; "a"] "value")]) /\
  table Examples.trials_s2 "value" [] None ["a"] []
  = Ok (Single (mkItemTable
                  [(PTuple [SInt 0; SInt 1], PAtom (SInt 20));
                   (PTuple [SInt 1; SInt 1], PAtom (SInt 30))]
                  "value" ["Index"; "a"] "value")) /\
  table Examples.seasons "value" [] None ["a"] ["season"]
  = Err (KeyError (PAtom (SInt 0))).
Proof. repeat split; vm_compute; reflexivity. Qed.

(** ** More on selection *)

Lemma df_mask_columns_rows (df : DataFrame) (mask : list bool) :
  columns (df_mask df mask) = columns df /\
  incl (rows (df_mask df mask)) (rows df).
Proof.
  split; [reflexivity|]. unfold df_mask. cbn [rows].
  intros r Hr. apply in_map_iff in Hr as [[r' b] [Heq Hin]].
  simpl in Heq. subst r'. apply filter_In in Hin as [Hin _].
  eapply in_combine_l, Hin.
Qed.

Lemma select_step_Ok (df df' : DataFrame) (dim : string) (k : criterion) :
  select_step df dim k = Ok df' ->
  columns df' = columns df /\ incl (rows df') (rows df).
Proof.
  unfold select_step. destruct k as [x|lo hi]; intro H.
  - apply bind_Ok in H as [c [_ H]]. injection H as <-.
    apply df_mask_columns_rows.
  - apply bind_Ok in H as [c1 [_ H]]. apply bind_Ok in H as [m1 [_ H]].
    apply bind_Ok in H as [c2 [_ H]]. apply bind_Ok in H as [m2 [_ H]].
    injection H as <-. apply df_mask_columns_rows.
Qed.

Lemma select_loop_Ok (criteria : list (string * criterion)) :
  forall df df',
    select_loop df criteria = Ok df' ->
    columns df' = columns df /\ incl (rows df') (rows df).
Proof.
  induction criteria as [|[dim k] criteria IH]; intros df df' H; simpl in H.
  - injection H as <-. split; [reflexivity | apply incl_refl].
  - apply bind_Ok in H as [df1 [H1 H]].
    apply select_step_Ok in H1 as [Hc1 Hr1].
    apply IH in H as [Hc Hr]. split; [congruence|].
    eapply incl_tran; eassumption.
Qed.

Lemma select_loop_app (c1 c2 : list (string * criterion)) :
  forall df,
    select_loop df (c1 ++ c2)
    = df1 <- select_loop df c1 ;; select_loop df1 c2.
Proof.
  induction c1 as [|[dim k] c1 IH]; intro df; simpl; [reflexivity|].
  destruct (select_step df dim k) as [df1|e]; cbn [bind]; [apply IH|reflexivity].
Qed.

(** A clone over a table with the columns of the view is that table
    under the dimensions and the label of the view. *)
Lemma clone_same_columns (v : DataFrameView) (df : DataFrame) :
  wf_view v -> columns df = columns (data v) ->
  clone v df None = mkView df (dimensions v) (label v).
Proof.
  intros [[Hnd _] Hdims] Hcols. unfold clone, __init__.
  rewrite Hcols, Hdims, fold_place_all by assumption.
  destruct df as [cols rws]. simpl in *. now subst.
Qed.

(** [select] keeps a view well formed: the view it returns has the
    dimensions, the columns and the label of the original, and its rows
    are rows of the original. *)
Theorem select_keeps_view_well_formed (v v' : DataFrameView)
    (criteria : dict string criterion) :
  wf_view v ->
  select v criteria = Ok v' ->
  wf_view v' /\
  dimensions v' = dimensions v /\
  columns (data v') = columns (data v) /\
  label v' = label v /\
  incl (rows (data v')) (rows (data v)).
Proof.
  intros Hwf H. unfold select in H.
  apply bind_Ok in H as [df [Hloop H]]. injection H as <-.
  apply select_loop_Ok in Hloop as [Hcols Hrows].
  rewrite (@clone_same_columns v _ Hwf Hcols). cbn [data dimensions label].
  destruct Hwf as [[Hnd Hrect] Hdims].
  unfold wf_view, wf_frame. cbn [data dimensions label columns rows].
  rewrite Hcols. repeat split; auto.
  rewrite Forall_forall in *. intros r Hr. apply Hrect, Hrows, Hr.
Qed.

Lemma select_keeps_view_well_formed_witness :
  exists v',
    select Examples.cats [("cat", Equals (SStr "x"))] = Ok v' /\
    wf_view v' /\
    dimensions v' = dimensions Examples.cats /\
    columns (data v') = columns (data Examples.cats) /\
    label v' = label Examples.cats /\
    incl (rows (data v')) (rows (data Examples.cats)).
Proof.
  eexists. split; [reflexivity|].
  apply (@select_keeps_view_well_formed Examples.cats _
           [("cat", Equals (SStr "x"))] cats_wf).
  reflexivity.
Defined.

(** Selecting by several criteria in one call is selecting by the
    first ones and then, on the view returned, by the others;
    exceptions included. *)
Theorem select_composes (v : DataFrameView)
    (c1 c2 : dict string criterion) :
  wf_view v ->
  select v (c1 ++ c2) = v1 <- select v c1 ;; select v1 c2.
Proof.
  intro Hwf. unfold select. rewrite select_loop_app.
  destruct (select_loop (data v) c1) as [df1|e] eqn:H1; cbn [bind];
    [|reflexivity].
  apply select_loop_Ok in H1 as [Hcols _].
  rewrite (@clone_same_columns v _ Hwf Hcols). cbn [data].
  destruct (select_loop df1 c2) as [df2|e]; cbn [bind]; reflexivity.
Qed.

Lemma select_composes_witness :
  select Examples.cats
         ([("cat", Equals (SStr "x"))] ++ [("value", Slice (SInt 1) (SInt 10))])
  = v1 <- select Examples.cats [("cat", Equals (SStr "x"))] ;;
    select v1 [("value", Slice (SInt 1) (SInt 10))].
Proof.
  apply (@select_composes Examples.cats [("cat", Equals (SStr "x"))]
           [("value", Slice (SInt 1) (SInt 10))] cats_wf).
Defined.

Lemma forallb_Permutation {A : Type} (f : A -> bool) (l l' : list A) :
  Permutation l l' -> forallb f l = forallb f l'.
Proof.
  induction 1 as [|x l l' _ IH|x y l|l l' l'' _ IH1 _ IH2]; simpl.
  - reflexivity.
  - now rewrite IH.
  - destruct (f x), (f y); reflexivity.
  - congruence.
Qed.

(** The order of the criteria does not matter: two lists of criteria
    that are permutations of each other, and can be evaluated on the
    table, select the same view.  (The keyword arguments of [select]
    reach it as a dictionary, in no order the caller controls.) *)
Theorem select_order_irrelevant (v : DataFrameView)
    (c c' : dict string criterion) :
  Permutation c c' ->
  Forall (fun dk => criterion_applies (data v) (fst dk) (snd dk)) c ->
  select v c = select v c'.
Proof.
  intros Hperm Happ.
  assert (Happ' : Forall (fun dk => criterion_applies (data v) (fst dk) (snd dk)) c')
    by (eapply Permutation_Forall; eassumption).
  destruct v as [[cols rws] dims lbl]. unfold select. cbn [data] in *.
  rewrite (select_loop_filter Happ), (select_loop_filter Happ').
  cbn [bind]. do 3 f_equal. apply filter_ext. intro r.
  now apply forallb_Permutation.
Qed.

Lemma select_order_irrelevant_witness :
  select Examples.cats
         [("cat", Equals (SStr "x")); ("value", Slice (SInt 1) (SInt 10))]
  = select Examples.cats
           [("value", Slice (SInt 1) (SInt 10)); ("cat", Equals (SStr "x"))].
Proof.
  apply (@select_order_irrelevant Examples.cats
           [("cat", Equals (SStr "x")); ("value", Slice (SInt 1) (SInt 10))]
           [("value", Slice (SInt 1) (SInt 10)); ("cat", Equals (SStr "x"))]).
  - apply perm_swap.
  - repeat (apply Forall_cons; [solve_applies|]). apply Forall_nil.
Defined.

(** A criterion on a name that is not a column makes [select] raise
    [KeyError] for that name, once the criteria before it have been
    applied; no view is returned. *)
Theorem select_unknown_dimension_raises (v : DataFrameView)
    (c1 c2 : dict string criterion) (dim : string) (k : criterion) :
  Forall (fun dk => criterion_applies (data v) (fst dk) (snd dk)) c1 ->
  ~ In dim (columns (data v)) ->
  select v (c1 ++ (dim, k) :: c2) = Err (KeyError (PAtom (SStr dim))).
Proof.
  intros Happ Hdim. destruct v as [[cols rws] dims lbl].
  unfold select. cbn [data] in *. rewrite select_loop_app.
  rewrite (select_loop_filter Happ). cbn [bind select_loop].
  apply mem_str_not_In in Hdim. cbn [columns] in Hdim.
  unfold select_step, df_column. cbn [columns]. rewrite Hdim.
  destruct k; reflexivity.
Qed.

Lemma select_unknown_dimension_raises_witness :
  select Examples.cats
         ([("cat", Equals (SStr "x"))] ++ ("height", Equals (SInt 1)) :: [])
  = Err (KeyError (PAtom (SStr "height"))).
Proof.
  apply (@select_unknown_dimension_raises Examples.cats
           [("cat", Equals (SStr "x"))] [] "height" (Equals (SInt 1))).
  - repeat (apply Forall_cons; [solve_applies|]). apply Forall_nil.
  - simpl. intros [H|[H|[]]]; discriminate.
Defined.

(** ** More on the constructor *)

Lemma fold_place_unplaced (cols ds : list string) (i : nat) :
  (forall d, In d ds -> index_of d cols <> Some i) ->
  forall acc,
    nth_error (fold_left (place_dimension cols) ds acc) i = nth_error acc i.
Proof.
  induction ds as [|d ds IH]; intros H acc; simpl; [reflexivity|].
  rewrite IH by (intros; apply H; now right).
  unfold place_dimension.
  destruct (index_of d cols) as [j|] eqn:Hj; [|reflexivity].
  apply list_set_other. intros ->. now apply (H d (or_introl eq_refl)).
Qed.

(** The constructor aligns the supplied dimensions with the columns
    by name, in whatever order they are supplied: on a table with
    distinct column names, the dimension at the position of a column is
    the column's name when a dimension of that name is supplied and the
    empty name otherwise; the columns are renamed to these labels and
    the rows are kept. *)
Theorem init_aligns_dimensions (df : DataFrame) (ds : list string)
    (lbl : string) :
  NoDup (columns df) ->
  dimensions (__init__ df (Some ds) lbl)
  = map (fun c => if mem_str c ds then c else "") (columns df) /\
  columns (data (__init__ df (Some ds) lbl))
  = dimensions (__init__ df (Some ds) lbl) /\
  rows (data (__init__ df (Some ds) lbl)) = rows df.
Proof.
  intro Hnd. split; [|split; reflexivity].
  unfold __init__. cbn [dimensions].
  apply nth_error_ext. intro i. rewrite nth_error_map.
  destruct (nth_error (columns df) i) as [c|] eqn:Hc; cbn [option_map].
  - destruct (mem_str c ds) eqn:Hm.
    + apply fold_place_placed.
      * now apply index_of_NoDup.
      * apply repeat_length.
      * left. now apply mem_str_In.
    + rewrite fold_place_unplaced.
      * apply nth_error_repeat. apply nth_error_Some. congruence.
      * intros d Hd Hi. apply index_of_nth_error in Hi.
        assert (d = c) by congruence. subst.
        apply mem_str_In in Hd. congruence.
  - apply nth_error_None. rewrite fold_place_length, repeat_length.
    now apply nth_error_None.
Qed.

Lemma init_aligns_dimensions_witness :
  dimensions (__init__ (data Examples.seasons) (Some ["value"; "season"]) "")
  = map (fun c => if mem_str c ["value"; "season"] then c else "")
        (columns (data Examples.seasons)) /\
  columns (data (__init__ (data Examples.seasons) (Some ["value"; "season"]) ""))
  = dimensions (__init__ (data Examples.seasons) (Some ["value"; "season"]) "") /\
  rows (data (__init__ (data Examples.seasons) (Some ["value"; "season"]) ""))
  = rows (data Examples.seasons).
Proof.
  apply (@init_aligns_dimensions (data Examples.seasons)
           ["value"; "season"] "").
  apply seasons_wf.
Defined.

(** ** The error of a split *)

Lemma prefix_append (n t : string) : String.prefix n (n ++ t)%string = true.
Proof.
  induction n as [|a n IH]; simpl; [now destruct t|].
  destruct (ascii_dec a a); [exact IH | congruence].
Qed.

Lemma mentions_prefix (n s : string) :
  String.prefix n s = true -> mentions n s = true.
Proof. intro H. destruct s; simpl in *; rewrite H; reflexivity. Qed.

Lemma mentions_append_l (n p s : string) :
  mentions n s = true -> mentions n (p ++ s)%string = true.
Proof.
  intro H. induction p as [|a p IH]; simpl; [exact H|].
  rewrite IH. apply orb_true_r.
Qed.

Lemma prefix_append_r (n : string) :
  forall s t, String.prefix n s = true -> String.prefix n (s ++ t)%string = true.
Proof.
  induction n as [|a n IH]; intros s t H.
  - now destruct (s ++ t)%string.
  - destruct s as [|b s]; simpl in *; [discriminate|].
    destruct (ascii_dec a b); [now apply IH | discriminate].
Qed.

Lemma mentions_append_r (n s t : string) :
  mentions n s = true -> mentions n (s ++ t)%string = true.
Proof.
  induction s as [|a s IH]; intro H.
  - destruct n; [|discriminate]. apply mentions_prefix. now destruct t.
  - change (String.prefix n (String a s) || mentions n s = true) in H.
    change (String.prefix n (String a s ++ t)%string
            || mentions n (s ++ t)%string = true).
    apply orb_true_iff in H as [H|H].
    + rewrite (prefix_append_r _ _ t H). reflexivity.
    + rewrite (IH H). apply orb_true_r.
Qed.

Lemma mentions_here (n p t : string) :
  mentions n (p ++ n ++ t)%string = true.
Proof. apply mentions_append_l, mentions_prefix, prefix_append. Qed.

Lemma mentions_repr_items (d : string) (l : list string) :
  In d l -> mentions d (repr_items l) = true.
Proof.
  induction l as [|x l IH]; [contradiction|].
  intros [->|Hd].
  - destruct l; simpl repr_items; apply (mentions_here d "'").
  - destruct l as [|y l]; [contradiction|].
    change (repr_items (x :: y :: l))
      with ("'" ++ x ++ "', " ++ repr_items (y :: l))%string.
    apply (mentions_append_l d "'").
    apply mentions_append_l. apply (mentions_append_l d "', ").
    now apply IH.
Qed.

(** A split on names that are not all dimensions of the view raises
    an exception whose message names every one of the unknown names,
    whatever the rows of the table are. *)
Theorem split_reports_all_invalid (v : DataFrameView) (dims : list string)
    (d0 : string) :
  In d0 dims -> ~ In d0 (dimension_labels v) ->
  reports_all_invalid v dims (_split_dimensions v dims).
Proof.
  intros Hin Hnot. unfold reports_all_invalid, _split_dimensions.
  assert (Hall : forall d, In d dims -> ~ In d (dimension_labels v) ->
                           In d (set_diff dims (dimension_labels v))).
  { intros d Hd Hn. unfold set_diff. apply filter_In. split.
    - now apply set_of_In.
    - apply negb_true_iff. now apply mem_str_not_In. }
  destruct (set_diff dims (dimension_labels v)) as [|x invalid] eqn:E.
  - exfalso. exact (Hall d0 Hin Hnot).
  - eexists. split; [reflexivity|]. intros d Hd Hn.
    apply mentions_append_l, mentions_append_r. unfold repr_list.
    apply (mentions_append_l d "["), mentions_append_r.
    apply mentions_repr_items. now apply Hall.
Qed.

Lemma split_reports_all_invalid_witness :
  reports_all_invalid Examples.seasons ["height"; "season"; "weight"]
    (_split_dimensions Examples.seasons ["height"; "season"; "weight"]).
Proof.
  apply (@split_reports_all_invalid Examples.seasons
           ["height"; "season"; "weight"] "height").
  - now left.
  - simpl. intros [H|[H|[H|[]]]]; discriminate.
Defined.

(** ** The groups of a split *)

Lemma drop_cells_length (cols labels : list string) :
  forall cells,
    length cells = length cols ->
    length (drop_cells cols labels cells)
    = length (filter (fun c => negb (mem_str c labels)) cols).
Proof.
  induction cols as [|c cols IH]; intros [|x cells] H; simpl in *;
    try reflexivity; try discriminate.
  injection H as H. destruct (mem_str c labels); simpl; auto.
Qed.

Lemma key_of_length (cols dims : list string) (r : row) :
  (forall d, In d dims -> get_cell cols (row_cells r) d <> None) ->
  length (key_of cols dims r) = length dims.
Proof.
  intro H. apply row_key_defined in H. apply row_key_Ok in H. tauto.
Qed.

Lemma clone_columns (v : DataFrameView) (df : DataFrame)
    (dims : option (list string)) :
  columns (data (clone v df dims)) = dimensions (clone v df dims).
Proof. reflexivity. Qed.

(** What [_split_dimensions] returns on a well-formed view and a
    non-empty list of its dimensions. *)
Lemma split_dimensions_defined (v : DataFrameView) (dims : list string) :
  wf_view v ->
  dims <> [] ->
  (forall d, In d dims -> In d (dimension_labels v)) ->
  _split_dimensions v dims
  = Ok (map (fun k =>
               (k, clone v
                     (mkDF (filter (fun c => negb (mem_str c dims))
                                   (columns (data v)))
                           (map (drop_row (columns (data v)) dims)
                                (filter (fun r => key_eqb k
                                           (key_of (columns (data v)) dims r))
                                        (rows (data v)))))
                     (Some (set_diff (dimension_labels v) dims))))
            (sort_keys (distinct_keys
                          (map (key_of (columns (data v)) dims)
                               (rows (data v)))))).
Proof.
  intros Hwf Hne Hdims.
  pose proof Hwf as [Hframe Hlabels]. unfold dimension_labels in Hdims.
  rewrite Hlabels in Hdims.
  unfold _split_dimensions.
  rewrite set_diff_nil
    by (unfold dimension_labels; rewrite Hlabels; exact Hdims).
  rewrite groupby_defined; try assumption.
  2:{ intros r d Hr Hd. destruct (@get_cell_wf (data v) d r) as [x Hx]; auto.
      rewrite Hx. discriminate. }
  cbn [bind].
  rewrite <- (map_map (fun k => (k, filter (fun r => key_eqb k
                                     (key_of (columns (data v)) dims r))
                                  (rows (data v))))
                      (fun kg => (fst kg, mkDF (columns (data v)) (snd kg)))).
  rewrite (@split_loop_defined v dims _ (columns (data v)) _ Hdims []).
  - cbn [app]. now rewrite map_map.
  - simpl. rewrite map_map. cbn [fst]. rewrite map_id.
    apply sorted_distinct_NoDup.
Qed.

(** Splitting keeps views well formed and makes no empty group: on a
    well-formed view and a non-empty list of its dimensions, every
    group is a well-formed view with at least one row, under a key with
    one value per split dimension. *)
Theorem split_groups_well_formed (v : DataFrameView) (dims : list string)
    (m : NdMapping DataFrameView) :
  wf_view v ->
  dims <> [] ->
  (forall d, In d dims -> In d (dimension_labels v)) ->
  _split_dimensions v dims = Ok m ->
  forall k g, In (k, g) m ->
    wf_view g /\ rows (data g) <> [] /\ length k = length dims.
Proof.
  intros Hwf Hne Hdims Hsplit k g Hin.
  rewrite (split_dimensions_defined Hwf Hne Hdims) in Hsplit.
  injection Hsplit as <-.
  apply in_map_iff in Hin as [k' [Heq Hk]]. injection Heq as -> <-.
  apply (proj1 (sorted_distinct_In _ _)) in Hk.
  apply in_map_iff in Hk as [r [Hkr Hr]].
  pose proof Hwf as [[Hnd Hrect] Hlabels].
  assert (Hcells : forall r d, In r (rows (data v)) -> In d dims ->
                     get_cell (columns (data v)) (row_cells r) d <> None).
  { intros r' d Hr' Hd. destruct (@get_cell_wf (data v) d r') as [x Hx];
      auto.
    - split; assumption.
    - rewrite <- Hlabels. now apply Hdims.
    - rewrite Hx. discriminate. }
  split; [|split].
  - split; [split|].
    + rewrite clone_columns.
      rewrite clone_dimensions_dropped by exact Hwf.
      apply NoDup_filter. now rewrite Hlabels.
    + rewrite clone_rows. cbn [rows]. rewrite clone_columns.
      rewrite clone_dimensions_dropped by exact Hwf.
      rewrite Hlabels. apply Forall_forall. intros r' Hr'.
      apply in_map_iff in Hr' as [r0 [<- Hr0]].
      apply filter_In in Hr0 as [Hr0 _]. cbn [drop_row row_cells].
      apply drop_cells_length.
      rewrite Forall_forall in Hrect. now apply Hrect.
    + reflexivity.
  - rewrite clone_rows. cbn [rows]. intro Hnil.
    assert (Hrin : In (drop_row (columns (data v)) dims r)
                      (map (drop_row (columns (data v)) dims)
                           (filter (fun r0 => key_eqb k
                                      (key_of (columns (data v)) dims r0))
                                   (rows (data v))))).
    { apply in_map, filter_In. split; [exact Hr|].
      rewrite Hkr. apply key_eqb_refl. }
    rewrite Hnil in Hrin. contradiction.
  - rewrite <- Hkr. apply key_of_length. intros d Hd. now apply Hcells.
Qed.

Lemma split_groups_well_formed_witness :
  exists m,
    _split_dimensions Examples.seasons ["season"] = Ok m /\
    forall k g, In (k, g) m ->
      wf_view g /\ rows (data g) <> [] /\ length k = length ["season"].
Proof.
  eexists. split; [reflexivity|].
  apply (@split_groups_well_formed Examples.seasons ["season"] _ seasons_wf).
  - discriminate.
  - simpl. intros d [<-|[]]. tauto.
  - reflexivity.
Defined.

Lemma scalar_eqb_sym (a b : scalar) : scalar_eqb a b = scalar_eqb b a.
Proof.
  destruct a, b; simpl; try reflexivity;
    [apply Z.eqb_sym | apply String.eqb_sym].
Qed.

Lemma key_eqb_meets (cols : list string) (r : row) (dims : list string) :
  (forall d, In d dims -> get_cell cols (row_cells r) d <> None) ->
  forall k, length k = length dims ->
    key_eqb k (key_of cols dims r)
    = forallb (fun dk => meets cols (fst dk) (snd dk) r)
              (combine dims (map Equals k)).
Proof.
  unfold key_of, key_eqb.
  induction dims as [|d dims IH]; intros Hdef [|x k] Hlen;
    try discriminate; [reflexivity|].
  cbn [flat_map map combine forallb fst snd]. unfold meets at 1.
  destruct (get_cell cols (row_cells r) d) as [c|] eqn:Hc;
    [|exfalso; now apply (Hdef d (or_introl eq_refl))].
  cbn [app list_eqb]. rewrite scalar_eqb_sym. f_equal.
  apply IH; [intros; apply Hdef; now right | now injection Hlen].
Qed.

(** A split agrees with selection: the group a split puts under a
    key holds exactly the rows [select] returns for the values of the
    key, in the same order, without the split columns. *)
Theorem split_group_is_selection (v : DataFrameView) (dims : list string)
    (m : NdMapping DataFrameView) (k : list scalar) (g : DataFrameView) :
  wf_view v ->
  dims <> [] ->
  (forall d, In d dims -> In d (dimension_labels v)) ->
  _split_dimensions v dims = Ok m ->
  In (k, g) m ->
  exists v',
    select v (combine dims (map Equals k)) = Ok v' /\
    rows (data g) = map (drop_row (columns (data v)) dims) (rows (data v')).
Proof.
  intros Hwf Hne Hdims Hsplit Hin.
  destruct (@split_groups_well_formed v dims m Hwf Hne Hdims Hsplit k g Hin)
    as [_ [_ Hlen]].
  rewrite (split_dimensions_defined Hwf Hne Hdims) in Hsplit.
  injection Hsplit as <-.
  apply in_map_iff in Hin as [k' [Heq _]]. injection Heq as -> <-.
  pose proof Hwf as [Hframe Hlabels].
  assert (Hcells : forall r d, In r (rows (data v)) -> In d dims ->
                     get_cell (columns (data v)) (row_cells r) d <> None).
  { intros r' d Hr' Hd. destruct (@get_cell_wf (data v) d r') as [x Hx];
      auto.
    - rewrite <- Hlabels. now apply Hdims.
    - rewrite Hx. discriminate. }
  assert (Happ : Forall (fun dk => criterion_applies (data v) (fst dk) (snd dk))
                        (combine dims (map Equals k))).
  { apply Forall_forall. intros [d c] Hdc.
    pose proof (in_combine_l _ _ _ _ Hdc) as Hd.
    pose proof (in_combine_r _ _ _ _ Hdc) as Hc.
    apply in_map_iff in Hc as [x [<- _]]. split; cbn [fst snd].
    - rewrite <- Hlabels. now apply Hdims.
    - intros r Hr. destruct (@get_cell_wf (data v) d r) as [c Hx]; auto.
      + rewrite <- Hlabels. now apply Hdims.
      + eauto. }
  destruct v as [[cols rws] vdims lbl]. cbn [data columns rows] in *.
  eexists. unfold select. cbn [data].
  rewrite (select_loop_filter Happ). cbn [bind].
  split; [reflexivity|]. rewrite !clone_rows. cbn [rows].
  f_equal. apply filter_ext_in. intros r Hr.
  apply key_eqb_meets; [|exact Hlen].
  intros d Hd. now apply Hcells.
Qed.

Lemma split_group_is_selection_witness :
  exists v',
    select Examples.seasons (combine ["season"] (map Equals [SStr "s2"]))
    = Ok v' /\
    rows (data (clone Examples.seasons
                  (mkDF ["a"; "value"] [mkRow (SInt 1) [SInt 2; SInt 20]])
                  None))
    = map (drop_row (columns (data Examples.seasons)) ["season"])
          (rows (data v')).
Proof.
  apply (@split_group_is_selection Examples.seasons ["season"]
           [([SStr "s1"],
             clone Examples.seasons
               (mkDF ["a"; "value"] [mkRow (SInt 0) [SInt 1; SInt 10]]) None);
            ([SStr "s2"],
             clone Examples.seasons
               (mkDF ["a"; "value"] [mkRow (SInt 1) [SInt 2; SInt 20]]) None)]
           [SStr "s2"] _ seasons_wf).
  - discriminate.
  - simpl. intros d [<-|[]]. tauto.
  - reflexivity.
  - right. left. reflexivity.
Defined.

(** ** Map groups in reduce mode *)

Lemma NoDup_map_PTuple (ks : list (list scalar)) :
  NoDup ks -> NoDup (map PTuple ks).
Proof.
  induction 1 as [|k ks Hk _ IH]; simpl; constructor; [|exact IH].
  intro Hin. apply in_map_iff in Hin as [k' [Heq Hin]].
  injection Heq as ->. contradiction.
Qed.

Lemma Forall2_map_left {A B C : Type} (P : B -> C -> Prop) (h : A -> B)
    (l : list A) (l' : list C) :
  Forall2 P (map h l) l' -> Forall2 (fun x y => P (h x) y) l l'.
Proof.
  revert l'. induction l as [|x l IH]; intros l' H; inversion H; subst;
    constructor; auto.
Qed.

Lemma export_loop_reduce_views (V : Type) (value_dim : string)
    (f : list scalar -> res pyval) (view_dims : list string)
    (view_method : dict pyval pyval -> string -> list string -> res V)
    (indices : list scalar) (view_dimensions : list string)
    (map_dfs : list (pyval * DataFrame)) :
  forall vmap vmap',
    NoDup (map fst vmap ++ map fst map_dfs) ->
    export_loop value_dim (Some f) view_dims view_method map_dfs indices
                view_dimensions vmap = Ok vmap' ->
    exists views,
      vmap' = vmap ++ views /\
      map fst views = map fst map_dfs /\
      Forall2 (fun kg kv =>
                 exists temp,
                   reduce_group value_dim view_dims f (snd kg) = Ok temp /\
                   view_method temp value_dim view_dimensions = Ok (snd kv))
              map_dfs views.
Proof.
  induction map_dfs as [|[map_key g] rest IH]; intros vmap vmap' Hnd H;
    cbn [export_loop] in H.
  - injection H as <-. exists []. rewrite app_nil_r.
    repeat split. constructor.
  - rewrite group_body_reduce in H.
    apply bind_Ok in H as [[[temp i'] vds'] [Hbody H]].
    apply bind_Ok in Hbody as [temp0 [Hred Hbody]].
    injection Hbody as <- <- <-.
    apply bind_Ok in H as [view [Hview H]].
    rewrite (dict_set_fresh pyval_eqb pyval_eqb_eq) in H.
    2:{ simpl in Hnd. apply NoDup_remove_2 in Hnd. intro Hin.
        apply Hnd, in_or_app. now left. }
    apply IH in H as [views [-> [Hkeys HF]]].
    2:{ rewrite map_app. simpl. rewrite <- app_assoc. exact Hnd. }
    exists ((map_key, view) :: views). rewrite <- app_assoc.
    split; [reflexivity|]. split; [simpl; now f_equal|].
    constructor; [|exact HF]. exists temp0. now split.
Qed.

(** In reduce mode the map dimensions wrap the views as they should:
    with map dimensions, the result is a keyed collection with one
    entry per group of [groupby] over the map dimensions, in the order
    of the groups and under the key of the group, and the view of a
    group is the table of the reduction of the rows of that group
    alone. *)
Theorem reduce_mode_map_wrapping (v : DataFrameView) (value_dim : string)
    (f : list scalar -> res pyval) (view_dims map_dims : list string)
    (indices : list scalar) (e : export ItemTable) :
  map_dims <> [] ->
  table v value_dim indices (Some f) view_dims map_dims = Ok e ->
  exists gs vmap,
    groupby map_dims
            (filter_unselected v (value_dim :: view_dims ++ map_dims))
    = Ok gs /\
    e = Mapped vmap /\
    map fst vmap = map (fun kg => PTuple (fst kg)) gs /\
    Forall2 (fun kg kv =>
               exists temp,
                 reduce_group value_dim view_dims f (snd kg) = Ok temp /\
                 snd kv = mkItemTable temp value_dim view_dims
                                      (view_label v value_dim))
            gs vmap.
Proof.
  intros Hne H. unfold table, _export_dataview in H.
  apply bind_Ok in H as [[] [_ H]].
  apply bind_Ok in H as [map_dfs [Hgroups H]].
  apply bind_Ok in H as [vmap [Hloop H]].
  unfold map_groups in Hgroups.
  destruct map_dims as [|d0 ds] eqn:Hd; [contradiction|]. rewrite <- Hd in *.
  assert (His : is_empty map_dims = false) by (rewrite Hd; reflexivity).
  rewrite His in Hgroups, H. injection H as <-.
  apply bind_Ok in Hgroups as [gs [Hgs Hgroups]]. injection Hgroups as <-.
  exists gs. 
  apply export_loop_reduce_views in Hloop as [views [-> [Hkeys HF]]].
  - exists views. cbn [app]. split; [exact Hgs|]. split; [reflexivity|].
    split.
    + rewrite Hkeys, map_map. reflexivity.
    + apply Forall2_map_left in HF.
      eapply Forall2_impl; [|exact HF].
      intros kg kv [temp [Hred Hview]]. exists temp. split; [exact Hred|].
      rewrite create_table_Ok in Hview. now injection Hview.
  - cbn [map app]. rewrite map_map. cbn [fst].
    rewrite <- map_map. apply NoDup_map_PTuple.
    apply groupby_Ok in Hgs. tauto.
Qed.

Lemma reduce_mode_map_wrapping_witness :
  exists gs vmap,
    groupby ["season"]
            (filter_unselected Examples.trials ("value" :: ["a"] ++ ["season"]))
    = Ok gs /\
    Mapped
      [(PTuple [SStr "s1"],
        mkItemTable [(PTuple [SInt 1], PAtom (SInt 10))] "value" ["a"] "value");
       (PTuple [SStr "s2"],
        mkItemTable [(PTuple [SInt 1], PAtom (SInt 50))] "value" ["a"] "value")]
    = Mapped vmap /\
    map fst vmap = map (fun kg => PTuple (fst kg)) gs /\
    Forall2 (fun kg kv =>
               exists temp,
                 reduce_group "value" ["a"] py_sum (snd kg) = Ok temp /\
                 snd kv = mkItemTable temp "value" ["a"]
                                      (view_label Examples.trials "value"))
            gs vmap.
Proof.
  apply (@reduce_mode_map_wrapping Examples.trials "value" py_sum ["a"]
           ["season"] []).
  - discriminate.
  - reflexivity.
Defined.

(** ** Reduce mode at the edges *)

Lemma table_reduce_single (v : DataFrameView) (value_dim : string)
    (f : list scalar -> res pyval) (view_dims : list string)
    (indices : list scalar) :
  (forall d, In d (value_dim :: view_dims) -> In d (dimension_labels v)) ->
  table v value_dim indices (Some f) view_dims []
  = temp <- reduce_group value_dim view_dims f
                         (filter_unselected v (value_dim :: view_dims)) ;;
    Ok (Single (mkItemTable temp value_dim view_dims (view_label v value_dim))).
Proof.
  intro Hsel. unfold table, _export_dataview. rewrite app_nil_r.
  rewrite (check_dimensions_valid _ _ Hsel). cbn [bind].
  unfold map_groups. cbn [is_empty bind export_loop].
  rewrite group_body_reduce.
  destruct (reduce_group _ _ _ _) as [temp|e]; cbn [bind]; [|reflexivity].
  rewrite create_table_Ok. reflexivity.
Qed.

Lemma collate_constant_key (value_dim : string) (val_idx : nat)
    (xf : row -> scalar) (cf : row -> list scalar) (rws : list row) :
  (forall r, In r rws -> item (cf r) val_idx = Ok (xf r)) ->
  forall d,
    collate value_dim [] val_idx [] (map cf rws) d
    = Ok (fold_left (fun d r => dict_append pyval_eqb (PAtom (SStr value_dim))
                                            (xf r) d) rws d).
Proof.
  induction rws as [|r rws IH]; intros H d; simpl; [reflexivity|].
  rewrite (H r (or_introl eq_refl)). cbn [bind].
  apply IH. intros; apply H; now right.
Qed.

Lemma fold_append_constant_key (K : pyval) (xf : row -> scalar)
    (rws : list row) :
  forall l,
    fold_left (fun d r => dict_append pyval_eqb K (xf r) d) rws [(K, l)]
    = [(K, l ++ map xf rws)].
Proof.
  induction rws as [|r rws IH]; intro l; simpl.
  - now rewrite app_nil_r.
  - rewrite pyval_eqb_refl, IH, <- app_assoc. reflexivity.
Qed.

(** Reduce mode without view dimensions: on a table with rows the
    mapping has the single key [value_dim], the name itself, mapped to
    the reduction of the whole value column in table order; on a table
    without rows the mapping is empty and the reduction function is not
    called. *)
Theorem reduce_mode_without_view_dimensions (v : DataFrameView)
    (value_dim : string) (f : list scalar -> res pyval)
    (indices : list scalar) :
  wf_view v ->
  In value_dim (dimension_labels v) ->
  table v value_dim indices (Some f) [] []
  = match rows (data v) with
    | [] => Ok (Single (mkItemTable [] value_dim [] (view_label v value_dim)))
    | _ :: _ =>
        y <- f (map (cell_of (columns (data v)) value_dim) (rows (data v))) ;;
        Ok (Single (mkItemTable [(PAtom (SStr value_dim), y)] value_dim []
                                (view_label v value_dim)))
    end.
Proof.
  intros Hwf Hvd.
  assert (Hsel : forall d, In d [value_dim] -> In d (dimension_labels v))
    by (intros d [<-|[]]; exact Hvd).
  rewrite table_reduce_single by exact Hsel.
  destruct (@filter_unselected_spec v [value_dim] Hwf Hsel) as [cf [Hrows Hcf]].
  unfold reduce_group.
  destruct (@list_index_defined
              (columns (filter_unselected v [value_dim])) value_dim)
    as [vi [Hvi ->]].
  { apply filter_unselected_columns; auto. now left. }
  cbn [bind mapM]. unfold values. rewrite Hrows, map_map.
  rewrite (@collate_constant_key value_dim vi
             (cell_of (columns (data v)) value_dim)).
  2:{ intros r Hr. destruct (Hcf r Hr) as [_ Hc].
      specialize (Hc value_dim (or_introl eq_refl)).
      destruct Hwf as [Hframe Hlabels].
      destruct (@get_cell_wf (data v) value_dim r Hframe) as [c Hx]; auto.
      - rewrite <- Hlabels. exact Hvd.
      - rewrite Hx in Hc. rewrite (@item_get_cell _ _ _ _ _ Hvi Hc).
        unfold cell_of. now rewrite Hx. }
  cbn [bind]. destruct (rows (data v)) as [|r rws]; [reflexivity|].
  cbn [fold_left dict_append]. rewrite fold_append_constant_key.
  cbn [mapM fst snd app map].
  destruct (f _) as [y|e]; reflexivity.
Qed.

Lemma reduce_mode_without_view_dimensions_witness :
  table Examples.cats "value" [] (Some py_sum) [] []
  = match rows (data Examples.cats) with
    | [] => Ok (Single (mkItemTable [] "value" []
                                    (view_label Examples.cats "value")))
    | _ :: _ =>
        y <- py_sum (map (cell_of (columns (data Examples.cats)) "value")
                         (rows (data Examples.cats))) ;;
        Ok (Single (mkItemTable [(PAtom (SStr "value"), y)] "value" []
                                (view_label Examples.cats "value")))
    end.
Proof.
  apply (@reduce_mode_without_view_dimensions Examples.cats "value" py_sum []
           cats_wf).
  simpl. tauto.
Defined.

(** On a table without rows reduce mode returns the empty mapping,
    whatever the view dimensions are, and does not call the reduction
    function. *)
Theorem reduce_mode_on_empty_table (v : DataFrameView) (value_dim : string)
    (f : list scalar -> res pyval) (view_dims : list string)
    (indices : list scalar) :
  wf_view v ->
  rows (data v) = [] ->
  In value_dim (dimension_labels v) ->
  (forall d, In d view_dims -> In d (dimension_labels v)) ->
  table v value_dim indices (Some f) view_dims []
  = Ok (Single (mkItemTable [] value_dim view_dims (view_label v value_dim))).
Proof.
  intros Hwf Hrows Hvd Hvds.
  destruct view_dims as [|d0 ds] eqn:Hd.
  - rewrite reduce_mode_without_view_dimensions by assumption.
    now rewrite Hrows.
  - rewrite <- Hd in *.
    assert (Hsel : forall d, In d (value_dim :: view_dims) ->
                             In d (dimension_labels v))
      by (intros d [<-|H]; auto).
    rewrite table_reduce_single by exact Hsel.
    rewrite (@reduce_group_filtered v value_dim f view_dims _ Hwf);
      [| rewrite Hd; discriminate | exact Hsel | now left
       | intros; now right].
    unfold reduce_spec. rewrite Hrows. reflexivity.
Qed.

Lemma reduce_mode_on_empty_table_witness :
  table (__init__ (mkDF ["cat"; "value"] []) None "") "value" []
        (Some py_sum) ["cat"] []
  = Ok (Single (mkItemTable [] "value" ["cat"]
                  (view_label (__init__ (mkDF ["cat"; "value"] []) None "")
                              "value"))).
Proof.
  apply (@reduce_mode_on_empty_table
           (__init__ (mkDF ["cat"; "value"] []) None "") "value" py_sum
           ["cat"] []).
  - apply init_wf. split; [solve_NoDup | constructor].
  - reflexivity.
  - simpl. tauto.
  - simpl. intros d [<-|[]]. tauto.
Defined.

(** ** Select mode at the edges *)

Lemma table_select_single (v : DataFrameView) (value_dim : string)
    (view_dims : list string) (indices : list scalar) (e : exn) :
  (forall d, In d (value_dim :: view_dims) -> In d (dimension_labels v)) ->
  group_body value_dim None view_dims indices view_dims
             (filter_unselected v (value_dim :: view_dims)) = Err e ->
  table v value_dim indices None view_dims [] = Err e.
Proof.
  intros Hsel Hbody. unfold table, _export_dataview. rewrite app_nil_r.
  rewrite (check_dimensions_valid _ _ Hsel). cbn [bind].
  unfold map_groups. cbn [is_empty bind export_loop].
  rewrite Hbody. reflexivity.
Qed.

(** Select mode without view dimensions joins the index to the name
    of the value dimension, which only a string index allows: when the
    first index in effect (the first supplied index, or the first row
    label when none is supplied) is an integer, the call raises
    [TypeError]. *)
Theorem select_mode_integer_index_without_view_dimensions
    (v : DataFrameView) (value_dim : string) (indices rest : list scalar)
    (z : Z) :
  In value_dim (dimension_labels v) ->
  effective_indices indices (data v) = SInt z :: rest ->
  table v value_dim indices None [] [] = Err TypeError.
Proof.
  intros Hvd Heff. apply table_select_single.
  - intros d [<-|[]]. exact Hvd.
  - set (g := filter_unselected v [value_dim]).
    assert (Hg : effective_indices indices g = SInt z :: rest).
    { unfold effective_indices in *. unfold g.
      now rewrite filter_unselected_index. }
    destruct (Nat.eq_dec (length indices) 1) as [Hone|Hmany].
    + destruct indices as [|i [|i' indices]]; try discriminate.
      unfold effective_indices in Heff. cbn [is_empty] in Heff.
      injection Heff as -> _.
      rewrite group_body_select_one. reflexivity.
    + rewrite group_body_select_many by exact Hmany.
      rewrite Hg. reflexivity.
Qed.

Lemma select_mode_integer_index_without_view_dimensions_witness :
  table Examples.sevens "value" [] None [] [] = Err TypeError.
Proof.
  apply (@select_mode_integer_index_without_view_dimensions
           Examples.sevens "value" [] [SInt 6] 5).
  - simpl. tauto.
  - reflexivity.
Defined.

Lemma loc_missing (g : DataFrame) (ind : scalar) (col : string) :
  In col (columns g) ->
  (forall r, In r (rows g) -> row_label r <> ind) ->
  loc g ind col = Err (KeyError (PAtom ind)).
Proof.
  intros Hcol Hrows. unfold loc.
  apply mem_str_In in Hcol. rewrite Hcol.
  assert (Hf : filter (fun r => scalar_eqb (row_label r) ind) (rows g) = []).
  { induction (rows g) as [|r rs IH]; [reflexivity|]. simpl.
    destruct (scalar_eqb (row_label r) ind) eqn:E.
    - apply scalar_eqb_eq in E. exfalso.
      exact (Hrows r (or_introl eq_refl) E).
    - apply IH. intros r' Hr'. apply Hrows. now right. }
  rewrite Hf. reflexivity.
Qed.

Lemma select_key_defined (value_dim : string) (view_dims : list string)
    (indices k : list scalar) (ind : scalar) :
  view_dims <> [] -> length k = length view_dims ->
  exists key, select_key value_dim view_dims indices k ind = Ok key.
Proof.
  intros Hne Hlen. unfold select_key.
  destruct view_dims as [|d ds]; [contradiction|]. cbn [is_empty].
  destruct k as [|c k]; [discriminate|].
  destruct (length indices =? 1)%nat;
    match goal with
    | |- context [(1 <? ?n)%nat] => destruct (1 <? n)%nat
    end; eauto.
Qed.

Lemma sort_keys_nonempty (l : list (list scalar)) :
  l <> [] -> sort_keys l <> [].
Proof.
  intros Hne Hnil. apply Hne.
  apply Permutation_nil. rewrite <- Hnil. apply sort_keys_perm.
Qed.

(** In select mode an index that labels no row is an error, not an
    omission: with view dimensions, on a table with rows, a first
    supplied index that is not a row label makes the call raise
    [KeyError] for that index. *)
Theorem select_mode_missing_index_raises (v : DataFrameView)
    (value_dim : string) (view_dims : list string) (i : scalar)
    (rest : list scalar) :
  wf_view v ->
  In value_dim (dimension_labels v) ->
  (forall d, In d view_dims -> In d (dimension_labels v)) ->
  view_dims <> [] ->
  rows (data v) <> [] ->
  ~ In i (index (data v)) ->
  table v value_dim (i :: rest) None view_dims [] = Err (KeyError (PAtom i)).
Proof.
  intros Hwf Hvd Hvds Hne Hrows Hi.
  assert (Hsel : forall d, In d (value_dim :: view_dims) ->
                           In d (dimension_labels v))
    by (intros d [<-|H]; auto).
  apply table_select_single; [exact Hsel|].
  destruct (@filter_unselected_spec v _ Hwf Hsel) as [cf [Hmap Hcf]].
  set (g := filter_unselected v (value_dim :: view_dims)) in *.
  assert (Hcols : forall d, In d (value_dim :: view_dims) -> In d (columns g))
    by (intros d Hd; now apply filter_unselected_columns).
  assert (Hcells : forall r d, In r (rows g) -> In d view_dims ->
                     get_cell (columns g) (row_cells r) d <> None).
  { intros r d Hr Hd. rewrite Hmap in Hr.
    apply in_map_iff in Hr as [r0 [<- Hr0]].
    destruct (Hcf r0 Hr0) as [_ Hc]. rewrite Hc by now right.
    destruct Hwf as [Hframe Hlabels].
    destruct (@get_cell_wf (data v) d r0 Hframe) as [x Hx]; auto.
    - rewrite <- Hlabels. now apply Hvds.
    - rewrite Hx. discriminate. }
  assert (Hlabels : forall r, In r (rows g) -> row_label r <> i).
  { intros r Hr Heq. rewrite Hmap in Hr.
    apply in_map_iff in Hr as [r0 [<- Hr0]].
    destruct (Hcf r0 Hr0) as [Hl _]. apply Hi. unfold index.
    apply in_map_iff. exists r0. split; [congruence | exact Hr0]. }
  assert (Hgroups : view_groups_of view_dims g
            = Ok (map (fun k => (k, mkDF (columns g)
                                   (filter (fun r => key_eqb k
                                              (key_of (columns g) view_dims r))
                                           (rows g))))
                      (sort_keys (distinct_keys
                                    (map (key_of (columns g) view_dims)
                                         (rows g)))))).
  { unfold view_groups_of.
    destruct view_dims as [|d0 ds] eqn:Hd; [contradiction|].
    rewrite <- Hd in *. replace (is_empty view_dims) with false
      by (rewrite Hd; reflexivity).
    apply groupby_defined; auto.
    intros d Hdin. apply Hcols. now right. }
  assert (Hbody : forall view_dimensions' indices',
            (view_groups <- view_groups_of view_dims g ;;
             temp_dict <- select_groups value_dim view_dims (i :: rest)
                                        view_groups [] ;;
             Ok (temp_dict, indices', view_dimensions'))
            = (Err (KeyError (PAtom i))
               : res (dict pyval pyval * list scalar * list string))).
  { intros vds' inds'. rewrite Hgroups. cbn [bind].
    destruct (sort_keys _) as [|k0 ks] eqn:Hks.
    - exfalso. apply sort_keys_nonempty in Hks; [exact Hks|].
      rewrite Hmap. destruct (rows (data v)); [contradiction|]. discriminate.
    - assert (Hk0 : In k0 (map (key_of (columns g) view_dims) (rows g))).
      { apply sorted_distinct_In. rewrite Hks. now left. }
      apply in_map_iff in Hk0 as [r0 [<- Hr0]].
      cbn [map select_groups select_indices].
      destruct (@select_key_defined value_dim view_dims (i :: rest)
                  (key_of (columns g) view_dims r0) i Hne) as [key ->].
      { apply key_of_length. intros d Hd. now apply Hcells. }
      cbn [bind]. rewrite loc_missing; [reflexivity | |].
      + cbn [columns]. apply Hcols. now left.
      + cbn [rows]. intros r Hr. apply filter_In in Hr as [Hr _].
        now apply Hlabels. }
  destruct (Nat.eq_dec (length (i :: rest)) 1) as [Hone|Hmany].
  - destruct rest; [|discriminate].
    rewrite group_body_select_one. apply Hbody.
  - rewrite group_body_select_many by exact Hmany.
    unfold effective_indices. cbn [is_empty]. apply Hbody.
Qed.

Lemma select_mode_missing_index_raises_witness :
  table Examples.sevens "value" [SInt 9; SInt 5] None ["a"] []
  = Err (KeyError (PAtom (SInt 9))).
Proof.
  apply (@select_mode_missing_index_raises Examples.sevens "value" ["a"]
           (SInt 9) [SInt 5] sevens_wf).
  - simpl. tauto.
  - simpl. intros d [<-|[]]. tauto.
  - discriminate.
  - discriminate.
  - simpl. intros [H|[H|[]]]; discriminate.
Defined.

(** ** The views of a table conversion *)

Lemma group_body_view_dimensions (value_dim : string)
    (reduce_fn : option (list scalar -> res pyval)) (view_dims : list string)
    (indices : list scalar) (view_dimensions : list string) (g : DataFrame)
    (temp : dict pyval pyval) (indices' : list scalar)
    (view_dimensions' : list string) :
  group_body value_dim reduce_fn view_dims indices view_dimensions g
  = Ok (temp, indices', view_dimensions') ->
  view_dimensions' = view_dimensions \/
  view_dimensions' = "Index" :: view_dims.
Proof.
  unfold group_body. destruct reduce_fn as [f|]; intro H.
  - apply bind_Ok in H as [t [_ H]]. injection H as _ _ <-. now left.
  - destruct (negb (length indices =? 1)%nat);
      apply bind_Ok in H as [gs [_ H]]; apply bind_Ok in H as [t [_ H]];
      injection H as _ _ <-; auto.
Qed.

Lemma export_loop_views (V : Type) (value_dim : string)
    (reduce_fn : option (list scalar -> res pyval)) (view_dims : list string)
    (view_method : dict pyval pyval -> string -> list string -> res V) :
  forall map_dfs indices view_dimensions vmap vmap',
    view_dimensions = view_dims \/ view_dimensions = "Index" :: view_dims ->
    export_loop value_dim reduce_fn view_dims view_method map_dfs indices
                view_dimensions vmap = Ok vmap' ->
    forall k view, In (k, view) vmap' ->
      In (k, view) vmap \/
      exists temp dims,
        (dims = view_dims \/ dims = "Index" :: view_dims) /\
        view_method temp value_dim dims = Ok view.
Proof.
  induction map_dfs as [|[map_key g] rest IH];
    intros indices vds vmap vmap' Hvds H k view Hin; cbn [export_loop] in H.
  - injection H as <-. now left.
  - apply bind_Ok in H as [[[temp i'] vds'] [Hbody H]].
    apply bind_Ok in H as [view0 [Hview H]].
    assert (Hvds' : vds' = view_dims \/ vds' = "Index" :: view_dims).
    { apply group_body_view_dimensions in Hbody as [->| ->]; auto. }
    destruct (IH _ _ _ _ Hvds' H k view Hin) as [Hold|Hnew]; [|now right].
    apply (dict_set_In pyval_eqb pyval_eqb_eq) in Hold as [[-> ->]|Hold];
      [|now left].
    right. exists temp, vds'. now split.
Qed.

(** Every view of a table conversion, in either mode and with or
    without map dimensions, has the value dimension of the call, the
    label of the source joined to the value dimension, and as
    dimensions the view dimensions, with or without ['Index'] in
    front. *)
Theorem table_views_labelled (v : DataFrameView) (value_dim : string)
    (indices : list scalar) (reduce_fn : option (list scalar -> res pyval))
    (dims map_dims : list string) (e : export ItemTable) :
  table v value_dim indices reduce_fn dims map_dims = Ok e ->
  Forall (fun t =>
            it_value t = value_dim /\
            it_label t = view_label v value_dim /\
            (it_dimensions t = dims \/ it_dimensions t = "Index" :: dims))
         (views_of e).
Proof.
  unfold table, _export_dataview. intro H.
  apply bind_Ok in H as [[] [_ H]]. apply bind_Ok in H as [map_dfs [_ H]].
  apply bind_Ok in H as [vmap [Hloop H]].
  assert (Hall : forall k t, In (k, t) vmap ->
            it_value t = value_dim /\
            it_label t = view_label v value_dim /\
            (it_dimensions t = dims \/ it_dimensions t = "Index" :: dims)).
  { intros k t Hin.
    destruct (@export_loop_views _ value_dim reduce_fn dims (_create_table v)
                _ _ _ _ _ (or_introl eq_refl) Hloop _ _ Hin)
      as [[]|[temp [ds [Hds Hview]]]].
    rewrite create_table_Ok in Hview. injection Hview as <-.
    cbn [it_value it_label it_dimensions]. auto. }
  destruct (is_empty map_dims).
  - destruct (dict_get pyval_eqb PNone vmap) as [t|] eqn:Hget; [|discriminate].
    injection H as <-. constructor; [|constructor].
    eapply Hall, (dict_get_In pyval_eqb pyval_eqb_eq), Hget.
  - injection H as <-. simpl. apply Forall_forall. intros t Ht.
    apply in_map_iff in Ht as [[k t'] [<- Hin]]. eapply Hall, Hin.
Qed.

Lemma table_views_labelled_witness :
  Forall (fun t =>
            it_value t = "value" /\
            it_label t = view_label Examples.trials "value" /\
            (it_dimensions t = ["a"] \/ it_dimensions t = "Index" :: ["a"]))
         (views_of
            (Mapped
               [(PTuple [SStr "s1"],
                 mkItemTable [(PTuple [SInt 1], PAtom (SInt 10))]
                             "value" ["a"] "value");
                (PTuple [SStr "s2"],
                 mkItemTable [(PTuple [SInt 1], PAtom (SInt 50))]
                             "value" ["a"] "value")])).
Proof.
  apply (@table_views_labelled Examples.trials "value" [] (Some py_sum)
           ["a"] ["season"]).
  reflexivity.
Defined.

(** ** Axis limits *)

Lemma min_loop_ints (zs : list Z) :
  forall m,
  exists lo,
    min_loop (SInt m) (map SInt zs) = Ok (SInt lo) /\
    In lo (m :: zs) /\ lo <= m /\ forall z, In z zs -> lo <= z.
Proof.
  induction zs as [|z zs IH]; intro m; simpl.
  - exists m. repeat split; auto; try lia; try contradiction.
  - destruct (Z.ltb z m) eqn:E.
    + apply Z.ltb_lt in E. destruct (IH z) as [lo [H [Hin [Hle Hall]]]].
      exists lo. split; [exact H|]. split; [simpl in *; tauto|].
      split; [lia|]. intros z' [<-|Hz]; [exact Hle | now apply Hall].
    + apply Z.ltb_ge in E. destruct (IH m) as [lo [H [Hin [Hle Hall]]]].
      exists lo. split; [exact H|]. split; [simpl in *; tauto|].
      split; [lia|]. intros z' [<-|Hz]; [lia | now apply Hall].
Qed.

Lemma max_loop_ints (zs : list Z) :
  forall m,
  exists hi,
    max_loop (SInt m) (map SInt zs) = Ok (SInt hi) /\
    In hi (m :: zs) /\ m <= hi /\ forall z, In z zs -> z <= hi.
Proof.
  induction zs as [|z zs IH]; intro m; simpl.
  - exists m. repeat split; auto; try lia; try contradiction.
  - destruct (Z.ltb m z) eqn:E.
    + apply Z.ltb_lt in E. destruct (IH z) as [hi [H [Hin [Hle Hall]]]].
      exists hi. split; [exact H|]. split; [simpl in *; tauto|].
      split; [lia|]. intros z' [<-|Hz]; [exact Hle | now apply Hall].
    + apply Z.ltb_ge in E. destruct (IH m) as [hi [H [Hin [Hle Hall]]]].
      exists hi. split; [exact H|]. split; [simpl in *; tauto|].
      split; [lia|]. intros z' [<-|Hz]; [lia | now apply Hall].
Qed.

(** Without cached limits, the limits of an axis set on a column of
    integers with at least one row are the smallest and the largest
    value of the column: both occur in the column and every value of
    the column lies between them.  [ylim] does the same for the y
    axis. *)
Theorem axis_limits_bound_column (v : DataFrameView) (x : string)
    (zs : list Z) :
  x <> "" ->
  zs <> [] ->
  df_column (data v) x = Ok (map SInt zs) ->
  exists lo hi,
    xlim v None x = Ok (Some (SInt lo, SInt hi)) /\
    ylim v None x = Ok (Some (SInt lo, SInt hi)) /\
    In lo zs /\ In hi zs /\
    forall z, In z zs -> lo <= z <= hi.
Proof.
  intros Hx Hne Hcol. destruct zs as [|z0 zs]; [contradiction|].
  destruct (min_loop_ints zs z0) as [lo [Hmin [Hlo [Hlo0 Hlow]]]].
  destruct (max_loop_ints zs z0) as [hi [Hmax [Hhi [Hhi0 Hhigh]]]].
  exists lo, hi. unfold xlim, ylim.
  apply String.eqb_neq in Hx. rewrite Hx, Hcol. cbn [bind map py_min py_max].
  rewrite Hmin, Hmax. cbn [bind].
  repeat split; auto.
  - destruct H as [<-|H]; [exact Hlo0 | now apply Hlow].
  - destruct H as [<-|H]; [exact Hhi0 | now apply Hhigh].
Qed.

Lemma axis_limits_bound_column_witness :
  exists lo hi,
    xlim Examples.cats None "value" = Ok (Some (SInt lo, SInt hi)) /\
    ylim Examples.cats None "value" = Ok (Some (SInt lo, SInt hi)) /\
    In lo [1; 3; 10] /\ In hi [1; 3; 10] /\
    forall z, In z [1; 3; 10] -> lo <= z <= hi.
Proof.
  apply (@axis_limits_bound_column Examples.cats "value" [1; 3; 10]).
  - discriminate.
  - discriminate.
  - reflexivity.
Defined.

(** An axis on a column of a table without rows has no limits to
    compute: [xlim] raises the [ValueError] of [min] on an empty
    sequence, where an axis that is not set gives [None]. *)
Theorem axis_limits_of_empty_table (v : DataFrameView) (x : string) :
  rows (data v) = [] ->
  In x (columns (data v)) ->
  x <> "" ->
  xlim v None x = Err (ValueError "min() arg is an empty sequence") /\
  xlim v None "" = Ok None.
Proof.
  intros Hrows Hcol Hx. split; [|reflexivity].
  unfold xlim, df_column. apply String.eqb_neq in Hx. rewrite Hx.
  apply mem_str_In in Hcol. rewrite Hcol, Hrows. reflexivity.
Qed.

Lemma axis_limits_of_empty_table_witness :
  xlim (__init__ (mkDF ["cat"; "value"] []) None "") None "value"
  = Err (ValueError "min() arg is an empty sequence") /\
  xlim (__init__ (mkDF ["cat"; "value"] []) None "") None "" = Ok None.
Proof.
  apply (@axis_limits_of_empty_table
           (__init__ (mkDF ["cat"; "value"] []) None "") "value").
  - reflexivity.
  - simpl. tauto.
  - discriminate.
Defined.

(** ** Splitting a view with missing values *)

Section WithMissingFacts.
Import WithMissing.

Lemma na_get_cell_wf (df : DataFrame) (d : string) (r : row) :
  wf_frame df -> In d (columns df) -> In r (rows df) ->
  exists c, get_cell (columns df) (row_cells r) d = Some c.
Proof.
  intros [_ Hrect] Hd Hr. unfold get_cell.
  destruct (index_of_In _ _ Hd) as [i Hi]. rewrite Hi.
  rewrite Forall_forall in Hrect. specialize (Hrect r Hr).
  destruct (nth_error (row_cells r) i) as [c|] eqn:E; [eauto|].
  apply nth_error_None in E. apply index_of_lt in Hi. lia.
Qed.

Lemma na_row_key_defined (cols dims : list string) (r : row) :
  (forall d, In d dims -> get_cell cols (row_cells r) d <> None) ->
  row_key cols dims r = Ok (map (fun d => cell_value cols d r) dims).
Proof.
  unfold row_key. induction dims as [|d dims IH]; simpl; intro H;
    [reflexivity|].
  unfold cell_or_raise at 1, cell_value at 1.
  destruct (get_cell cols (row_cells r) d) as [c|] eqn:E.
  - cbn [bind]. rewrite IH by (intros; apply H; now right). reflexivity.
  - exfalso. now apply (H d (or_introl eq_refl)).
Qed.

Lemma na_group_rows_map (kf : row -> option (list scalar)) (rws : list row)
    (k : list scalar) :
  group_rows k (combine (map kf rws) rws)
  = filter (fun r => has_key k (kf r)) rws.
Proof.
  unfold group_rows. induction rws as [|r rws IH]; simpl; [reflexivity|].
  destruct (has_key k (kf r)); simpl; now rewrite IH.
Qed.

Lemma na_present_In (kf : row -> option (list scalar)) (rws : list row)
    (k : list scalar) :
  In k (present (map kf rws)) <-> exists r, In r rws /\ kf r = Some k.
Proof.
  induction rws as [|r rws IH]; simpl.
  - split; [contradiction | intros [r [[] _]]].
  - destruct (kf r) as [k'|] eqn:E; simpl; rewrite IH; split.
    + intros [->|[r' [Hr' Hk]]]; eauto.
    + intros [r' [[<-|Hr'] Hk]]; [left; congruence | right; eauto].
    + intros [r' [Hr' Hk]]; eauto.
    + intros [r' [[<-|Hr'] Hk]]; [congruence | eauto].
Qed.

(** What [groupby] returns on a table that has the columns it groups
    by. *)
Lemma na_groupby_defined (dims : list string) (df : DataFrame) :
  dims <> [] ->
  (forall d, In d dims -> In d (columns df)) ->
  (forall r d, In r (rows df) -> In d dims ->
               get_cell (columns df) (row_cells r) d <> None) ->
  groupby dims df
  = Ok (map (fun k =>
               (k, mkDF (columns df)
                        (filter (fun r => has_key k (key_of (columns df) dims r))
                                (rows df))))
            (sort_keys (distinct_keys
                          (present (map (key_of (columns df) dims) (rows df)))))).
Proof.
  intros Hne Hcols Hcells. unfold groupby.
  destruct dims as [|d0 dims0] eqn:Hd; [contradiction|]. rewrite <- Hd in *.
  rewrite (filter_invalid_nil _ _ Hcols).
  rewrite (mapM_Ok_map _ (fun r => map (fun d => cell_value (columns df) d r) dims)).
  - cbn [bind]. rewrite map_map. f_equal. apply map_ext. intro k.
    change (fun x : row => complete (map (fun d => cell_value (columns df) d x) dims))
      with (key_of (columns df) dims).
    now rewrite na_group_rows_map.
  - intros r Hr. apply na_row_key_defined. intros d Hdin. now apply Hcells.
Qed.

Lemma na_df_drop_defined (labels : list string) (df : DataFrame) :
  (forall d, In d labels -> In d (columns df)) ->
  df_drop labels df
  = Ok (mkDF (filter (fun c => negb (mem_str c labels)) (columns df))
             (map (drop_row (columns df) labels) (rows df))).
Proof.
  intro H. unfold df_drop. now rewrite (filter_invalid_nil _ _ H).
Qed.

Lemma na_split_loop_defined (v : DataFrameView) (dims view_dims : list string)
    (cols : list string) (gs : list (list scalar * list row)) :
  (forall d, In d dims -> In d cols) ->
  forall acc,
    NoDup (map fst acc ++ map fst gs) ->
    split_loop v dims view_dims
               (map (fun kg => (fst kg, mkDF cols (snd kg))) gs) acc
    = Ok (acc ++
          map (fun kg =>
                 (fst kg,
                  clone v (mkDF (filter (fun c => negb (mem_str c dims)) cols)
                                (map (drop_row cols dims) (snd kg)))
                        (Some view_dims)))
              gs).
Proof.
  intro Hcols. induction gs as [|[k rws] gs IH]; intros acc Hnd; simpl.
  - now rewrite app_nil_r.
  - rewrite na_df_drop_defined by exact Hcols. cbn [bind columns rows].
    unfold ndmapping_set. rewrite (dict_set_fresh key_eqb key_eqb_eq).
    + rewrite IH.
      * now rewrite <- app_assoc.
      * rewrite map_app. simpl. rewrite <- app_assoc. exact Hnd.
    + simpl in Hnd. apply NoDup_remove_2 in Hnd.
      intro Hin. apply Hnd. apply in_or_app. now left.
Qed.

Lemma na_clone_dimensions_dropped (v : DataFrameView) (dims : list string)
    (rws : list row) :
  wf_view v ->
  dimensions
    (clone v (mkDF (filter (fun c => negb (mem_str c dims)) (columns (data v))) rws)
           (Some (set_diff (dimension_labels v) dims)))
  = filter (fun d => negb (mem_str d dims)) (dimensions v).
Proof.
  intros [[Hnd _] Hdims]. unfold clone, __init__, dimension_labels, set_diff.
  cbn [dimensions columns]. rewrite Hdims, set_of_NoDup by exact Hnd.
  apply fold_place_all. now apply NoDup_filter.
Qed.

(** The groups of the keys that are there, put together, are the rows
    that have a key, up to order. *)
Lemma na_groups_partition (kf : row -> option (list scalar))
    (ks : list (list scalar)) (rws : list row) :
  NoDup ks ->
  (forall r k, In r rws -> kf r = Some k -> In k ks) ->
  Permutation
    (concat (map (fun k => filter (fun r => has_key k (kf r)) rws) ks))
    (filter (fun r => match kf r with Some _ => true | None => false end) rws).
Proof.
  intros Hnd Hks.
  set (keyed' := fun r => match kf r with Some _ => true | None => false end).
  set (kf' := fun r => match kf r with Some k => k | None => [] end).
  rewrite (map_ext (fun k => filter (fun r => has_key k (kf r)) rws)
                   (fun k => filter (fun r => key_eqb k (kf' r))
                                    (filter keyed' rws))).
  - apply groups_partition; [exact Hnd|].
    intros r Hr. apply filter_In in Hr as [Hr Hk]. unfold keyed', kf' in *.
    destruct (kf r) as [k|] eqn:E; [|discriminate]. now apply (Hks r).
  - intro k. rewrite filter_filter. apply filter_ext. intro r.
    unfold keyed', kf', has_key. now destruct (kf r).
Qed.

Lemma na_split_dimensions_partitions (v : DataFrameView) (dims : list string) :
  wf_view v ->
  dims <> [] ->
  (forall d, In d dims -> In d (dimension_labels v)) ->
  partitions_keyed_rows _split_dimensions v dims.
Proof.
  intros Hwf Hne Hdims.
  pose proof Hwf as [Hframe Hlabels]. unfold dimension_labels in Hdims.
  rewrite Hlabels in Hdims.
  set (cols := columns (data v)) in *.
  set (kf := key_of cols dims).
  set (ks := sort_keys (distinct_keys (present (map kf (rows (data v)))))).
  set (grp := fun k => filter (fun r => has_key k (kf r)) (rows (data v))).
  assert (Hgroup : groupby dims (data v)
                   = Ok (map (fun kg => (fst kg, mkDF cols (snd kg)))
                             (map (fun k => (k, grp k)) ks))).
  { rewrite map_map. cbn [fst snd]. apply na_groupby_defined; try assumption.
    intros r d Hr Hd. destruct (@na_get_cell_wf (data v) d r) as [x Hx]; auto.
    unfold cols. rewrite Hx. discriminate. }
  assert (Hks : NoDup ks) by apply sorted_distinct_NoDup.
  unfold partitions_keyed_rows, _split_dimensions.
  rewrite set_diff_nil
    by (unfold dimension_labels; rewrite Hlabels; exact Hdims).
  rewrite Hgroup. cbn [bind].
  rewrite (@na_split_loop_defined v dims _ cols _ Hdims []).
  2:{ simpl. rewrite !map_map. cbn [fst]. now rewrite map_id. }
  eexists. split; [reflexivity|]. cbn [app].
  rewrite !map_map. cbn [fst snd]. split; [|split].
  - now rewrite map_id.
  - intros k g Hin. apply in_map_iff in Hin as [k' [Heq _]].
    injection Heq as -> <-. split.
    + now apply na_clone_dimensions_dropped.
    + reflexivity.
  - erewrite map_ext by (intro k; reflexivity).
    cbn [clone __init__ data rows].
    rewrite <- map_map with (g := map (drop_row cols dims)).
    rewrite <- concat_map. apply Permutation_map.
    apply na_groups_partition; [exact Hks|].
    intros r k Hr Hk. apply sorted_distinct_In.
    apply na_present_In. eauto.
Qed.

(** C8, as stated, fails: a row without a value under the split
    dimension is put in no group.  Of the two rows of [seasons] only
    the row of season [s1] is in a group; the row whose season is
    missing is dropped. *)
Lemma C8_row_with_missing_key_dropped :
  viewmap seasons ["season"]
  = Ok [([SStr "s1"],
         mkView (mkDF ["a"; "value"]
                      [mkRow (SInt 0) [Some (SInt 1); Some (SInt 10)]])
                ["a"; "value"] "")] /\
  ~ partitions_all_rows viewmap seasons ["season"].
Proof.
  split; [reflexivity|].
  intros [m [H Hperm]]. vm_compute in H. injection H as <-.
  apply Permutation_length in Hperm. vm_compute in Hperm. discriminate.
Qed.

(** C8, amended: for every well-formed view and every non-empty list
    [dims] of its dimensions, splitting on [dims] with [viewmap] or
    [overlay_dimensions], or with [grid] when [dims] has at most two
    names, partitions the rows that have a value under every name of
    [dims]: every such row, with the columns [dims] removed, is in
    exactly one group, the rows of a group are those whose values under
    [dims] are the key of the group, a row with a missing value under
    [dims] is in no group, and the group has the dimensions of the view
    other than [dims]. *)
Theorem C8_split_partitions_keyed_rows (v : DataFrameView)
    (dims : list string) :
  wf_view v ->
  dims <> [] ->
  (forall d, In d dims -> In d (dimension_labels v)) ->
  partitions_keyed_rows viewmap v dims /\
  partitions_keyed_rows overlay_dimensions v dims /\
  ((length dims <= 2)%nat -> partitions_keyed_rows grid v dims).
Proof.
  intros Hwf Hne Hdims.
  pose proof (na_split_dimensions_partitions Hwf Hne Hdims) as H.
  split; [exact H|]. split; [exact H|].
  intro Hlen. unfold partitions_keyed_rows, grid.
  apply Nat.ltb_ge in Hlen. rewrite Hlen. exact H.
Qed.

Lemma seasons_wf_with_missing : wf_view seasons.
Proof.
  split; [split|reflexivity].
  - solve_NoDup.
  - repeat (constructor; [reflexivity|]). constructor.
Qed.

Lemma C8_split_partitions_keyed_rows_witness :
  partitions_keyed_rows viewmap seasons ["season"] /\
  partitions_keyed_rows overlay_dimensions seasons ["season"] /\
  ((length ["season"] <= 2)%nat ->
   partitions_keyed_rows grid seasons ["season"]).
Proof.
  apply (@C8_split_partitions_keyed_rows seasons ["season"]
           seasons_wf_with_missing).
  - discriminate.
  - simpl. intros d [<-|[]]. tauto.
Defined.

End WithMissingFacts.

(** ** The two embeddings agree *)

Lemma with_missing_get_cell (cols : list string) (cells : list scalar)
    (d : string) :
  WithMissing.get_cell cols (map Some cells) d
  = option_map Some (get_cell cols cells d).
Proof.
  unfold WithMissing.get_cell, get_cell.
  destruct (index_of d cols); [apply nth_error_map | reflexivity].
Qed.

Lemma with_missing_row_key (cols dims : list string) (r : row) :
  WithMissing.row_key cols dims (with_missing_row r)
  = res_map (map Some) (row_key cols dims r).
Proof.
  unfold WithMissing.row_key, row_key, res_map.
  induction dims as [|d dims IH]; simpl; [reflexivity|].
  unfold WithMissing.cell_or_raise at 1, cell_or_raise at 1.
  cbn [with_missing_row WithMissing.row_cells].
  rewrite with_missing_get_cell.
  destruct (get_cell cols (row_cells r) d) as [c|]; cbn [option_map bind];
    [|reflexivity].
  rewrite IH.
  destruct (mapM (fun d0 => cell_or_raise cols d0 r) dims); reflexivity.
Qed.

Lemma with_missing_row_keys (cols dims : list string) (rws : list row) :
  mapM (WithMissing.row_key cols dims) (map with_missing_row rws)
  = res_map (map (map Some)) (mapM (row_key cols dims) rws).
Proof.
  unfold res_map. induction rws as [|r rws IH]; simpl; [reflexivity|].
  rewrite with_missing_row_key. unfold res_map.
  destruct (row_key cols dims r) as [k|e]; cbn [bind]; [|reflexivity].
  rewrite IH.
  destruct (mapM (row_key cols dims) rws); reflexivity.
Qed.

Lemma complete_Some (k : list scalar) :
  WithMissing.complete (map Some k) = Some k.
Proof. induction k as [|x k IH]; simpl; [reflexivity | now rewrite IH]. Qed.

Lemma complete_keys (keys : list (list scalar)) :
  map WithMissing.complete (map (map Some) keys) = map Some keys.
Proof.
  rewrite map_map. apply map_ext. intro k. apply complete_Some.
Qed.

Lemma present_Some (keys : list (list scalar)) :
  WithMissing.present (map Some keys) = keys.
Proof. induction keys as [|k keys IH]; simpl; congruence. Qed.

Lemma with_missing_group_rows (k : list scalar) (keys : list (list scalar)) :
  forall rws,
    WithMissing.group_rows k (combine (map Some keys) (map with_missing_row rws))
    = map with_missing_row (group_rows k (combine keys rws)).
Proof.
  unfold WithMissing.group_rows, group_rows.
  induction keys as [|k' keys IH]; intros [|r rws]; simpl; try reflexivity.
  destruct (key_eqb k k'); simpl; now rewrite IH.
Qed.

Lemma with_missing_groupby (dims : list string) (df : DataFrame) :
  WithMissing.groupby dims (with_missing_frame df)
  = res_map with_missing_groups (groupby dims df).
Proof.
  unfold WithMissing.groupby, groupby, res_map.
  cbn [with_missing_frame WithMissing.rows WithMissing.columns].
  destruct dims as [|d0 dims0] eqn:Hd.
  - destruct (rows df); reflexivity.
  - rewrite <- Hd.
    destruct (filter (fun d => negb (mem_str d (columns df))) dims);
      [|reflexivity].
    rewrite with_missing_row_keys. unfold res_map.
    destruct (mapM (row_key (columns df) dims) (rows df)) as [keys|e];
      cbn [bind]; [|reflexivity].
    rewrite complete_keys, present_Some. f_equal.
    unfold with_missing_groups. rewrite map_map. apply map_ext. intro k.
    cbn [fst snd]. unfold with_missing_frame. cbn [columns rows].
    now rewrite with_missing_group_rows.
Qed.

Lemma with_missing_drop_cells (cols labels : list string) :
  forall cells,
    WithMissing.drop_cells cols labels (map Some cells)
    = map Some (drop_cells cols labels cells).
Proof.
  induction cols as [|c cols IH]; intros [|x cells]; simpl; try reflexivity.
  destruct (mem_str c labels); simpl; now rewrite IH.
Qed.

Lemma with_missing_df_drop (labels : list string) (df : DataFrame) :
  WithMissing.df_drop labels (with_missing_frame df)
  = res_map with_missing_frame (df_drop labels df).
Proof.
  unfold WithMissing.df_drop, df_drop, res_map.
  cbn [with_missing_frame WithMissing.rows WithMissing.columns].
  destruct (filter (fun d => negb (mem_str d (columns df))) labels);
    [|reflexivity].
  cbn [bind]. unfold with_missing_frame. cbn [columns rows]. do 2 f_equal.
  rewrite !map_map. apply map_ext. intro r.
  unfold WithMissing.drop_row, drop_row, with_missing_row.
  cbn [WithMissing.row_label WithMissing.row_cells row_label row_cells].
  now rewrite with_missing_drop_cells.
Qed.

Lemma with_missing_clone (v : DataFrameView) (df : DataFrame)
    (dims : option (list string)) :
  WithMissing.clone (with_missing v) (with_missing_frame df) dims
  = with_missing (clone v df dims).
Proof. reflexivity. Qed.

Lemma dict_set_map_values {K V W : Type} (eqb : K -> K -> bool) (h : V -> W)
    (k : K) (x : V) (d : dict K V) :
  dict_set eqb k (h x) (map (fun kv => (fst kv, h (snd kv))) d)
  = map (fun kv => (fst kv, h (snd kv))) (dict_set eqb k x d).
Proof.
  induction d as [|[k' x'] d IH]; simpl; [reflexivity|].
  destruct (eqb k k'); simpl; [reflexivity | now rewrite IH].
Qed.

Lemma with_missing_split_loop (v : DataFrameView) (dims view_dims : list string)
    (gs : list (list scalar * DataFrame)) :
  forall acc,
    WithMissing.split_loop (with_missing v) dims view_dims
                           (with_missing_groups gs) (with_missing_mapping acc)
    = res_map with_missing_mapping (split_loop v dims view_dims gs acc).
Proof.
  unfold res_map.
  induction gs as [|[k g] gs IH]; intro acc; simpl; [reflexivity|].
  rewrite with_missing_df_drop. unfold res_map.
  destruct (df_drop dims g) as [g'|e]; cbn [bind]; [|reflexivity].
  rewrite with_missing_clone. unfold ndmapping_set.
  change (dict_set key_eqb k (with_missing (clone v g' (Some view_dims)))
                   (with_missing_mapping acc))
    with (dict_set key_eqb k (with_missing (clone v g' (Some view_dims)))
                   (map (fun kv => (fst kv, with_missing (snd kv))) acc)).
  rewrite dict_set_map_values. apply IH.
Qed.

(** On a table without missing values, splitting in the embedding
    with missing values is splitting in the embedding without:
    the same groups under the same keys, or the same exception. *)
Theorem split_agrees_without_missing_values (v : DataFrameView)
    (dims : list string) :
  WithMissing._split_dimensions (with_missing v) dims
  = res_map with_missing_mapping (_split_dimensions v dims).
Proof.
  unfold WithMissing._split_dimensions, _split_dimensions, res_map.
  change (WithMissing.dimension_labels (with_missing v))
    with (dimension_labels v).
  destruct (set_diff dims (dimension_labels v)); [|reflexivity].
  change (WithMissing.data (with_missing v)) with (with_missing_frame (data v)).
  rewrite with_missing_groupby. unfold res_map.
  destruct (groupby dims (data v)) as [gs|e]; cbn [bind]; [|reflexivity].
  apply (with_missing_split_loop v dims _ gs []).
Qed.

(** ** Splitting on no dimension *)

(** The splitting methods have no guard for an empty list of
    dimensions, which is the default of [viewmap] and [grid]: on a
    table with rows the empty list reaches [groupby], and the call
    raises [ValueError] instead of returning the whole table as one
    group. *)
Theorem split_without_dimensions_raises (v : DataFrameView) :
  rows (data v) <> [] ->
  viewmap v [] = Err (ValueError "No group keys passed!") /\
  grid v [] = Err (ValueError "No group keys passed!") /\
  overlay_dimensions v [] = Err (ValueError "No group keys passed!").
Proof.
  intro Hrows.
  assert (H : _split_dimensions v [] = Err (ValueError "No group keys passed!")).
  { unfold _split_dimensions. cbn [set_diff set_of filter].
    unfold groupby. destruct (rows (data v)); [contradiction | reflexivity]. }
  repeat split; exact H.
Qed.

Lemma split_without_dimensions_raises_witness :
  viewmap Examples.seasons [] = Err (ValueError "No group keys passed!") /\
  grid Examples.seasons [] = Err (ValueError "No group keys passed!") /\
  overlay_dimensions Examples.seasons []
  = Err (ValueError "No group keys passed!").
Proof.
  apply (@split_without_dimensions_raises Examples.seasons).
  discriminate.
Defined.
